(** * fo-analysis: the fibre-network analysis core, embedded in Rocq

    A shallow embedding of the four services of [backend/app/services]
    ([kml_parser], [csv_parser], [opm_calculator], [comparison_service]) and
    of the [/compare] endpoint of [backend/app/api/comparison.py], followed by
    the properties of the design document that were checked against them.

    Conventions of the embedding.
    - A Python [float] is an exact rational ([Q]): binary64 rounding, the
      infinities and NaN are outside the model.  Equalities between computed
      floats are therefore stated with [==].
    - A Python [int] is a [Z].
    - A Python [str] is a [string] of bytes; [lower], [strip] and the other
      methods act on the ASCII range, bytes above 127 are left alone.
    - A Python exception is a constructor of [exn]; code that may raise
      returns a [result].
    - A [dict] whose iteration order is observed is an association list in
      insertion order ([Py.odict]); a [dict] that is only looked up is a
      [gmap].
    - Mutable lists shared between objects live in a heap of list objects and
      are held by reference. *)

From Stdlib Require Import String Ascii List ZArith QArith Qround Lia Lqa Bool.
From Stdlib Require Import DecimalString.
From Stdlib Require Import Permutation Sorted.
From stdpp Require Import base option list gmap strings.
Import ListNotations.

Local Open Scope string_scope.
Local Open Scope Z_scope.
Local Open Scope Q_scope.

(* ================================================================== *)
(** * The Python runtime used by the services *)
(* ================================================================== *)

Module Py.

(** ** Exceptions *)

Inductive exn : Type :=
| ZeroDivisionError
| ValueError
| AttributeError
| ParseError.

Inductive result (A : Type) : Type :=
| Ok (a : A)
| Raise (e : exn).
Arguments Ok {A} a.
Arguments Raise {A} e.

Definition bind {A B : Type} (m : result A) (k : A -> result B) : result B :=
  match m with
  | Ok a => k a
  | Raise e => Raise e
  end.

Definition is_ok {A : Type} (m : result A) : bool :=
  match m with Ok _ => true | Raise _ => false end.

(** [[f(x) for x in l]], stopping at the first exception. *)
Fixpoint mapM {A B : Type} (f : A -> result B) (l : list A) : result (list B) :=
  match l with
  | [] => Ok []
  | x :: r =>
      bind (f x) (fun y => bind (mapM f r) (fun ys => Ok (y :: ys)))
  end.

(** ** float arithmetic *)

Definition Qlt_bool (a b : Q) : bool := negb (Qle_bool b a).

(** [a / b] *)
Definition truediv (a b : Q) : result Q :=
  if Qeq_bool b 0 then Raise ZeroDivisionError else Ok (a / b).

(** [max(a, b)]: the first argument unless the second is greater. *)
Definition max (a b : Q) : Q := if Qlt_bool a b then b else a.

(** [min(a, b)]: the first argument unless the second is smaller. *)
Definition min (a b : Q) : Q := if Qlt_bool b a then b else a.

(** [abs(a)] *)
Definition abs (a : Q) : Q := if Qlt_bool a 0 then - a else a.

(** Round to the nearest integer, ties to the even one. *)
Definition round_half_even (x : Q) : Z :=
  let f := Qfloor x in
  let r := x - inject_Z f in
  if Qlt_bool r (1 # 2) then f
  else if Qlt_bool (1 # 2) r then (f + 1)%Z
  else if Z.even f then f else (f + 1)%Z.

(** [round(x, ndigits)] for [ndigits >= 0]. *)
Definition round (x : Q) (ndigits : nat) : Q :=
  let p := inject_Z (10 ^ Z.of_nat ndigits) in
  inject_Z (round_half_even (x * p)) / p.

(** ** str *)

(** [str.isspace] on one character of the ASCII range: tab, line feed,
    vertical tab, form feed, carriage return, the four separators
    0x1c..0x1f and the space. *)
Definition isspace (c : ascii) : bool :=
  let n := nat_of_ascii c in
  ((9 <=? n) && (n <=? 13) || (28 <=? n) && (n <=? 32))%nat.

Definition isdigit_ascii (c : ascii) : bool :=
  let n := nat_of_ascii c in ((48 <=? n) && (n <=? 57))%nat.

Definition lower_ascii (c : ascii) : ascii :=
  let n := nat_of_ascii c in
  if ((65 <=? n) && (n <=? 90))%nat then ascii_of_nat (n + 32) else c.

(** [s.lower()] *)
Fixpoint lower (s : string) : string :=
  match s with
  | EmptyString => EmptyString
  | String c r => String (lower_ascii c) (lower r)
  end.

(** [s.startswith(p)] *)
Fixpoint startswith (p s : string) : bool :=
  match p, s with
  | EmptyString, _ => true
  | String a p', String b s' => Ascii.eqb a b && startswith p' s'
  | String _ _, EmptyString => false
  end.

(** [sub in s] *)
Fixpoint contains (sub s : string) : bool :=
  startswith sub s ||
  match s with
  | EmptyString => false
  | String _ r => contains sub r
  end.

(** [s.replace(old, new)] for a non-empty [old]: occurrences are replaced
    from the left and do not overlap.  [skip] counts the characters of an
    occurrence that are still to be dropped. *)
Fixpoint replace_from (old new s : string) (skip : nat) : string :=
  match s with
  | EmptyString => EmptyString
  | String c r =>
      match skip with
      | S k => replace_from old new r k
      | O =>
          if startswith old s
          then new ++ replace_from old new r (String.length old - 1)
          else String c (replace_from old new r 0)
      end
  end.

Definition replace (old new s : string) : string := replace_from old new s 0.

(** Drop the leading characters that satisfy [sp]. *)
Fixpoint lstrip_by (sp : ascii -> bool) (s : string) : string :=
  match s with
  | EmptyString => EmptyString
  | String c r => if sp c then lstrip_by sp r else s
  end.

(** Drop the trailing characters that satisfy [sp]. *)
Fixpoint rstrip_by (sp : ascii -> bool) (s : string) : string :=
  match s with
  | EmptyString => EmptyString
  | String c r =>
      match rstrip_by sp r with
      | EmptyString => if sp c then EmptyString else String c EmptyString
      | r' => String c r'
      end
  end.

(** [s.lstrip()] *)
Definition lstrip (s : string) : string := lstrip_by isspace s.

(** [s.rstrip()] *)
Definition rstrip (s : string) : string := rstrip_by isspace s.

(** [s.strip()] *)
Definition strip (s : string) : string := rstrip (lstrip s).

(** [s.split()]: the maximal runs of non-whitespace characters.  [cur] is
    the run being read, reversed. *)
Fixpoint split_from (s : string) (cur : list ascii) : list string :=
  let flush (k : list string) :=
    match cur with
    | [] => k
    | _ => string_of_list_ascii (rev cur) :: k
    end in
  match s with
  | EmptyString => flush []
  | String c r =>
      if isspace c then flush (split_from r [])
      else split_from r (c :: cur)
  end.

Definition split (s : string) : list string := split_from s [].

(** [s.split(sep)] for a separator of one character: every separator ends
    a field, so there is one field more than there are separators. *)
Fixpoint split_on (sep : ascii) (s : string) : list string :=
  match s with
  | EmptyString => [EmptyString]
  | String c r =>
      match split_on sep r with
      | f :: fs => if Ascii.eqb c sep then EmptyString :: f :: fs
                   else String c f :: fs
      | [] => [String c EmptyString]
      end
  end.

Fixpoint all_digits (s : string) : bool :=
  match s with
  | EmptyString => true
  | String c r => isdigit_ascii c && all_digits r
  end.

(** [s.isdigit()] *)
Definition isdigit (s : string) : bool :=
  match s with
  | EmptyString => false
  | _ => all_digits s
  end.

Definition digit_value (c : ascii) : Z := Z.of_nat (nat_of_ascii c - 48).

Fixpoint digits_value (acc : Z) (ds : list ascii) : Z :=
  match ds with
  | [] => acc
  | d :: r => digits_value (10 * acc + digit_value d) r
  end.

(** [int(s)] where [s.isdigit()] holds, the one case in which the parser
    calls it.  The signs, white space and underscores that [int] accepts
    besides are not modelled. *)
Definition int (s : string) : result Z :=
  if isdigit s then Ok (digits_value 0 (list_ascii_of_string s))
  else Raise ValueError.

(** *** float(s)

    The literal grammar of [float]:
    [[sign] (digitpart ["." [digitpart]] | "." digitpart)
     [("e"|"E") [sign] digitpart]]
    with [digitpart ::= digit (["_"] digit)*], between optional white space.
    The spellings of the infinities and of NaN denote no rational and are
    refused like any other text. *)

(** The rest of a digitpart: digits, each optionally preceded by one
    underscore.  Returns the digits read and the unread input. *)
Fixpoint digitpart_rest (l : list ascii) : list ascii * list ascii :=
  match l with
  | c :: r =>
      if isdigit_ascii c then
        let (ds, u) := digitpart_rest r in (c :: ds, u)
      else if Ascii.eqb c "_" then
        match r with
        | d :: r' =>
            if isdigit_ascii d then
              let (ds, u) := digitpart_rest r' in (d :: ds, u)
            else ([], l)
        | [] => ([], l)
        end
      else ([], l)
  | [] => ([], [])
  end.

Definition digitpart (l : list ascii) : option (list ascii * list ascii) :=
  match l with
  | c :: r =>
      if isdigit_ascii c then
        let (ds, u) := digitpart_rest r in Some (c :: ds, u)
      else None
  | [] => None
  end.

Definition sign (l : list ascii) : bool * list ascii :=
  match l with
  | c :: r =>
      if Ascii.eqb c "-" then (true, r)
      else if Ascii.eqb c "+" then (false, r)
      else (false, l)
  | [] => (false, [])
  end.

(** [number]: integer digits, fraction digits and the unread input. *)
Definition number (l : list ascii)
  : option (list ascii * list ascii * list ascii) :=
  match digitpart l with
  | Some (ip, u) =>
      match u with
      | c :: u' =>
          if Ascii.eqb c "." then
            match digitpart u' with
            | Some (fp, u'') => Some (ip, fp, u'')
            | None => Some (ip, [], u')
            end
          else Some (ip, [], u)
      | [] => Some (ip, [], [])
      end
  | None =>
      match l with
      | c :: u' =>
          if Ascii.eqb c "." then
            match digitpart u' with
            | Some (fp, u'') => Some ([], fp, u'')
            | None => None
            end
          else None
      | [] => None
      end
  end.

(** [exponent]: the power of ten, [0] when there is no exponent part. *)
Definition exponent (l : list ascii) : option (Z * list ascii) :=
  match l with
  | c :: r =>
      if Ascii.eqb c "e" || Ascii.eqb c "E" then
        let (neg, r') := sign r in
        match digitpart r' with
        | Some (ds, u) =>
            let e := digits_value 0 ds in
            Some (if neg then (- e)%Z else e, u)
        | None => None
        end
      else Some (0%Z, l)
  | [] => Some (0%Z, [])
  end.

(** The white space [float] skips around the literal: the C [isspace]
    set, which lacks the four separators 0x1c..0x1f of [str.isspace]. *)
Definition isspace_c (c : ascii) : bool :=
  let n := nat_of_ascii c in
  ((9 <=? n) && (n <=? 13) || (n =? 32))%nat.

Definition float (s : string) : result Q :=
  let s := rstrip_by isspace_c (lstrip_by isspace_c s) in
  let (neg, l) := sign (list_ascii_of_string s) in
  match number l with
  | Some (ip, fp, u) =>
      match exponent u with
      | Some (e, []) =>
          let mant :=
            inject_Z (digits_value 0 (ip ++ fp))
            / inject_Z (10 ^ Z.of_nat (List.length fp)) in
          let v := mant * Qpower 10 e in
          Ok (if neg then - v else v)
      | _ => Raise ValueError
      end
  | None => Raise ValueError
  end.

(** [f'{x:.1f}'] *)
Definition format_1f (x : Q) : string :=
  let n := round_half_even (abs x * 10) in
  (if Qlt_bool x 0 then "-" else "")
  ++ NilZero.string_of_uint (N.to_uint (Z.to_N (n / 10)))
  ++ "." ++ NilZero.string_of_uint (N.to_uint (Z.to_N (n mod 10))).

(** *** re.search(rf'{field_name}\s*:\s*([^\n]+)', text, re.IGNORECASE)

    The one pattern the parser uses, for a [field_name] without regular
    expression operators. *)

(** The literal [p], letters matched without regard to case, at the start
    of [s]: the text after it. *)
Fixpoint match_ignorecase (p s : string) : option string :=
  match p, s with
  | EmptyString, _ => Some s
  | String a p', String b s' =>
      if Ascii.eqb (lower_ascii a) (lower_ascii b)
      then match_ignorecase p' s' else None
  | String _ _, EmptyString => None
  end.

Definition newline : ascii := ascii_of_nat 10.

(** [[^\n]+], greedy: the text up to the next line feed. *)
Fixpoint line (s : string) : string :=
  match s with
  | EmptyString => EmptyString
  | String c r => if Ascii.eqb c newline then EmptyString else String c (line r)
  end.

(** [\s*([^\n]+)]: the star takes as much white space as it can and gives
    characters back, one at a time, while the group has nothing to start
    with.  The group can start at any character but a line feed. *)
Fixpoint spaces_then_line (s : string) : option string :=
  match s with
  | EmptyString => None
  | String c r =>
      if isspace c then
        match spaces_then_line r with
        | Some g => Some g
        | None => if Ascii.eqb c newline then None else Some (line s)
        end
      else Some (line s)
  end.

(** A match that starts at the first character of [s]: its group 1. *)
Definition field_match_here (field_name s : string) : option string :=
  match match_ignorecase field_name s with
  | Some r =>
      match lstrip r with
      | String c r' =>
          if Ascii.eqb c ":" then spaces_then_line r' else None
      | EmptyString => None
      end
  | None => None
  end.

(** Group 1 of the leftmost match, [None] when there is no match. *)
Fixpoint field_search (field_name s : string) : option string :=
  match field_match_here field_name s with
  | Some g => Some g
  | None =>
      match s with
      | EmptyString => None
      | String _ r => field_search field_name r
      end
  end.

(** ** dict, in insertion order *)

Definition odict (V : Type) : Type := list (string * V).

(** [d[k] = v]: a known key keeps its place, a new key goes last. *)
Fixpoint odict_set {V : Type} (d : odict V) (k : string) (v : V) : odict V :=
  match d with
  | [] => [(k, v)]
  | (k', v') :: r =>
      if String.eqb k k' then (k', v) :: r else (k', v') :: odict_set r k v
  end.

(** [d.get(k)] *)
Fixpoint odict_get {V : Type} (d : odict V) (k : string) : option V :=
  match d with
  | [] => None
  | (k', v') :: r => if String.eqb k k' then Some v' else odict_get r k
  end.

(** [k in d] *)
Definition odict_contains {V : Type} (d : odict V) (k : string) : bool :=
  match odict_get d k with Some _ => true | None => false end.

Definition odict_keys {V : Type} (d : odict V) : list string := map fst d.

(** [{key(x): x for x in l}] *)
Definition odict_of_list {V : Type} (key : V -> string) (l : list V)
  : odict V :=
  fold_left (fun d x => odict_set d (key x) x) l [].

(** ** list.sort(key=...)

    The sort is stable: elements with equal keys keep their order.  It is
    modelled by an insertion sort, the rightmost element inserted first. *)

Fixpoint sort_insert {A : Type} (key : A -> nat) (x : A) (l : list A)
  : list A :=
  match l with
  | [] => [x]
  | y :: r =>
      if (key x <=? key y)%nat then x :: y :: r
      else y :: sort_insert key x r
  end.

Fixpoint sort {A : Type} (key : A -> nat) (l : list A) : list A :=
  match l with
  | [] => []
  | x :: r => sort_insert key x (sort key r)
  end.

(** ** int

    [int(s)] for an arbitrary string: [[sign] digitpart] between optional
    white space, the white space being that of [float]. *)
Definition int_literal (s : string) : result Z :=
  let s := rstrip_by isspace_c (lstrip_by isspace_c s) in
  let (neg, l) := sign (list_ascii_of_string s) in
  match digitpart l with
  | Some (ds, []) =>
      let n := digits_value 0 ds in Ok (if neg then (- n)%Z else n)
  | _ => Raise ValueError
  end.



End Py.

Declare Scope py_scope.
Delimit Scope py_scope with py.
Notation "'let*' x ':=' m 'in' k" :=
  (Py.bind m (fun x => k))
  (at level 10, x name, m at level 100, k at level 200) : py_scope.
Local Open Scope py_scope.

(* ================================================================== *)
(** * xml.etree.ElementTree, as far as the parser uses it *)
(* ================================================================== *)

Module ET.
Import Py.

#[local] Unset Elimination Schemes.

(** An element: its qualified tag, its text ([None] for an element without
    character data) and its children in document order. *)
Inductive Element : Type :=
| Elem (tag : string) (text : option string) (children : list Element).

#[local] Set Elimination Schemes.

Definition tag (e : Element) : string :=
  match e with Elem t _ _ => t end.

Definition text (e : Element) : option string :=
  match e with Elem _ x _ => x end.

Definition children (e : Element) : list Element :=
  match e with Elem _ _ cs => cs end.

(** [e.iter()]: the element and everything below it, in document order. *)
Fixpoint iter (e : Element) : list Element :=
  match e with
  | Elem _ _ cs =>
      e :: (fix iter_all (l : list Element) : list Element :=
              match l with
              | [] => []
              | c :: r => (iter c ++ iter_all r)%list
              end) cs
  end.

(** The path [.//t]: every element below [e] with tag [t]. *)
Definition findall_descendants (t : string) (e : Element) : list Element :=
  List.filter (fun d => String.eqb (tag d) t) (List.tl (iter e)).

(** The path [.//p/t]: the children tagged [t] of the elements of [.//p]. *)
Definition findall_descendants_child (p t : string) (e : Element)
  : list Element :=
  flat_map (fun d => List.filter (fun c => String.eqb (tag c) t) (children d))
           (findall_descendants p e).

(** [e.find('t')]: the first child with tag [t]. *)
Definition find_child (t : string) (e : Element) : option Element :=
  List.find (fun c => String.eqb (tag c) t) (children e).

(** [e.find('.//p/t')] *)
Definition find_descendants_child (p t : string) (e : Element)
  : option Element :=
  List.hd_error (findall_descendants_child p t e).

(** What [ET.parse(file_path)] makes of a file: the parser refuses it, or
    there is a root element. *)
Inductive document : Type :=
| Malformed
| WellFormed (root : Element).

(** [ET.parse(file_path).getroot()] *)
Definition parse (d : document) : result Element :=
  match d with
  | Malformed => Raise ParseError
  | WellFormed root => Ok root
  end.

End ET.

(* ================================================================== *)
(** * services/kml_parser.py *)
(* ================================================================== *)

Module kml_parser.
Import Py.

Record Coordinate : Type := {
  longitude : Q;
  latitude : Q;
  altitude : Q
}.

Module Pole.
Record t : Type := {
  name : string;
  designator : string;
  construction_status : string;
  material_type : string;
  usage : string;
  coordinates : Coordinate
}.
End Pole.

Module ODP.
Record t : Type := {
  name : string;
  specification : string;
  splice_type : string;
  construction_status : string;
  coordinates : Coordinate
}.
End ODP.

Module Cable.
Record t : Type := {
  name : string;
  specification : string;
  number_of_cores : Z;
  fiber_length : Q;  (* meters *)
  construction_status : string;
  coordinates : list Coordinate  (* LineString *)
}.
End Cable.

(** The three-key dictionaries of [raw_placemarks]. *)
Module RawPlacemark.
Record t : Type := {
  name : string;
  description : string;
  type : string
}.
End RawPlacemark.

(** ** The heap of list objects

    A parser creates its four lists once, in [__init__], and only ever
    appends to them; the [NetworkData] it returns holds the same four list
    objects.  A list object is a cell of the heap and is named by its
    index. *)

Inductive pylist : Type :=
| PoleList (l : list Pole.t)
| ODPList (l : list ODP.t)
| CableList (l : list Cable.t)
| RawList (l : list RawPlacemark.t).

Definition ref : Type := nat.
Definition heap : Type := list pylist.

Definition alloc (o : pylist) (h : heap) : heap * ref :=
  ((h ++ [o])%list, List.length h).

Definition get_poles (h : heap) (r : ref) : list Pole.t :=
  match h !! r with Some (PoleList l) => l | _ => [] end.
Definition get_odps (h : heap) (r : ref) : list ODP.t :=
  match h !! r with Some (ODPList l) => l | _ => [] end.
Definition get_cables (h : heap) (r : ref) : list Cable.t :=
  match h !! r with Some (CableList l) => l | _ => [] end.
Definition get_raw (h : heap) (r : ref) : list RawPlacemark.t :=
  match h !! r with Some (RawList l) => l | _ => [] end.

(** [l.append(x)], one definition per element type. *)
Definition append_pole (r : ref) (x : Pole.t) (h : heap) : heap :=
  match h !! r with
  | Some (PoleList l) => <[r := PoleList (l ++ [x])]> h
  | _ => h
  end.
Definition append_odp (r : ref) (x : ODP.t) (h : heap) : heap :=
  match h !! r with
  | Some (ODPList l) => <[r := ODPList (l ++ [x])]> h
  | _ => h
  end.
Definition append_cable (r : ref) (x : Cable.t) (h : heap) : heap :=
  match h !! r with
  | Some (CableList l) => <[r := CableList (l ++ [x])]> h
  | _ => h
  end.
Definition append_raw (r : ref) (x : RawPlacemark.t) (h : heap) : heap :=
  match h !! r with
  | Some (RawList l) => <[r := RawList (l ++ [x])]> h
  | _ => h
  end.

(** Code that works on the heap and may raise.  A raised exception leaves
    the heap as it was when it was raised. *)
Definition M (A : Type) : Type := heap -> heap * result A.

Definition ret {A : Type} (a : A) : M A := fun h => (h, Ok a).

Definition mbind {A B : Type} (m : M A) (k : A -> M B) : M B :=
  fun h =>
    match m h with
    | (h', Ok a) => k a h'
    | (h', Raise e) => (h', Raise e)
    end.

Definition lift {A : Type} (r : result A) : M A := fun h => (h, r).

Definition update (f : heap -> heap) : M unit := fun h => (f h, Ok tt).

(** [try: m  except Exception: handler] *)
Definition try_except {A : Type} (m : M A) (handler : exn -> M A) : M A :=
  fun h =>
    match m h with
    | (h', Ok a) => (h', Ok a)
    | (h', Raise e) => handler e h'
    end.

(** [for x in l: body(x)] *)
Fixpoint for_each {A : Type} (l : list A) (body : A -> M unit) : M unit :=
  match l with
  | [] => ret tt
  | x :: r => mbind (body x) (fun _ => for_each r body)
  end.

Record NetworkData : Type := {
  poles : ref;
  odps : ref;
  cables : ref;
  raw_placemarks : ref
}.

(** The instance attributes of a [KMLParser]. *)
Record KMLParser : Type := {
  self_poles : ref;
  self_odps : ref;
  self_cables : ref;
  self_raw_placemarks : ref
}.

(** [KMLParser()] *)
Definition __init__ : M KMLParser := fun h =>
  let (h1, p) := alloc (PoleList []) h in
  let (h2, o) := alloc (ODPList []) h1 in
  let (h3, c) := alloc (CableList []) h2 in
  let (h4, r) := alloc (RawList []) h3 in
  (h4, Ok {| self_poles := p; self_odps := o; self_cables := c;
             self_raw_placemarks := r |}).

(** The [kml] entry of [NS], applied to a local name. *)
Definition kml (local : string) : string :=
  "{http://www.opengis.net/kml/2.2}" ++ local.

Definition any_indicator (indicators : list string) (name description : string)
  : bool :=
  let name_lower := lower name in
  let desc_lower := lower description in
  existsb (fun ind => contains ind name_lower || contains ind desc_lower)
          indicators.

Definition _is_pole (name description : string) : bool :=
  any_indicator ["tiang"; "pole"; "PU-"; "designator:pu"] name description.

Definition _is_odp (name description : string) : bool :=
  any_indicator ["odp"; "optical distribution"; "splice"] name description.

Definition _is_cable (name description : string) : bool :=
  any_indicator ["cable"; "kabel"; "fiber length"; "number of core"; "adss"]
                name description.

Definition _determine_type (name description : string) : string :=
  if _is_pole name description then "pole"
  else if _is_odp name description then "odp"
  else if _is_cable name description then "cable"
  else "unknown".

(** One item of the coordinate text: a coordinate, nothing when it has
    fewer than two components, [ValueError] when a component is no float. *)
Definition coordinate_of_part (part : string) : result (list Coordinate) :=
  match split_on "," part with
  | v0 :: v1 :: rest =>
      let* lon := float v0 in
      let* lat := float v1 in
      let* alt := match rest with v2 :: _ => float v2 | [] => Ok 0.0 end in
      Ok [{| longitude := lon; latitude := lat; altitude := alt |}]
  | _ => Ok []
  end.

Definition _parse_coordinates (coord_text : option string) : list Coordinate :=
  match coord_text with
  | None | Some EmptyString => []
  | Some coord_text =>
      flat_map (fun part =>
                  match coordinate_of_part part with
                  | Ok c => c
                  | Raise _ => []  (* except (ValueError, IndexError) *)
                  end)
               (split (strip coord_text))
  end.

Definition _extract_field (description field_name : string) : option string :=
  match field_search field_name description with
  | Some group1 => Some (strip group1)
  | None => None
  end.

Definition _parse_length (length_str : string) : Q :=
  let attempt : result Q :=
    let length_str :=
      strip (replace "m" "" (replace "meter" "" (lower length_str))) in
    if contains "km" length_str then
      let length_str := strip (replace "km" "" length_str) in
      let* x := float length_str in Ok (x * 1000)
    else float length_str in
  match attempt with
  | Ok x => x
  | Raise _ => 0.0
  end.

(** [value or default] for an optional string: [None] and the empty string
    are false. *)
Definition str_or (value : option string) (default : string) : string :=
  match value with
  | None | Some EmptyString => default
  | Some s => s
  end.

Definition _parse_pole (placemark : ET.Element) (name description : string)
  : option Pole.t :=
  match ET.find_descendants_child (kml "Point") (kml "coordinates")
                                  placemark with
  | None => None
  | Some point =>
      match _parse_coordinates (ET.text point) with
      | [] => None
      | coords0 :: _ =>
          let designator := _extract_field description "Designator" in
          let construction_status :=
            _extract_field description "Construction Status" in
          let material_type := _extract_field description "Material Type" in
          let usage := _extract_field description "Usage" in
          Some {| Pole.name := name;
                  Pole.designator := str_or designator name;
                  Pole.construction_status :=
                    str_or construction_status "Unknown";
                  Pole.material_type := str_or material_type "Unknown";
                  Pole.usage := str_or usage "Telco";
                  Pole.coordinates := coords0 |}
      end
  end.

Definition _parse_odp (placemark : ET.Element) (name description : string)
  : option ODP.t :=
  match ET.find_descendants_child (kml "Point") (kml "coordinates")
                                  placemark with
  | None => None
  | Some point =>
      match _parse_coordinates (ET.text point) with
      | [] => None
      | coords0 :: _ =>
          let specification := _extract_field description "Specification ID" in
          let splice_type := _extract_field description "Splice Type" in
          let construction_status :=
            _extract_field description "Construction Status" in
          Some {| ODP.name := name;
                  ODP.specification := str_or specification "Unknown";
                  ODP.splice_type := str_or splice_type "Unknown";
                  ODP.construction_status :=
                    str_or construction_status "Unknown";
                  ODP.coordinates := coords0 |}
      end
  end.

Definition _parse_cable (placemark : ET.Element) (name description : string)
  : option Cable.t :=
  match ET.find_descendants_child (kml "LineString") (kml "coordinates")
                                  placemark with
  | None => None
  | Some linestring =>
      match _parse_coordinates (ET.text linestring) with
      | [] => None
      | coords =>
          let specification := _extract_field description "Specification" in
          let cores_str := _extract_field description "Number of Core" in
          let length_str := _extract_field description "Fiber Length" in
          let construction_status :=
            _extract_field description "Construction Status" in
          let cores :=
            match cores_str with
            | Some s =>
                if isdigit s then
                  match int s with Ok n => n | Raise _ => 0%Z end
                else 0%Z
            | None => 0%Z
            end in
          let length :=
            match length_str with
            | None | Some EmptyString => 0.0
            | Some s => _parse_length s
            end in
          Some {| Cable.name := name;
                  Cable.specification := str_or specification "Unknown";
                  Cable.number_of_cores := cores;
                  Cable.fiber_length := length;
                  Cable.construction_status :=
                    str_or construction_status "Unknown";
                  Cable.coordinates := coords |}
      end
  end.

(** The [text] of the first child with the given tag, [default] when there
    is no such child.  The text itself may be [None]. *)
Definition child_text (t : string) (default : string) (e : ET.Element)
  : option string :=
  match ET.find_child t e with
  | Some c => ET.text c
  | None => Some default
  end.

(** The body of the [try] of [_parse_placemark].  [name.lower()], in
    [_is_pole], is the first use of the two texts: when one of them is [None]
    it raises [AttributeError] before anything is appended. *)
Definition _parse_placemark_body (self : KMLParser) (placemark : ET.Element)
  : M unit :=
  match child_text (kml "name") "Unknown" placemark,
        child_text (kml "description") "" placemark with
  | Some name, Some description =>
      mbind
        (if _is_pole name description then
           match _parse_pole placemark name description with
           | Some pole => update (append_pole (self_poles self) pole)
           | None => ret tt
           end
         else if _is_odp name description then
           match _parse_odp placemark name description with
           | Some odp => update (append_odp (self_odps self) odp)
           | None => ret tt
           end
         else if _is_cable name description then
           match _parse_cable placemark name description with
           | Some cable => update (append_cable (self_cables self) cable)
           | None => ret tt
           end
         else ret tt)
        (fun _ =>
           update (append_raw (self_raw_placemarks self)
                     {| RawPlacemark.name := name;
                        RawPlacemark.description := description;
                        RawPlacemark.type :=
                          _determine_type name description |}))
  | _, _ => lift (Raise AttributeError)
  end.

Definition _parse_placemark (self : KMLParser) (placemark : ET.Element)
  : M unit :=
  try_except (_parse_placemark_body self placemark)
             (fun _ => ret tt).  (* logger.warning *)

Definition parse_file (self : KMLParser) (file : ET.document) : M NetworkData :=
  try_except
    (mbind (lift (ET.parse file)) (fun root =>
     let placemarks := ET.findall_descendants (kml "Placemark") root in
     mbind (for_each placemarks (_parse_placemark self)) (fun _ =>
     ret {| poles := self_poles self;
            odps := self_odps self;
            cables := self_cables self;
            raw_placemarks := self_raw_placemarks self |})))
    (fun e => lift (Raise e)).  (* logger.error; raise *)





End kml_parser.

(* ================================================================== *)
(** * services/csv_parser.py *)
(* ================================================================== *)

(** The parser from the point where [csv.DictReader] has read the file:
    a row is a dictionary from the header names to the cells, a cell being
    [None] where the row is shorter than the header. *)
Module csv_parser.
Import Py.

Module OPMMeasurement.
Record t : Type := {
  cable_id : string;
  segment_name : string;
  measurement_date : option string;
  tx_power_dbm : Q;
  rx_power_dbm : Q;
  loss_db : Q;
  length_km : Q;
  wavelength_nm : Z;
  status : string;
  remarks : option string;
  measured_by : option string
}.
End OPMMeasurement.

Module ATPMeasurement.
Record t : Type := {
  odp_id : string;
  test_date : option string;
  optical_loss_db : Q;
  reflectance_db : option Q;
  test_result : string;
  fiber_core : Z;
  remarks : option string
}.
End ATPMeasurement.

(** A row of [csv.DictReader]. *)
Definition row : Type := gmap string (option string).

(** [_get_value(row, possible_keys, default)] *)
Fixpoint _get_value (r : row) (possible_keys : list string) (default : string)
  : string :=
  match possible_keys with
  | [] => default
  | key :: keys =>
      match r !! key with
      | Some (Some (String c v)) => strip (String c v)
      | _ => _get_value r keys default
      end
  end.

(** [_parse_float(value)] *)
Definition _parse_float (value : string) : option Q :=
  match value with
  | EmptyString => None
  | _ => match float value with Ok x => Some x | Raise _ => None end
  end.

(** The measurement of one row of [parse_opm_csv], or the exception that
    makes the loop skip the row. *)
Definition opm_of_row (r : row) : result OPMMeasurement.t :=
  let cable_id :=
    _get_value r ["Cable ID"; "CableID"; "Cable_ID"; "cable_id"] "" in
  let segment_name := _get_value r ["Segment"; "Segment Name"; "segment"] "" in
  let measurement_date :=
    _get_value r ["Date"; "Measurement Date"; "date"] "" in
  let* tx_power_dbm :=
    float (_get_value r ["Tx Power (dBm)"; "Tx Power"; "tx_power"] "0") in
  let* rx_power_dbm :=
    float (_get_value r ["Rx Power (dBm)"; "Rx Power"; "rx_power"] "0") in
  let* loss_db := float (_get_value r ["Loss (dB)"; "Loss"; "loss"] "0") in
  let* length_km :=
    float (_get_value r ["Length (km)"; "Length"; "length"] "0") in
  let* wavelength_nm :=
    int_literal
      (_get_value r ["Wavelength (nm)"; "Wavelength"; "wavelength"] "1550") in
  let status := _get_value r ["Status"; "Test Status"; "status"] "Unknown" in
  let remarks := _get_value r ["Remarks"; "Notes"; "remarks"] "" in
  let measured_by :=
    _get_value r ["Measured By"; "Technician"; "measured_by"] "" in
  Ok {| OPMMeasurement.cable_id := cable_id;
        OPMMeasurement.segment_name := segment_name;
        OPMMeasurement.measurement_date := Some measurement_date;
        OPMMeasurement.tx_power_dbm := tx_power_dbm;
        OPMMeasurement.rx_power_dbm := rx_power_dbm;
        OPMMeasurement.loss_db := loss_db;
        OPMMeasurement.length_km := length_km;
        OPMMeasurement.wavelength_nm := wavelength_nm;
        OPMMeasurement.status := status;
        OPMMeasurement.remarks := Some remarks;
        OPMMeasurement.measured_by := Some measured_by |}.

(** [parse_opm_csv], on the rows of the file. *)
Fixpoint parse_opm_csv (rows : list row) : list OPMMeasurement.t :=
  match rows with
  | [] => []
  | r :: rest =>
      match opm_of_row r with
      | Ok measurement => measurement :: parse_opm_csv rest
      | Raise _ => parse_opm_csv rest  (* except (ValueError, KeyError) *)
      end
  end.

Definition atp_of_row (r : row) : result ATPMeasurement.t :=
  let odp_id := _get_value r ["ODP ID"; "ODP_ID"; "odp_id"] "" in
  let test_date := _get_value r ["Test Date"; "Date"; "test_date"] "" in
  let* optical_loss_db :=
    float (_get_value r ["Optical Loss (dB)"; "Loss"; "optical_loss"] "0") in
  let reflectance_db :=
    _parse_float
      (_get_value r ["Reflectance (dB)"; "Reflectance"; "reflectance"] "") in
  let test_result :=
    _get_value r ["Test Result"; "Result"; "test_result"] "Unknown" in
  let* fiber_core :=
    int_literal (_get_value r ["Fiber Core"; "Core"; "fiber_core"] "1") in
  let remarks := _get_value r ["Remarks"; "Notes"; "remarks"] "" in
  Ok {| ATPMeasurement.odp_id := odp_id;
        ATPMeasurement.test_date := Some test_date;
        ATPMeasurement.optical_loss_db := optical_loss_db;
        ATPMeasurement.reflectance_db := reflectance_db;
        ATPMeasurement.test_result := test_result;
        ATPMeasurement.fiber_core := fiber_core;
        ATPMeasurement.remarks := Some remarks |}.

(** [parse_atp_csv], on the rows of the file. *)
Fixpoint parse_atp_csv (rows : list row) : list ATPMeasurement.t :=
  match rows with
  | [] => []
  | r :: rest =>
      match atp_of_row r with
      | Ok measurement => measurement :: parse_atp_csv rest
      | Raise _ => parse_atp_csv rest  (* except (ValueError, KeyError) *)
      end
  end.

(** The summary dictionary of a non-empty list of measurements. *)
Module OPMSummary.
Record t : Type := {
  total_measurements : Z;
  passed : Z;
  failed : Z;
  warning : Z;
  pass_rate : Q;
  average_loss_db : Q;
  average_length_km : Q;
  total_length_km : Q
}.
End OPMSummary.

(** [sum(1 for m in measurements if m.status.lower() == s)] *)
Definition count_opm_status (s : string)
    (measurements : list OPMMeasurement.t) : Z :=
  Z.of_nat
    (List.length
       (List.filter
          (fun m => String.eqb (lower (OPMMeasurement.status m)) s)
          measurements)).

(** [sum(f(m) for m in measurements)] *)
Definition sum_opm (f : OPMMeasurement.t -> Q)
    (measurements : list OPMMeasurement.t) : Q :=
  fold_left (fun acc m => acc + f m) measurements 0.

Definition get_summary (measurements : list OPMMeasurement.t)
  : result (option OPMSummary.t) :=
  match measurements with
  | [] => Ok None
  | _ =>
      let total := Z.of_nat (List.length measurements) in
      let passed := count_opm_status "pass" measurements in
      let failed := count_opm_status "fail" measurements in
      let warning := count_opm_status "warning" measurements in
      let* avg_loss :=
        truediv (sum_opm OPMMeasurement.loss_db measurements)
                (inject_Z total) in
      let* avg_length :=
        truediv (sum_opm OPMMeasurement.length_km measurements)
                (inject_Z total) in
      let* pass_rate :=
        if (0 <? total)%Z then
          let* q := truediv (inject_Z passed) (inject_Z total) in
          Ok (round (q * 100) 2)
        else Ok 0 in
      Ok (Some {| OPMSummary.total_measurements := total;
                  OPMSummary.passed := passed;
                  OPMSummary.failed := failed;
                  OPMSummary.warning := warning;
                  OPMSummary.pass_rate := pass_rate;
                  OPMSummary.average_loss_db := round avg_loss 2;
                  OPMSummary.average_length_km := round avg_length 2;
                  OPMSummary.total_length_km :=
                    round (sum_opm OPMMeasurement.length_km measurements)
                          2 |})
  end.

End csv_parser.

(* ================================================================== *)
(** * services/opm_calculator.py *)
(* ================================================================== *)

Module opm_calculator.
Import Py.

Inductive WavelengthType : Type := NM_1310 | NM_1550.

Definition WavelengthType_value (w : WavelengthType) : string :=
  match w with NM_1310 => "1310nm" | NM_1550 => "1550nm" end.

Inductive FiberType : Type := SINGLE_MODE | MULTI_MODE.

Definition FiberType_value (f : FiberType) : string :=
  match f with SINGLE_MODE => "single_mode" | MULTI_MODE => "multi_mode" end.

Record OpticalParameters : Type := {
  tx_power : Q;
  rx_sensitivity : Q;
  wavelength : WavelengthType;
  fiber_type : FiberType
}.

Record NetworkSegment : Type := {
  fiber_length_km : Q;
  splice_count : Z;
  connector_count : Z;
  name : string
}.

Record LossParameters : Type := {
  fiber_loss_per_km : Q;
  splice_loss : Q;
  connector_loss : Q;
  safety_margin : Q
}.

(** The dataclass defaults of [LossParameters]. *)
Definition LossParameters_default : LossParameters :=
  {| fiber_loss_per_km := 0.35;
     splice_loss := 0.1;
     connector_loss := 0.5;
     safety_margin := 3.0 |}.

(** The [details] dictionary of a result, key by key. *)
Record OpticalDetails : Type := {
  tx_power_dbm : Q;
  rx_sensitivity_dbm : Q;
  wavelength_value : string;
  fiber_type_value : string
}.

Record LossBreakdown : Type := {
  fiber_loss_db : Q;
  splice_loss_db : Q;
  connector_loss_db : Q;
  total_loss_db : Q
}.

Record SegmentDetails : Type := {
  sd_fiber_length_km : Q;
  sd_fiber_length_m : Q;
  sd_splice_count : Z;
  sd_connector_count : Z
}.

Record Details : Type := {
  segment_name : string;
  optical_params : OpticalDetails;
  loss_breakdown : LossBreakdown;
  segment_details : SegmentDetails;
  safety_margin_db : Q;
  loss_per_km_db : Q
}.

Record CalculationResult : Type := {
  power_budget : Q;
  total_loss : Q;
  available_margin : Q;
  status : string;
  quality_score : Q;
  details : Details
}.

Definition _determine_status (available_margin : Q) : string :=
  if Qle_bool 3.0 available_margin then "OK"
  else if Qle_bool 0 available_margin then "Warning"
  else "Critical".

Definition _calculate_quality_score
    (power_budget total_loss available_margin : Q) : result Q :=
  if Qle_bool power_budget 0 then Ok 0.0
  else
    let* ratio := truediv total_loss power_budget in
    let loss_efficiency := max 0 (1 - ratio) * 40 in
    let* tenth := truediv available_margin 10 in
    let margin_adequacy := min 60 (max 0 (tenth * 60)) in
    let total_score := loss_efficiency + margin_adequacy in
    Ok (max 0 (min 100 total_score)).

Definition calculate_power_budget
    (optical_params : OpticalParameters) (loss_params : LossParameters)
    (segment : NetworkSegment) : result CalculationResult :=
  let power_budget := tx_power optical_params - rx_sensitivity optical_params in
  let fiber_loss := fiber_length_km segment * fiber_loss_per_km loss_params in
  let splice_loss :=
    inject_Z (splice_count segment) * splice_loss loss_params in
  let connector_loss :=
    inject_Z (connector_count segment) * connector_loss loss_params in
  let total_loss := fiber_loss + splice_loss + connector_loss in
  let available_margin :=
    power_budget - total_loss - safety_margin loss_params in
  let status := _determine_status available_margin in
  let* quality_score :=
    _calculate_quality_score power_budget total_loss available_margin in
  let details :=
    {| segment_name := name segment;
       optical_params :=
         {| tx_power_dbm := tx_power optical_params;
            rx_sensitivity_dbm := rx_sensitivity optical_params;
            wavelength_value :=
              WavelengthType_value (wavelength optical_params);
            fiber_type_value := FiberType_value (fiber_type optical_params) |};
       loss_breakdown :=
         {| fiber_loss_db := round fiber_loss 2;
            splice_loss_db := round splice_loss 2;
            connector_loss_db := round connector_loss 2;
            total_loss_db := round total_loss 2 |};
       segment_details :=
         {| sd_fiber_length_km := fiber_length_km segment;
            sd_fiber_length_m := fiber_length_km segment * 1000;
            sd_splice_count := splice_count segment;
            sd_connector_count := connector_count segment |};
       safety_margin_db := safety_margin loss_params;
       loss_per_km_db := fiber_loss_per_km loss_params |} in
  Ok {| power_budget := round power_budget 2;
        total_loss := round total_loss 2;
        available_margin := round available_margin 2;
        status := status;
        quality_score := round quality_score 2;
        details := details |}.

Definition calculate_max_distance
    (optical_params : OpticalParameters) (loss_params : LossParameters)
    (splice_count connector_count : Z) : result Q :=
  let power_budget := tx_power optical_params - rx_sensitivity optical_params in
  let available_for_fiber :=
    power_budget
    - inject_Z splice_count * splice_loss loss_params
    - inject_Z connector_count * connector_loss loss_params
    - safety_margin loss_params in
  let* max_distance_km :=
    truediv available_for_fiber (fiber_loss_per_km loss_params) in
  Ok (max 0 max_distance_km).

Definition calculate_required_tx_power
    (rx_sensitivity : Q) (segment : NetworkSegment)
    (loss_params : LossParameters) : result Q :=
  let fiber_loss := fiber_length_km segment * fiber_loss_per_km loss_params in
  let splice_loss :=
    inject_Z (splice_count segment) * splice_loss loss_params in
  let connector_loss :=
    inject_Z (connector_count segment) * connector_loss loss_params in
  let total_loss := fiber_loss + splice_loss + connector_loss in
  let required_tx := rx_sensitivity + total_loss + safety_margin loss_params in
  Ok (round required_tx 2).

Fixpoint analyze_multiple_segments
    (optical_params : OpticalParameters) (loss_params : LossParameters)
    (segments : list NetworkSegment) : result (list CalculationResult) :=
  match segments with
  | [] => Ok []
  | segment :: rest =>
      let* r := calculate_power_budget optical_params loss_params segment in
      let* rs := analyze_multiple_segments optical_params loss_params rest in
      Ok (r :: rs)
  end.

Definition get_recommendations (result : CalculationResult) : list string :=
  let recommendations :=
    if String.eqb (status result) "Critical" then
      ["⚠️ CRITICAL: Link margin is negative. Connection may fail.";
       "➡️ Reduce fiber length or increase transmit power";
       "➡️ Minimize splice and connector count";
       "➡️ Use lower loss fiber (e.g., G.657.A2)"]
    else if String.eqb (status result) "Warning" then
      ["⚠️ WARNING: Link margin is below recommended threshold";
       "➡️ Consider adding optical amplifiers for long distances";
       "➡️ Ensure high-quality splices (< 0.05 dB)";
       "➡️ Regular maintenance to prevent degradation"]
    else ["✅ Link quality is good"] in
  (* Additional recommendations based on details *)
  let fiber_loss := fiber_loss_db (loss_breakdown (details result)) in
  let splice_loss := splice_loss_db (loss_breakdown (details result)) in
  (recommendations
   ++ (if Qlt_bool (fiber_loss * 0.3) splice_loss then
         ["➡️ Splice loss is significant. Consider reducing splice count"]
       else [])
   ++ (if Qlt_bool (quality_score result) 70 then
         ["➡️ Consider route optimization to improve quality score"]
       else []))%list.

End opm_calculator.

(* ================================================================== *)
(** * services/comparison_service.py *)
(* ================================================================== *)

Module comparison_service.
Import Py.
Import csv_parser.

(** A cable as the comparator receives it: a dictionary.  ['name'] is read
    by subscript, the other keys with [get] and a default. *)
Record CableDict : Type := {
  name : string;
  fiber_length_km : option Q;
  construction_status : option string;
  specification : option string
}.

(** [planned_data] and [built_data]: dictionaries read with
    [get('cables', [])]. *)
Record NetworkDict : Type := {
  cables : option (list CableDict)
}.

Record ComparisonResult : Type := {
  cable_id : string;
  planned_length_km : Q;
  built_length_km : Q;
  length_variance_km : Q;
  length_variance_pct : Q;
  planned_status : string;
  built_status : string;
  status_match : bool;
  planned_loss_db : option Q;
  measured_loss_db : option Q;
  loss_variance_db : option Q;
  compliance_status : string;
  remarks : list string
}.

(** An entry of the discrepancy list. *)
Module Discrepancy.
Record t : Type := {
  cable_id : string;
  severity : string;
  length_variance_pct : Q;
  remarks : list string
}.
End Discrepancy.

(** The summary dictionary of a non-empty comparison. *)
Module Summary.
Record t : Type := {
  total_cables : Z;
  compliant : Z;
  minor_deviations : Z;
  major_deviations : Z;
  compliance_rate : Q;
  total_planned_length_km : Q;
  total_built_length_km : Q;
  overall_length_variance_km : Q;
  overall_length_variance_pct : Q
}.
End Summary.

Record NetworkComparison : Type := {
  cable_comparisons : list ComparisonResult;
  summary : option Summary.t;  (* [None] is the empty dictionary *)
  discrepancies : list Discrepancy.t;
  recommendations : list string
}.

Definition LENGTH_TOLERANCE_PCT : Q := 5.0.
Definition LOSS_TOLERANCE_DB : Q := 0.5.

Definition get_or {A : Type} (value : option A) (default : A) : A :=
  match value with Some v => v | None => default end.

Definition _compare_cable
    (cable_name : string) (planned : CableDict) (built : option CableDict)
    (opm : option OPMMeasurement.t) : result ComparisonResult :=
  let planned_length := get_or (fiber_length_km planned) 0 in
  let planned_status := get_or (construction_status planned) "Unknown" in
  let planned_loss : option Q := None in
  match built with
  | None =>
      Ok {| cable_id := cable_name;
            planned_length_km := planned_length;
            built_length_km := 0;
            length_variance_km := - planned_length;
            length_variance_pct := -100.0;
            planned_status := planned_status;
            built_status := "Not Built";
            status_match := false;
            planned_loss_db := planned_loss;
            measured_loss_db := None;
            loss_variance_db := None;
            compliance_status := "Major Deviation";
            remarks := ["Cable planned but not built"] |}
  | Some built =>
      let built_length := get_or (fiber_length_km built) 0 in
      let built_status := get_or (construction_status built) "Unknown" in
      let length_variance_km := built_length - planned_length in
      let* length_variance_pct :=
        if Qlt_bool 0 planned_length then
          let* q := truediv length_variance_km planned_length in Ok (q * 100)
        else Ok 0 in
      let status_match :=
        String.eqb (lower planned_status) (lower built_status) in
      let measured_loss :=
        match opm with
        | Some opm => Some (OPMMeasurement.loss_db opm)
        | None => None
        end in
      let loss_variance : option Q := None in
      let '(compliance_status, remarks) :=
        if Qle_bool (abs length_variance_pct) LENGTH_TOLERANCE_PCT then
          if match measured_loss with
             | None => true
             | Some measured_loss =>
                 match planned_loss with
                 | Some planned_loss =>
                     negb (Qeq_bool planned_loss 0)
                     && Qle_bool (abs (measured_loss - planned_loss))
                                 LOSS_TOLERANCE_DB
                 | None => false
                 end
             end
          then ("Compliant", [])
          else ("Minor Deviation", ["Loss variance detected"])
        else if Qle_bool (abs length_variance_pct)
                         (LENGTH_TOLERANCE_PCT * 2) then
          ("Minor Deviation",
           ["Length variance: " ++ format_1f length_variance_pct ++ "%"])
        else
          ("Major Deviation",
           ["Significant length variance: "
            ++ format_1f length_variance_pct ++ "%"]) in
      let remarks :=
        if negb status_match then
          (remarks ++ [("Status mismatch: " ++ planned_status ++ " → "
                        ++ built_status)%string])%list
        else remarks in
      Ok {| cable_id := cable_name;
            planned_length_km := planned_length;
            built_length_km := built_length;
            length_variance_km := length_variance_km;
            length_variance_pct := length_variance_pct;
            planned_status := planned_status;
            built_status := built_status;
            status_match := status_match;
            planned_loss_db := planned_loss;
            measured_loss_db := measured_loss;
            loss_variance_db := loss_variance;
            compliance_status := compliance_status;
            remarks := remarks |}
  end.

Definition _create_unplanned_cable_result
    (cable_name : string) (built : CableDict) (opm : option OPMMeasurement.t)
  : ComparisonResult :=
  let built_length := get_or (fiber_length_km built) 0 in
  let built_status := get_or (construction_status built) "Unknown" in
  let measured_loss :=
    match opm with
    | Some opm => Some (OPMMeasurement.loss_db opm)
    | None => None
    end in
  {| cable_id := cable_name;
     planned_length_km := 0;
     built_length_km := built_length;
     length_variance_km := built_length;
     length_variance_pct := 100.0;
     planned_status := "Not Planned";
     built_status := built_status;
     status_match := false;
     planned_loss_db := None;
     measured_loss_db := measured_loss;
     loss_variance_db := None;
     compliance_status := "Major Deviation";
     remarks := ["Cable built but not in original plan"] |}.

(** [sum(1 for c in comparisons if c.compliance_status == s)] *)
Definition count_status (s : string) (comparisons : list ComparisonResult)
  : Z :=
  Z.of_nat
    (List.length
       (List.filter (fun c => String.eqb (compliance_status c) s)
                    comparisons)).

(** [sum(f(c) for c in comparisons)] *)
Definition sum_of (f : ComparisonResult -> Q)
    (comparisons : list ComparisonResult) : Q :=
  fold_left (fun acc c => acc + f c) comparisons 0.

Definition _generate_summary (comparisons : list ComparisonResult)
  : result (option Summary.t) :=
  let total := Z.of_nat (List.length comparisons) in
  if (total =? 0)%Z then Ok None
  else
    let compliant := count_status "Compliant" comparisons in
    let minor_dev := count_status "Minor Deviation" comparisons in
    let major_dev := count_status "Major Deviation" comparisons in
    let total_planned_length := sum_of planned_length_km comparisons in
    let total_built_length := sum_of built_length_km comparisons in
    let* rate := truediv (inject_Z compliant) (inject_Z total) in
    let* overall_pct :=
      if Qlt_bool 0 total_planned_length then
        let* q := truediv (total_built_length - total_planned_length)
                          total_planned_length in
        Ok (round (q * 100) 2)
      else Ok 0 in
    Ok (Some {| Summary.total_cables := total;
                Summary.compliant := compliant;
                Summary.minor_deviations := minor_dev;
                Summary.major_deviations := major_dev;
                Summary.compliance_rate := round (rate * 100) 2;
                Summary.total_planned_length_km := round total_planned_length 2;
                Summary.total_built_length_km := round total_built_length 2;
                Summary.overall_length_variance_km :=
                  round (total_built_length - total_planned_length) 2;
                Summary.overall_length_variance_pct := overall_pct |}).

(** [severity_order.get(severity, 2)] *)
Definition severity_order (severity : string) : nat :=
  if String.eqb severity "Major Deviation" then 0%nat
  else if String.eqb severity "Minor Deviation" then 1%nat
  else 2%nat.

Definition discrepancy_of (comp : ComparisonResult) : Discrepancy.t :=
  {| Discrepancy.cable_id := cable_id comp;
     Discrepancy.severity := compliance_status comp;
     Discrepancy.length_variance_pct := length_variance_pct comp;
     Discrepancy.remarks := remarks comp |}.

Definition is_deviation (comp : ComparisonResult) : bool :=
  String.eqb (compliance_status comp) "Minor Deviation"
  || String.eqb (compliance_status comp) "Major Deviation".

Definition _identify_discrepancies (comparisons : list ComparisonResult)
  : list Discrepancy.t :=
  let discrepancies :=
    map discrepancy_of (List.filter is_deviation comparisons) in
  sort (fun x => severity_order (Discrepancy.severity x)) discrepancies.

(** [f'{n}'] for a list length. *)
Definition str_of_len {A : Type} (l : list A) : string :=
  NilZero.string_of_uint (Nat.to_uint (List.length l)).

Definition _generate_recommendations
    (comparisons : list ComparisonResult) (summary : option Summary.t)
  : list string :=
  let major :=
    match summary with
    | Some s => Summary.major_deviations s
    | None => 0%Z
    end in
  let minor :=
    match summary with
    | Some s => Summary.minor_deviations s
    | None => 0%Z
    end in
  let rate :=
    match summary with
    | Some s => Summary.compliance_rate s
    | None => 0
    end in
  let not_built :=
    List.filter (fun c => String.eqb (built_status c) "Not Built")
                comparisons in
  let unplanned :=
    List.filter (fun c => String.eqb (planned_status c) "Not Planned")
                comparisons in
  ((if (0 <? major)%Z then
      ["🔴 Critical: Investigate major deviations immediately";
       "Review cables with >10% length variance"]
    else [])
   ++ (if (0 <? minor)%Z then
         ["🟡 Warning: Minor deviations detected";
          "Document reasons for length variances"]
       else [])
   ++ [if Qle_bool 95 rate then
         "✅ Excellent: Network implementation highly compliant with plan"
       else if Qle_bool 85 rate then
         "✅ Good: Network implementation mostly compliant"
       else "⚠️ Review: Multiple compliance issues detected"]
   ++ match not_built with
      | [] => []
      | _ => [("📋 " ++ str_of_len not_built
               ++ " planned cables not yet built")%string]
      end
   ++ match unplanned with
      | [] => []
      | _ => [("📋 " ++ str_of_len unplanned
               ++ " unplanned cables built - update design documentation"
              )%string]
      end)%list.

(** [opm_lookup]: the measurements by cable, a later one replacing an
    earlier one of the same cable. *)
Definition opm_lookup_of (opm_measurements : option (list OPMMeasurement.t))
  : gmap string OPMMeasurement.t :=
  match opm_measurements with
  | None => ∅
  | Some ms =>
      fold_left (fun d m => <[OPMMeasurement.cable_id m := m]> d) ms ∅
  end.

Definition compare_networks
    (planned_data built_data : NetworkDict)
    (opm_measurements : option (list OPMMeasurement.t))
  : result NetworkComparison :=
  let planned_cables := odict_of_list name (get_or (cables planned_data) []) in
  let built_cables := odict_of_list name (get_or (cables built_data) []) in
  let opm_lookup := opm_lookup_of opm_measurements in
  (* Compare each planned cable *)
  let* planned_results :=
    mapM (fun '(cable_name, planned_cable) =>
            _compare_cable cable_name planned_cable
                           (odict_get built_cables cable_name)
                           (opm_lookup !! cable_name))
         planned_cables in
  (* Check for cables in built but not in planned *)
  let unplanned_results :=
    map (fun '(cable_name, built_cable) =>
           _create_unplanned_cable_result cable_name built_cable
                                          (opm_lookup !! cable_name))
        (List.filter (fun '(cable_name, _) =>
                   negb (odict_contains planned_cables cable_name))
                built_cables) in
  let cable_comparisons := (planned_results ++ unplanned_results)%list in
  let* summary := _generate_summary cable_comparisons in
  let discrepancies := _identify_discrepancies cable_comparisons in
  let recommendations := _generate_recommendations cable_comparisons summary in
  Ok {| cable_comparisons := cable_comparisons;
        summary := summary;
        discrepancies := discrepancies;
        recommendations := recommendations |}.

End comparison_service.

(* ================================================================== *)
(** * api/comparison.py: the [/compare] endpoint *)
(* ================================================================== *)

(** [compare_planned_vs_built] from the point where the two KML files and
    the measurements of the project have been found: the files are given as
    what [ET.parse] makes of them, the measurements as [parse_opm_csv]
    returned them (the empty list when the project has no OPM file).  The
    result is the comparison before it is turned into JSON. *)
Module comparison_api.
Import Py.
Import csv_parser kml_parser comparison_service.

(** One dictionary of the list comprehension over [data.cables]. *)
Definition cable_dict (c : Cable.t) : result CableDict :=
  let* km := truediv (Cable.fiber_length c) 1000 in
  Ok {| name := Cable.name c;
        fiber_length_km := Some km;
        construction_status := Some (Cable.construction_status c);
        specification := Some (Cable.specification c) |}.

(** The list comprehension, reading the list object as it is now. *)
Definition cables_dict (data : NetworkData) : M NetworkDict :=
  fun h =>
    (h, let* l := mapM cable_dict (get_cables h (kml_parser.cables data)) in
        Ok {| comparison_service.cables := Some l |}).

Definition compare_planned_vs_built
    (planned_kml built_kml : ET.document)
    (opm_measurements : list OPMMeasurement.t) : M NetworkComparison :=
  (* Parse both KML files *)
  mbind __init__ (fun parser =>
  mbind (parse_file parser planned_kml) (fun planned_data =>
  mbind (cables_dict planned_data) (fun planned_dict =>
  mbind (parse_file parser built_kml) (fun built_data =>
  mbind (cables_dict built_data) (fun built_dict =>
  (* Perform comparison *)
  lift (compare_networks planned_dict built_dict
          (match opm_measurements with
           | [] => None
           | _ => Some opm_measurements
           end))))))).

End comparison_api.

(* ================================================================== *)
(** * api/upload.py: the [/kml] endpoint *)
(* ================================================================== *)

(** [upload_kml] from the point where the uploaded file has been saved: the
    file is given as what [ET.parse] makes of it.  The result is the
    response before it is turned into JSON; its [data] part is given by the
    three lists of the snapshot. *)
Module upload_api.
Import Py.
Import kml_parser opm_calculator.

(** Standard optical parameters (Telkom Access standard). *)
Definition optical_params : OpticalParameters :=
  {| tx_power := 3.0;
     rx_sensitivity := -28.0;
     wavelength := NM_1550;
     fiber_type := SINGLE_MODE |}.

(** Loss parameters based on the table of maximum losses. *)
Definition loss_params : LossParameters :=
  {| fiber_loss_per_km := 0.35;
     splice_loss := 0.1;
     connector_loss := 0.25;
     safety_margin := 3.0 |}.

(** An entry of [opm_results]. *)
Module OpmResult.
Record t : Type := {
  cable_name : string;
  power_budget_db : Q;
  total_loss_db : Q;
  available_margin_db : Q;
  status : string;
  quality_score : Q;
  details : Details
}.
End OpmResult.



(** [sum(r["quality_score"] for r in opm_results)] *)
Definition sum_quality (opm_results : list OpmResult.t) : Q :=
  fold_left (fun acc r => acc + OpmResult.quality_score r) opm_results 0.




End upload_api.

(* ================================================================== *)
(** * api/analysis.py *)
(* ================================================================== *)

(** The three endpoints, called with requests that have passed the
    validation of their models.  The results are the responses before they
    are turned into JSON; an exception is the one the endpoint answers with
    a status of 500. *)
Module analysis_api.
Import Py.
Import opm_calculator.

Record OpticalParamsRequest : Type := {
  req_tx_power : Q;
  req_rx_sensitivity : Q;
  req_wavelength : string;
  req_fiber_type : string
}.

Record LossParamsRequest : Type := {
  req_fiber_loss_per_km : Q;
  req_splice_loss : Q;
  req_connector_loss : Q;
  req_safety_margin : Q
}.

Record NetworkSegmentRequest : Type := {
  req_name : string;
  req_fiber_length_km : Q;
  req_splice_count : Z;
  req_connector_count : Z
}.

(** [WavelengthType(value)] *)
Definition WavelengthType_of (value : string) : result WavelengthType :=
  if String.eqb value "1310nm" then Ok NM_1310
  else if String.eqb value "1550nm" then Ok NM_1550
  else Raise ValueError.

(** [FiberType(value)] *)
Definition FiberType_of (value : string) : result FiberType :=
  if String.eqb value "single_mode" then Ok SINGLE_MODE
  else if String.eqb value "multi_mode" then Ok MULTI_MODE
  else Raise ValueError.

Definition optical_of (request : OpticalParamsRequest)
  : result OpticalParameters :=
  let* w := WavelengthType_of (req_wavelength request) in
  let* f := FiberType_of (req_fiber_type request) in
  Ok {| tx_power := req_tx_power request;
        rx_sensitivity := req_rx_sensitivity request;
        wavelength := w;
        fiber_type := f |}.

Definition loss_of (request : LossParamsRequest) : LossParameters :=
  {| fiber_loss_per_km := req_fiber_loss_per_km request;
     splice_loss := req_splice_loss request;
     connector_loss := req_connector_loss request;
     safety_margin := req_safety_margin request |}.

Definition segment_of (request : NetworkSegmentRequest) : NetworkSegment :=
  {| fiber_length_km := req_fiber_length_km request;
     splice_count := req_splice_count request;
     connector_count := req_connector_count request;
     name := req_name request |}.

(** [/opm/calculate]: the result and its recommendations. *)
Definition calculate_opm
    (optical : OpticalParamsRequest) (loss : LossParamsRequest)
    (segment : NetworkSegmentRequest)
  : result (CalculationResult * list string) :=
  let* optical_params := optical_of optical in
  let loss_params := loss_of loss in
  let segment := segment_of segment in
  let* result := calculate_power_budget optical_params loss_params segment in
  let recommendations := get_recommendations result in
  Ok (result, recommendations).

(** The summary of [/opm/multi-segment]. *)
Record MultiSegmentSummary : Type := {
  total_segments : Z;
  ok_count : Z;
  warning_count : Z;
  critical_count : Z;
  average_quality_score : Q
}.

(** [sum(1 for r in results if r.status == s)] *)
Definition count_link_status (s : string) (results : list CalculationResult)
  : Z :=
  Z.of_nat
    (List.length (List.filter (fun r => String.eqb (status r) s) results)).

(** [sum(r.quality_score for r in results)] *)
Definition sum_quality (results : list CalculationResult) : Q :=
  fold_left (fun acc r => acc + quality_score r) results 0.

(** [/opm/multi-segment]: the summary and, for each segment, the result and
    its recommendations. *)
Definition analyze_multi_segment
    (optical : OpticalParamsRequest) (loss : LossParamsRequest)
    (segments : list NetworkSegmentRequest)
  : result (MultiSegmentSummary * list (CalculationResult * list string)) :=
  let* optical_params := optical_of optical in
  let loss_params := loss_of loss in
  let segments := map segment_of segments in
  let* results :=
    analyze_multiple_segments optical_params loss_params segments in
  let total_segments := Z.of_nat (List.length results) in
  let ok_count := count_link_status "OK" results in
  let warning_count := count_link_status "Warning" results in
  let critical_count := count_link_status "Critical" results in
  let* avg_quality :=
    if (0 <? total_segments)%Z then
      truediv (sum_quality results) (inject_Z total_segments)
    else Ok 0 in
  Ok ({| total_segments := total_segments;
         ok_count := ok_count;
         warning_count := warning_count;
         critical_count := critical_count;
         average_quality_score := round avg_quality 2 |},
      map (fun r => (r, get_recommendations r)) results).

(** The response of [/opm/max-distance]. *)
Record MaxDistanceResponse : Type := {
  max_distance_km : Q;
  max_distance_m : Q;
  param_splice_count : Z;
  param_connector_count : Z;
  param_power_budget_db : Q
}.

(** [/opm/max-distance] *)
Definition calculate_max_distance
    (optical_params : OpticalParamsRequest) (loss_params : LossParamsRequest)
    (splice_count connector_count : Z) : result MaxDistanceResponse :=
  let* optical := optical_of optical_params in
  let loss := loss_of loss_params in
  let* max_distance :=
    opm_calculator.calculate_max_distance optical loss splice_count
                                          connector_count in
  Ok {| max_distance_km := round max_distance 2;
        max_distance_m := round (max_distance * 1000) 2;
        param_splice_count := splice_count;
        param_connector_count := connector_count;
        param_power_budget_db := tx_power optical - rx_sensitivity optical |}.

End analysis_api.

(* ================================================================== *)
(** * The vocabulary of the properties *)
(* ================================================================== *)

(** The notions the properties below are stated with, and the inputs at
    which some of them are evaluated. *)

Import Py.

(** The order a sort by [key] establishes. *)
Definition key_le {A : Type} (key : A -> nat) (a b : A) : Prop :=
  (key a <= key b)%nat.

Section LinkBudgetVocabulary.
Import opm_calculator.

(** The scenario of the design document: 3 dBm transmitter, -28 dBm
    receiver, 10 km of fibre, 5 splices, 2 connectors. *)
Definition scenario_optical : OpticalParameters :=
  {| tx_power := 3.0; rx_sensitivity := -28.0;
     wavelength := NM_1550; fiber_type := SINGLE_MODE |}.

Definition scenario_segment : NetworkSegment :=
  {| fiber_length_km := 10; splice_count := 5; connector_count := 2;
     name := "Segment" |}.

(** The weakest transmitter against the least sensitive receiver the
    request model admits: a power budget of 0 dB. *)
Definition weak_optical : OpticalParameters :=
  {| tx_power := -10; rx_sensitivity := -10;
     wavelength := NM_1550; fiber_type := SINGLE_MODE |}.

(** What is left of the power budget for the fibre. *)
Definition available_for_fiber
    (o : OpticalParameters) (l : LossParameters) (sc cc : Z) : Q :=
  tx_power o - rx_sensitivity o
  - inject_Z sc * splice_loss l
  - inject_Z cc * connector_loss l
  - safety_margin l.

End LinkBudgetVocabulary.

Section ReconciliationVocabulary.
Import csv_parser comparison_service.

(** The three tiers. *)
Definition is_tier (s : string) : Prop :=
  s = "Compliant" \/ s = "Minor Deviation" \/ s = "Major Deviation".

(** The dictionaries of a comparison and its two batches of results. *)
Definition planned_cables_of (d : NetworkDict) : odict CableDict :=
  odict_of_list name (get_or (cables d) []).

Definition unplanned_of (planned_cables built_cables : odict CableDict)
  : odict CableDict :=
  List.filter
    (fun '(cable_name, _) => negb (odict_contains planned_cables cable_name))
    built_cables.

(** The names of the cables of a snapshot. *)
Definition cable_names (d : NetworkDict) : list string :=
  map name (get_or (cables d) []).

(** A cable planned and built with the same 10 km and the same status. *)
Definition cable_C1 : CableDict :=
  {| name := "C1";
     fiber_length_km := Some 10;
     construction_status := Some "In Service";
     specification := Some "ADSS" |}.

(** A measurement of cable C1 with the loss [loss_db]. *)
Definition measurement_C1 (loss_db : Q) : OPMMeasurement.t :=
  {| OPMMeasurement.cable_id := "C1";
     OPMMeasurement.segment_name := "C1";
     OPMMeasurement.measurement_date := None;
     OPMMeasurement.tx_power_dbm := 3.0;
     OPMMeasurement.rx_power_dbm := 3.0 - loss_db;
     OPMMeasurement.loss_db := loss_db;
     OPMMeasurement.length_km := 10;
     OPMMeasurement.wavelength_nm := 1550;
     OPMMeasurement.status := "Pass";
     OPMMeasurement.remarks := None;
     OPMMeasurement.measured_by := None |}.

End ReconciliationVocabulary.

Section ParserVocabulary.
Import kml_parser.

(** [c in s], for one character. *)
Fixpoint mem_char (c : ascii) (s : string) : bool :=
  match s with
  | EmptyString => false
  | String a r => Ascii.eqb a c || mem_char c r
  end.

(** A cable placemark whose description gives the fibre length [len]. *)
Definition cable_placemark (cable_name len : string) : ET.Element :=
  ET.Elem (kml "Placemark") None
    [ET.Elem (kml "name") (Some cable_name) [];
     ET.Elem (kml "description") (Some ("Fiber Length: " ++ len)) [];
     ET.Elem (kml "LineString") None
       [ET.Elem (kml "coordinates")
                (Some "106.80,-6.20,0 106.81,-6.21,0") []]].

(** A plan with the one cable C2, and what was built: the one cable C3. *)
Definition planned_document : ET.document :=
  ET.WellFormed
    (ET.Elem (kml "kml") None
       [ET.Elem (kml "Document") None [cable_placemark "Kabel C2" "5000m"]]).

Definition built_document : ET.document :=
  ET.WellFormed
    (ET.Elem (kml "kml") None
       [ET.Elem (kml "Document") None [cable_placemark "Kabel C3" "700m"]]).

(** [parser = KMLParser(); first = parser.parse_file(d1);
    second = parser.parse_file(d2)] *)
Definition parse_twice (d1 d2 : ET.document) : M (NetworkData * NetworkData) :=
  mbind __init__ (fun parser =>
  mbind (parse_file parser d1) (fun first =>
  mbind (parse_file parser d2) (fun second =>
  ret (first, second)))).

(** [KMLParser().parse_file(d)] *)
Definition parse_fresh (d : ET.document) : M NetworkData :=
  mbind __init__ (fun parser => parse_file parser d).

(** The entities of a batch of placemarks, by collection. *)
Record entities : Type := {
  e_poles : list Pole.t;
  e_odps : list ODP.t;
  e_cables : list Cable.t;
  e_raw : list RawPlacemark.t
}.

Definition no_entities : entities :=
  {| e_poles := []; e_odps := []; e_cables := []; e_raw := [] |}.

Definition entities_app (a b : entities) : entities :=
  {| e_poles := e_poles a ++ e_poles b;
     e_odps := e_odps a ++ e_odps b;
     e_cables := e_cables a ++ e_cables b;
     e_raw := e_raw a ++ e_raw b |}.

Definition option_list {A : Type} (o : option A) : list A :=
  match o with Some x => [x] | None => [] end.

(** What one placemark adds to the four lists. *)
Definition placemark_entities (placemark : ET.Element) : entities :=
  match child_text (kml "name") "Unknown" placemark,
        child_text (kml "description") "" placemark with
  | Some name, Some description =>
      {| e_poles :=
           if _is_pole name description
           then option_list (_parse_pole placemark name description) else [];
         e_odps :=
           if negb (_is_pole name description) && _is_odp name description
           then option_list (_parse_odp placemark name description) else [];
         e_cables :=
           if negb (_is_pole name description)
              && negb (_is_odp name description)
              && _is_cable name description
           then option_list (_parse_cable placemark name description) else [];
         e_raw :=
           [{| RawPlacemark.name := name;
               RawPlacemark.description := description;
               RawPlacemark.type := _determine_type name description |}] |}
  | _, _ => no_entities
  end.

(** What a document adds to the four lists. *)
Definition document_entities (root : ET.Element) : entities :=
  fold_right (fun placemark e => entities_app (placemark_entities placemark) e)
             no_entities
             (ET.findall_descendants (kml "Placemark") root).

(** The four lists of the parser [self] hold [e] in the heap [h]. *)
Definition holds (self : KMLParser) (h : heap) (e : entities) : Prop :=
  h !! self_poles self = Some (PoleList (e_poles e))
  /\ h !! self_odps self = Some (ODPList (e_odps e))
  /\ h !! self_cables self = Some (CableList (e_cables e))
  /\ h !! self_raw_placemarks self = Some (RawList (e_raw e)).

(** The snapshot a parser hands out: its own four lists. *)
Definition snapshot_of (self : KMLParser) : NetworkData :=
  {| poles := self_poles self;
     odps := self_odps self;
     cables := self_cables self;
     raw_placemarks := self_raw_placemarks self |}.

(** What a snapshot shows in the heap [h]. *)
Definition reads (h : heap) (data : NetworkData) : entities :=
  {| e_poles := get_poles h (poles data);
     e_odps := get_odps h (odps data);
     e_cables := get_cables h (cables data);
     e_raw := get_raw h (raw_placemarks data) |}.

End ParserVocabulary.

Section LinkBudgetQuantities.
Import opm_calculator.

(** The quantities of a link before they are rounded. *)
Definition exact_power_budget (o : OpticalParameters) : Q :=
  tx_power o - rx_sensitivity o.

Definition exact_total_loss (l : LossParameters) (s : NetworkSegment) : Q :=
  fiber_length_km s * fiber_loss_per_km l
  + inject_Z (splice_count s) * splice_loss l
  + inject_Z (connector_count s) * connector_loss l.

Definition exact_margin
    (o : OpticalParameters) (l : LossParameters) (s : NetworkSegment) : Q :=
  exact_power_budget o - exact_total_loss l s - safety_margin l.

(** Loss coefficients that are not negative. *)
Definition loss_in_range (l : LossParameters) : Prop :=
  0 <= fiber_loss_per_km l /\ 0 <= splice_loss l /\ 0 <= connector_loss l
  /\ 0 <= safety_margin l.

(** A segment without a negative length or count. *)
Definition segment_in_range (s : NetworkSegment) : Prop :=
  0 <= fiber_length_km s /\ (0 <= splice_count s)%Z
  /\ (0 <= connector_count s)%Z.

(** [s2] has at least the fibre, the splices and the connectors of [s1]. *)
Definition segment_le (s1 s2 : NetworkSegment) : Prop :=
  fiber_length_km s1 <= fiber_length_km s2
  /\ (splice_count s1 <= splice_count s2)%Z
  /\ (connector_count s1 <= connector_count s2)%Z.

Definition route_advice : string :=
  "➡️ Consider route optimization to improve quality score".

End LinkBudgetQuantities.

Section EndpointVocabulary.
Import opm_calculator analysis_api.

(** The wavelength and the fibre type of a request are values of their
    enumerations. *)
Definition known_optical (o : OpticalParamsRequest) : bool :=
  (String.eqb (req_wavelength o) "1310nm"
   || String.eqb (req_wavelength o) "1550nm")
  && (String.eqb (req_fiber_type o) "single_mode"
      || String.eqb (req_fiber_type o) "multi_mode").

(** The three link states. *)
Definition is_link_status (s : string) : Prop :=
  s = "OK" \/ s = "Warning" \/ s = "Critical".

End EndpointVocabulary.

Section UploadVocabulary.
Import kml_parser opm_calculator upload_api.


End UploadVocabulary.

Section LookupVocabulary.
Import csv_parser comparison_service.

(** The last cable of a list with the name [n]. *)
Definition last_named (n : string) (l : list CableDict) : option CableDict :=
  List.find (fun c => String.eqb (name c) n) (rev l).

(** The last measurement of cable [n], if measurements were given. *)
Definition last_measurement
    (n : string) (opm_measurements : option (list OPMMeasurement.t))
  : option OPMMeasurement.t :=
  List.find (fun m => String.eqb (OPMMeasurement.cable_id m) n)
            (rev (get_or opm_measurements [])).

End LookupVocabulary.

Section TextVocabulary.
Import kml_parser.

(** The names of the raw records of one type. *)
Definition raw_names_of (type : string) (raw : list RawPlacemark.t)
  : list string :=
  map RawPlacemark.name
      (List.filter (fun r => String.eqb (RawPlacemark.type r) type) raw).

(** Every character of [s] satisfies [p]. *)
Fixpoint string_forall (p : ascii -> bool) (s : string) : bool :=
  match s with
  | EmptyString => true
  | String c r => p c && string_forall p r
  end.

(** The characters of a number without exponent. *)
Definition plain (c : ascii) : bool :=
  isdigit_ascii c || Ascii.eqb c "." || Ascii.eqb c "+" || Ascii.eqb c "-".

(** A letter or a space, the characters of the field names. *)
Definition name_char (c : ascii) : bool :=
  let n := nat_of_ascii c in
  ((65 <=? n) && (n <=? 90) || (97 <=? n) && (n <=? 122) || (n =? 32))%nat.

(** Nothing but white space. *)
Definition blank (s : string) : bool := string_forall isspace s.

End TextVocabulary.

Section MeasurementVocabulary.
Import csv_parser.

(** A cell that is missing, short of its row or empty. *)
Definition empty_cell (r : row) (key : string) : Prop :=
  r !! key = None \/ r !! key = Some None \/ r !! key = Some (Some "").

(** The column names of the five numbers of an OPM row. *)
Definition opm_number_keys : list string :=
  ["Tx Power (dBm)"; "Tx Power"; "tx_power";
   "Rx Power (dBm)"; "Rx Power"; "rx_power";
   "Loss (dB)"; "Loss"; "loss";
   "Length (km)"; "Length"; "length";
   "Wavelength (nm)"; "Wavelength"; "wavelength"].

(** The first column name of each of the five numbers. *)
Definition opm_number_columns : list string :=
  ["Tx Power (dBm)"; "Rx Power (dBm)"; "Loss (dB)"; "Length (km)";
   "Wavelength (nm)"].

End MeasurementVocabulary.

(* ================================================================== *)
(** * Properties *)
(* ================================================================== *)

(** ** Facts about the runtime *)

Section FloatFacts.

Lemma Qlt_bool_true (a b : Q) : Qlt_bool a b = true <-> a < b.
Proof.
  unfold Qlt_bool. rewrite negb_true_iff.
  split; intros H.
  - apply Qnot_le_lt. intros Hle. apply Qle_bool_iff in Hle. congruence.
  - destruct (Qle_bool b a) eqn:E; [|reflexivity].
    apply Qle_bool_iff in E. exfalso. apply (Qlt_not_le _ _ H E).
Qed.

Lemma Qlt_bool_false (a b : Q) : Qlt_bool a b = false <-> b <= a.
Proof.
  unfold Qlt_bool. rewrite negb_false_iff. apply Qle_bool_iff.
Qed.

Lemma Qle_bool_false (a b : Q) : Qle_bool a b = false <-> b < a.
Proof.
  rewrite <- Qlt_bool_true. unfold Qlt_bool.
  destruct (Qle_bool a b); simpl; intuition congruence.
Qed.

Lemma max_cases (a b : Q) :
  (a < b /\ max a b = b) \/ (b <= a /\ max a b = a).
Proof.
  unfold max. destruct (Qlt_bool a b) eqn:E.
  - left. split; [now apply Qlt_bool_true | reflexivity].
  - right. split; [now apply Qlt_bool_false | reflexivity].
Qed.

Lemma min_cases (a b : Q) :
  (b < a /\ min a b = b) \/ (a <= b /\ min a b = a).
Proof.
  unfold min. destruct (Qlt_bool b a) eqn:E.
  - left. split; [now apply Qlt_bool_true | reflexivity].
  - right. split; [now apply Qlt_bool_false | reflexivity].
Qed.

Lemma abs_cases (a : Q) :
  (a < 0 /\ abs a = - a) \/ (0 <= a /\ abs a = a).
Proof.
  unfold abs. destruct (Qlt_bool a 0) eqn:E.
  - left. split; [now apply Qlt_bool_true | reflexivity].
  - right. split; [now apply Qlt_bool_false | reflexivity].
Qed.

Lemma max_lower (a b : Q) : a <= max a b.
Proof. destruct (max_cases a b) as [[H ->] | [H ->]]; lra. Qed.

Lemma max_mono_r (a b b' : Q) : b <= b' -> max a b <= max a b'.
Proof.
  intros H.
  destruct (max_cases a b) as [[H1 ->] | [H1 ->]];
    destruct (max_cases a b') as [[H2 ->] | [H2 ->]]; lra.
Qed.

Lemma min_upper (a b : Q) : min a b <= a.
Proof. destruct (min_cases a b) as [[H ->] | [H ->]]; lra. Qed.

Lemma min_lower (a b c : Q) : c <= a -> c <= b -> c <= min a b.
Proof. intros. destruct (min_cases a b) as [[H1 ->] | [H1 ->]]; lra. Qed.

Lemma min_mono_r (a b b' : Q) : b <= b' -> min a b <= min a b'.
Proof.
  intros H.
  destruct (min_cases a b) as [[H1 ->] | [H1 ->]];
    destruct (min_cases a b') as [[H2 ->] | [H2 ->]]; lra.
Qed.

Lemma max_upper (a b c : Q) : a <= c -> b <= c -> max a b <= c.
Proof. intros. destruct (max_cases a b) as [[H1 ->] | [H1 ->]]; lra. Qed.

(** A division whose divisor is not zero returns. *)
Lemma truediv_ok (a b : Q) : ~ b == 0 -> truediv a b = Ok (a / b).
Proof.
  intros H. unfold truediv.
  destruct (Qeq_bool b 0) eqn:E; [|reflexivity].
  apply Qeq_bool_iff in E. contradiction.
Qed.

Lemma truediv_zero (a b : Q) : b == 0 -> truediv a b = Raise ZeroDivisionError.
Proof.
  intros H. unfold truediv. apply Qeq_bool_iff in H. now rewrite H.
Qed.

End FloatFacts.

(** ** The link-budget engine *)

Section LinkBudget.
Import opm_calculator.

(** The score as one expression, where the power budget is positive. *)
Lemma quality_score_positive_budget (pb tl m : Q) :
  0 < pb ->
  _calculate_quality_score pb tl m
  = Ok (max 0 (min 100 (max 0 (1 - tl / pb) * 40
                         + min 60 (max 0 (m / 10 * 60))))).
Proof.
  intros Hpb. unfold _calculate_quality_score.
  destruct (Qle_bool pb 0) eqn:E.
  - apply Qle_bool_iff in E. lra.
  - rewrite truediv_ok by lra. cbn [bind].
    rewrite truediv_ok by (intros H; discriminate H). reflexivity.
Qed.

Lemma quality_score_no_budget (pb tl m : Q) :
  pb <= 0 -> _calculate_quality_score pb tl m = Ok 0.0.
Proof.
  intros Hpb. unfold _calculate_quality_score.
  apply Qle_bool_iff in Hpb. now rewrite Hpb.
Qed.

(** The division of the score is guarded: the score is always returned. *)
Lemma quality_score_total (pb tl m : Q) :
  exists s, _calculate_quality_score pb tl m = Ok s /\ 0 <= s /\ s <= 100.
Proof.
  destruct (Qlt_le_dec 0 pb) as [Hpb | Hpb].
  - rewrite quality_score_positive_budget by assumption.
    eexists. split; [reflexivity|]. split.
    + apply max_lower.
    + apply max_upper; [lra | apply min_upper].
  - rewrite quality_score_no_budget by assumption.
    eexists. split; [reflexivity|]. lra.
Qed.

End LinkBudget.

Section Rounding.

Lemma Qlt_bool_comp (a a' b b' : Q) :
  a == a' -> b == b' -> Qlt_bool a b = Qlt_bool a' b'.
Proof.
  intros Ha Hb.
  destruct (Qlt_bool a' b') eqn:E.
  - apply Qlt_bool_true. apply Qlt_bool_true in E. lra.
  - apply Qlt_bool_false. apply Qlt_bool_false in E. lra.
Qed.

Lemma round_half_even_comp (x y : Q) :
  x == y -> round_half_even x = round_half_even y.
Proof.
  intros H. unfold round_half_even.
  rewrite (Qfloor_comp x y H).
  rewrite (Qlt_bool_comp (x - inject_Z (Qfloor y)) (y - inject_Z (Qfloor y))
                         (1 # 2) (1 # 2)) by lra.
  rewrite (Qlt_bool_comp (1 # 2) (1 # 2) (x - inject_Z (Qfloor y))
                         (y - inject_Z (Qfloor y))) by lra.
  reflexivity.
Qed.

Lemma round_comp (x y : Q) (n : nat) : x == y -> round x n = round y n.
Proof.
  intros H. unfold round.
  rewrite (round_half_even_comp (x * inject_Z (10 ^ Z.of_nat n))
                                (y * inject_Z (10 ^ Z.of_nat n)));
    [reflexivity | now rewrite H].
Qed.

Lemma round_half_even_lower (x : Q) : (Qfloor x <= round_half_even x)%Z.
Proof.
  unfold round_half_even.
  destruct (Qlt_bool _ _); [lia|].
  destruct (Qlt_bool _ _); [lia|].
  destruct (Z.even _); lia.
Qed.

Lemma round_half_even_upper (x : Q) : (round_half_even x <= Qfloor x + 1)%Z.
Proof.
  unfold round_half_even.
  destruct (Qlt_bool _ _); [lia|].
  destruct (Qlt_bool _ _); [lia|].
  destruct (Z.even _); lia.
Qed.

(** Rounding to the nearest integer keeps the order. *)
Lemma round_half_even_mono (x y : Q) :
  x <= y -> (round_half_even x <= round_half_even y)%Z.
Proof.
  intros Hxy.
  pose proof (Qfloor_resp_le x y Hxy) as Hf.
  destruct (Z.eq_dec (Qfloor x) (Qfloor y)) as [E | NE].
  - unfold round_half_even. rewrite E.
    destruct (Qlt_bool (x - inject_Z (Qfloor y)) (1 # 2)) eqn:X1.
    + destruct (Qlt_bool (y - inject_Z (Qfloor y)) (1 # 2)); [lia|].
      destruct (Qlt_bool (1 # 2) (y - inject_Z (Qfloor y))); [lia|].
      destruct (Z.even (Qfloor y)); lia.
    + apply Qlt_bool_false in X1.
      destruct (Qlt_bool (y - inject_Z (Qfloor y)) (1 # 2)) eqn:Y1.
      { apply Qlt_bool_true in Y1. lra. }
      destruct (Qlt_bool (1 # 2) (x - inject_Z (Qfloor y))) eqn:X2.
      * apply Qlt_bool_true in X2.
        destruct (Qlt_bool (1 # 2) (y - inject_Z (Qfloor y))) eqn:Y2; [lia|].
        apply Qlt_bool_false in Y2. lra.
      * destruct (Qlt_bool (1 # 2) (y - inject_Z (Qfloor y)));
          destruct (Z.even (Qfloor y)); lia.
  - pose proof (round_half_even_upper x). pose proof (round_half_even_lower y).
    lia.
Qed.

Lemma pow10_pos (n : nat) : 0 < inject_Z (10 ^ Z.of_nat n).
Proof.
  change 0 with (inject_Z 0). rewrite <- Zlt_Qlt.
  apply Z.pow_pos_nonneg; lia.
Qed.

(** [round] keeps the order. *)
Lemma round_mono (x y : Q) (n : nat) : x <= y -> round x n <= round y n.
Proof.
  intros Hxy. unfold round.
  pose proof (pow10_pos n) as Hp.
  set (p := inject_Z (10 ^ Z.of_nat n)) in *.
  assert (H : inject_Z (round_half_even (x * p))
              <= inject_Z (round_half_even (y * p))).
  { rewrite <- Zle_Qle. apply round_half_even_mono. nra. }
  apply Qle_shift_div_l; [exact Hp|].
  assert (E : inject_Z (round_half_even (x * p)) / p * p
              == inject_Z (round_half_even (x * p))) by (field; lra).
  rewrite E. exact H.
Qed.

End Rounding.

Section LinkBudgetClaims.
Import opm_calculator.

(** C4, as the document states it, is false: the quality score of the
    scenario is not 100. *)
Lemma scenario_quality_score_is_not_100 :
  ~ exists r,
      calculate_power_budget scenario_optical LossParameters_default
                             scenario_segment = Ok r
      /\ total_loss r == 5.0
      /\ available_margin r == 23.0
      /\ status r = "OK"
      /\ quality_score r == 100.
Proof.
  intros [r [Hr [_ [_ [_ Hq]]]]].
  vm_compute in Hr. injection Hr as <-.
  vm_compute in Hq. discriminate Hq.
Qed.

(** C4, amended: for the scenario the engine returns a total loss of 5.0 dB,
    a margin of 23.0 dB, the status OK and a quality score of 93.55: the
    margin earns its full 60 points, the loss efficiency 26/31 of its 40. *)
Theorem scenario_power_budget :
  exists r,
    calculate_power_budget scenario_optical LossParameters_default
                           scenario_segment = Ok r
    /\ power_budget r == 31.0
    /\ total_loss r == 5.0
    /\ available_margin r == 23.0
    /\ status r = "OK"
    /\ quality_score r == 93.55
    /\ fiber_loss_db (loss_breakdown (details r)) == 3.5
    /\ splice_loss_db (loss_breakdown (details r)) == 0.5
    /\ connector_loss_db (loss_breakdown (details r)) == 1.0.
Proof.
  eexists. split; [vm_compute; reflexivity|].
  repeat split; vm_compute; reflexivity.
Qed.

(** C6: for a fixed power budget and total loss the quality score does not
    decrease when the margin grows, and it always lies in [0, 100].  The
    score is returned for every input, and both facts survive the rounding
    to two decimals with which [calculate_power_budget] reports it. *)
Theorem quality_score_monotone_and_bounded (pb tl m1 m2 : Q) :
  m1 <= m2 ->
  exists s1 s2,
    _calculate_quality_score pb tl m1 = Ok s1
    /\ _calculate_quality_score pb tl m2 = Ok s2
    /\ s1 <= s2
    /\ 0 <= s1 /\ s1 <= 100
    /\ 0 <= s2 /\ s2 <= 100
    /\ round s1 2 <= round s2 2
    /\ 0 <= round s1 2 /\ round s1 2 <= 100
    /\ 0 <= round s2 2 /\ round s2 2 <= 100.
Proof.
  intros Hm.
  destruct (quality_score_total pb tl m1) as [s1 [H1 [L1 U1]]].
  destruct (quality_score_total pb tl m2) as [s2 [H2 [L2 U2]]].
  assert (Hs : s1 <= s2).
  { destruct (Qlt_le_dec 0 pb) as [Hpb | Hpb].
    - rewrite quality_score_positive_budget in H1, H2 by assumption.
      injection H1 as <-. injection H2 as <-.
      apply max_mono_r, min_mono_r.
      apply Qplus_le_r, min_mono_r, max_mono_r.
      assert (E : forall m, m / 10 * 60 == m * 6) by (intros m; field).
      rewrite !E. lra.
    - rewrite quality_score_no_budget in H1, H2 by assumption.
      injection H1 as <-. injection H2 as <-. lra. }
  assert (R0 : forall s, 0 <= s -> 0 <= round s 2).
  { intros s Hs0. apply (Qle_trans _ (round 0 2)); [discriminate|].
    apply round_mono, Hs0. }
  assert (R100 : forall s, s <= 100 -> round s 2 <= 100).
  { intros s Hs100. apply (Qle_trans _ (round 100 2)); [|discriminate].
    apply round_mono, Hs100. }
  exists s1, s2.
  repeat split; try assumption; auto using round_mono.
Qed.

(** C6 at a budget of 31 dB, a loss of 5 dB and the margins 2 dB and
    23 dB. *)
Lemma quality_score_monotone_and_bounded_witness :
  2 <= 23 /\
  exists s1 s2,
    _calculate_quality_score 31 5 2 = Ok s1
    /\ _calculate_quality_score 31 5 23 = Ok s2
    /\ s1 <= s2
    /\ 0 <= s1 /\ s1 <= 100
    /\ 0 <= s2 /\ s2 <= 100
    /\ round s1 2 <= round s2 2
    /\ 0 <= round s1 2 /\ round s1 2 <= 100
    /\ 0 <= round s2 2 /\ round s2 2 <= 100.
Proof.
  split; [discriminate|].
  apply (quality_score_monotone_and_bounded 31 5 2 23). discriminate.
Defined.

(** [calculate_power_budget] returns for every input. *)
Lemma calculate_power_budget_total o l s :
  exists r, calculate_power_budget o l s = Ok r.
Proof.
  unfold calculate_power_budget.
  match goal with
  | |- context [_calculate_quality_score ?a ?b ?c] =>
      destruct (quality_score_total a b c) as [q [-> _]]
  end.
  cbn [bind]. eexists. reflexivity.
Qed.

(** [calculate_required_tx_power] returns for every input. *)
Lemma calculate_required_tx_power_total rx s l :
  exists p, calculate_required_tx_power rx s l = Ok p.
Proof. unfold calculate_required_tx_power. eexists. reflexivity. Qed.

(** The division of [calculate_max_distance] is not guarded. *)
Lemma calculate_max_distance_raises o l sc cc :
  fiber_loss_per_km l == 0 ->
  calculate_max_distance o l sc cc = Raise ZeroDivisionError.
Proof.
  intros H. unfold calculate_max_distance.
  now rewrite truediv_zero.
Qed.

Lemma calculate_max_distance_returns o l sc cc :
  ~ fiber_loss_per_km l == 0 ->
  exists d, calculate_max_distance o l sc cc = Ok d.
Proof.
  intros H. unfold calculate_max_distance.
  rewrite truediv_ok by exact H. eexists. reflexivity.
Qed.

(** C5, at the failing input: with a fibre loss of 0 dB/km, which the
    request model of the endpoint admits, [calculate_max_distance] raises
    [ZeroDivisionError].  That is the one gap: it returns for every other
    fibre loss, and [calculate_power_budget] and
    [calculate_required_tx_power] return for every input. *)
Theorem max_distance_lossless_fibre_raises :
  calculate_max_distance
    scenario_optical
    {| fiber_loss_per_km := 0; splice_loss := 0.1; connector_loss := 0.5;
       safety_margin := 3.0 |}
    0 2
  = Raise ZeroDivisionError
  /\ (forall o l sc cc,
        fiber_loss_per_km l == 0 ->
        calculate_max_distance o l sc cc = Raise ZeroDivisionError)
  /\ (forall o l sc cc,
        ~ fiber_loss_per_km l == 0 ->
        exists d, calculate_max_distance o l sc cc = Ok d)
  /\ (forall o l s, exists r, calculate_power_budget o l s = Ok r)
  /\ (forall rx s l, exists p, calculate_required_tx_power rx s l = Ok p).
Proof.
  split; [reflexivity|].
  split; [exact calculate_max_distance_raises|].
  split; [exact calculate_max_distance_returns|].
  split; [exact calculate_power_budget_total|].
  exact calculate_required_tx_power_total.
Qed.

End LinkBudgetClaims.

Section MaxDistance.
Import opm_calculator.

(** C7, as the document states it, is false: where the fixed losses and
    the safety margin exceed the power budget the distance is floored at 0
    and the margin of a segment of that length is what was missing, here
    -4 dB. *)
Lemma max_distance_floor_leaves_negative_margin :
  exists d r,
    calculate_max_distance weak_optical LossParameters_default 0 2 = Ok d
    /\ calculate_power_budget
         weak_optical LossParameters_default
         {| fiber_length_km := d; splice_count := 0; connector_count := 2;
            name := "Segment" |} = Ok r
    /\ d == 0
    /\ available_margin r == -4
    /\ ~ abs (available_margin r) <= 0.01.
Proof.
  eexists. eexists.
  split; [vm_compute; reflexivity|].
  split; [vm_compute; reflexivity|].
  split; [reflexivity|].
  split; [reflexivity|].
  vm_compute. intros H. apply H. reflexivity.
Qed.

(** C7, amended: for a fibre loss above 0 dB/km the distance is returned
    and is never negative.  Where the power budget covers the fixed losses
    and the safety margin, a segment of that length, with the same splices
    and connectors, has a margin of 0; where it does not, the distance is 0
    and the margin is the (negative) remainder of the budget. *)
Theorem max_distance_inverts_loss_equation
    (o : OpticalParameters) (l : LossParameters) (sc cc : Z) (n : string) :
  0 < fiber_loss_per_km l ->
  exists d r,
    calculate_max_distance o l sc cc = Ok d
    /\ 0 <= d
    /\ calculate_power_budget
         o l {| fiber_length_km := d; splice_count := sc;
                connector_count := cc; name := n |} = Ok r
    /\ (0 <= available_for_fiber o l sc cc -> available_margin r == 0)
    /\ (available_for_fiber o l sc cc < 0 ->
        d == 0 /\ available_margin r = round (available_for_fiber o l sc cc) 2).
Proof.
  intros Hf.
  set (a := available_for_fiber o l sc cc).
  assert (Hd : calculate_max_distance o l sc cc
               = Ok (max 0 (a / fiber_loss_per_km l))).
  { unfold calculate_max_distance. rewrite truediv_ok by lra. reflexivity. }
  destruct (calculate_power_budget_total
              o l {| fiber_length_km := max 0 (a / fiber_loss_per_km l);
                     splice_count := sc; connector_count := cc; name := n |})
    as [r Hr].
  exists (max 0 (a / fiber_loss_per_km l)), r.
  split; [exact Hd|]. split; [apply max_lower|]. split; [exact Hr|].
  assert (Hm : available_margin r
               = round (tx_power o - rx_sensitivity o
                        - (max 0 (a / fiber_loss_per_km l) * fiber_loss_per_km l
                           + inject_Z sc * splice_loss l
                           + inject_Z cc * connector_loss l)
                        - safety_margin l) 2).
  { unfold calculate_power_budget in Hr. cbn [fiber_length_km splice_count
      connector_count name] in Hr.
    match type of Hr with
    | context [_calculate_quality_score ?x ?y ?z] =>
        destruct (quality_score_total x y z) as [q [Hq _]];
        rewrite Hq in Hr
    end.
    cbn [bind] in Hr. injection Hr as <-. reflexivity. }
  assert (Hdiv : a / fiber_loss_per_km l * fiber_loss_per_km l == a)
    by (field; lra).
  split.
  - intros Ha. rewrite Hm.
    assert (Hpos : 0 <= a / fiber_loss_per_km l).
    { apply Qle_shift_div_l; [assumption | lra]. }
    rewrite (round_comp _ 0 2); [reflexivity|].
    destruct (max_cases 0 (a / fiber_loss_per_km l)) as [[_ ->] | [Hle ->]].
    + rewrite Hdiv. unfold a, available_for_fiber. lra.
    + assert (Hz : a == 0).
      { rewrite <- Hdiv.
        assert (E : a / fiber_loss_per_km l == 0) by lra.
        rewrite E. lra. }
      unfold a, available_for_fiber in Hz. lra.
  - intros Ha.
    assert (Hneg : a / fiber_loss_per_km l <= 0).
    { apply Qle_shift_div_r; [assumption | lra]. }
    destruct (max_cases 0 (a / fiber_loss_per_km l)) as [[Hlt _] | [_ Hmax]];
      [lra|].
    split; [rewrite Hmax; reflexivity|].
    rewrite Hm, Hmax. apply round_comp.
    unfold a, available_for_fiber. lra.
Qed.

(** C7, amended, at the scenario of the design document. *)
Lemma max_distance_inverts_loss_equation_witness :
  0 < fiber_loss_per_km LossParameters_default /\
  exists d r,
    calculate_max_distance scenario_optical LossParameters_default 5 2 = Ok d
    /\ 0 <= d
    /\ calculate_power_budget
         scenario_optical LossParameters_default
         {| fiber_length_km := d; splice_count := 5;
            connector_count := 2; name := "Segment" |} = Ok r
    /\ (0 <= available_for_fiber scenario_optical LossParameters_default 5 2 ->
        available_margin r == 0)
    /\ (available_for_fiber scenario_optical LossParameters_default 5 2 < 0 ->
        d == 0
        /\ available_margin r
           = round (available_for_fiber scenario_optical
                                        LossParameters_default 5 2) 2).
Proof.
  split; [reflexivity|].
  apply (max_distance_inverts_loss_equation
           scenario_optical LossParameters_default 5 2 "Segment").
  reflexivity.
Defined.

End MaxDistance.

(** ** The reconciliation engine *)

Section Reconciliation.
Import csv_parser comparison_service.

Lemma mapM_ok {A B : Type} (f : A -> result B) (l : list A) :
  (forall x, In x l -> exists y, f x = Ok y) ->
  exists ys, mapM f l = Ok ys /\ Forall2 (fun x y => f x = Ok y) l ys.
Proof.
  induction l as [|x l IH]; intros H.
  - exists []. split; [reflexivity | constructor].
  - destruct (H x (or_introl eq_refl)) as [y Hy].
    destruct IH as [ys [Hys HF]].
    { intros z Hz. apply H. now right. }
    exists (y :: ys). split.
    + simpl. rewrite Hy. simpl. rewrite Hys. reflexivity.
    + constructor; assumption.
Qed.

(** What every result of [_compare_cable] has in common.  The division is
    guarded, so there always is a result. *)
Lemma compare_cable_result n p b o :
  exists r,
    _compare_cable n p b o = Ok r
    /\ cable_id r = n
    /\ planned_loss_db r = None
    /\ loss_variance_db r = None
    /\ is_tier (compliance_status r)
    /\ (compliance_status r = "Compliant" -> measured_loss_db r = None).
Proof.
  unfold _compare_cable, is_tier. destruct b as [b|].
  2:{ eexists. split; [reflexivity|]. cbn. intuition discriminate. }
  set (pl := get_or (fiber_length_km p) 0).
  assert (Hpct : exists pct,
             (if Qlt_bool 0 pl
              then let* q := truediv (get_or (fiber_length_km b) 0 - pl) pl in
                   Ok (q * 100)
              else Ok 0) = Ok pct).
  { destruct (Qlt_bool 0 pl) eqn:E.
    - apply Qlt_bool_true in E. rewrite truediv_ok by lra.
      eexists. reflexivity.
    - eexists. reflexivity. }
  destruct Hpct as [pct ->]. cbn [bind].
  destruct (Qle_bool (abs pct) LENGTH_TOLERANCE_PCT).
  - destruct o as [o|].
    + eexists. split; [reflexivity|]. cbn. intuition discriminate.
    + eexists. split; [reflexivity|]. cbn. intuition discriminate.
  - destruct (Qle_bool (abs pct) (LENGTH_TOLERANCE_PCT * 2)).
    + eexists. split; [reflexivity|]. cbn. intuition discriminate.
    + eexists. split; [reflexivity|]. cbn. intuition discriminate.
Qed.

Lemma unplanned_cable_result n b o :
  let r := _create_unplanned_cable_result n b o in
  cable_id r = n
  /\ planned_loss_db r = None
  /\ loss_variance_db r = None
  /\ compliance_status r = "Major Deviation".
Proof. cbn. auto. Qed.

Lemma inject_Z_zero (z : Z) : inject_Z z == 0 -> z = 0%Z.
Proof. intros H. apply (inject_Z_injective z 0). exact H. Qed.

(** The divisions of the summary are guarded. *)
Lemma generate_summary_total cs : exists s, _generate_summary cs = Ok s.
Proof.
  unfold _generate_summary.
  destruct (Z.of_nat (List.length cs) =? 0)%Z eqn:E.
  - eexists. reflexivity.
  - apply Z.eqb_neq in E.
    rewrite truediv_ok by (intros H; apply E, inject_Z_zero, H).
    cbn [bind].
    destruct (Qlt_bool 0 (sum_of planned_length_km cs)) eqn:E2.
    + apply Qlt_bool_true in E2. rewrite truediv_ok by lra.
      eexists. reflexivity.
    + eexists. reflexivity.
Qed.

(** [compare_networks] always returns; its comparisons are one result of
    [_compare_cable] per planned cable, in the order of the planned
    dictionary, followed by one unplanned result per built-only cable, in
    the order of the built dictionary. *)
Lemma compare_networks_shape planned built opm :
  exists r planned_results,
    compare_networks planned built opm = Ok r
    /\ cable_comparisons r
       = (planned_results
          ++ map (fun '(cable_name, built_cable) =>
                    _create_unplanned_cable_result
                      cable_name built_cable
                      (opm_lookup_of opm !! cable_name))
                 (unplanned_of (planned_cables_of planned)
                               (planned_cables_of built)))%list
    /\ Forall2 (fun kv c =>
                  _compare_cable (fst kv) (snd kv)
                                 (odict_get (planned_cables_of built) (fst kv))
                                 (opm_lookup_of opm !! fst kv) = Ok c)
               (planned_cables_of planned) planned_results
    /\ discrepancies r = _identify_discrepancies (cable_comparisons r).
Proof.
  unfold compare_networks.
  fold (planned_cables_of planned). fold (planned_cables_of built).
  match goal with
  | |- context [mapM ?f ?l] =>
      destruct (mapM_ok f l) as [prs [Hprs HF]]
  end.
  { intros [k v] _.
    destruct (compare_cable_result k v (odict_get (planned_cables_of built) k)
                                   (opm_lookup_of opm !! k)) as [r [Hr _]].
    exists r. exact Hr. }
  rewrite Hprs. cbn [bind].
  match goal with
  | |- context [_generate_summary ?cs] =>
      destruct (generate_summary_total cs) as [s ->]
  end.
  cbn [bind].
  eexists. exists prs. split; [reflexivity|].
  cbn [cable_comparisons discrepancies].
  split; [reflexivity|]. split; [|reflexivity].
  eapply Forall2_impl; [exact HF|].
  intros [k v] c H. exact H.
Qed.

End Reconciliation.

Section OrderedDict.
Context {V : Type}.

Lemma odict_get_keys (d : odict V) (k : string) :
  odict_contains d k = true <-> In k (odict_keys d).
Proof.
  unfold odict_contains, odict_keys.
  induction d as [|[k' v'] d IH]; simpl.
  - split; [discriminate | tauto].
  - destruct (String.eqb_spec k k') as [-> | Hne].
    + split; auto.
    + rewrite IH. split; [auto | intros [H | H]; [congruence | exact H]].
Qed.

Lemma odict_keys_set_old (d : odict V) (k : string) (v : V) :
  In k (odict_keys d) -> odict_keys (odict_set d k v) = odict_keys d.
Proof.
  unfold odict_keys.
  induction d as [|[k' v'] d IH]; simpl; intros H; [tauto|].
  destruct (String.eqb_spec k k') as [-> | Hne]; [reflexivity|].
  simpl. f_equal. apply IH. destruct H; [congruence | assumption].
Qed.

Lemma odict_keys_set_new (d : odict V) (k : string) (v : V) :
  ~ In k (odict_keys d) ->
  odict_keys (odict_set d k v) = (odict_keys d ++ [k])%list.
Proof.
  unfold odict_keys.
  induction d as [|[k' v'] d IH]; simpl; intros H; [reflexivity|].
  destruct (String.eqb_spec k k') as [-> | Hne]; [tauto|].
  simpl. f_equal. apply IH. tauto.
Qed.

Lemma odict_set_In (d : odict V) (k : string) (v : V) (x : string) :
  In x (odict_keys (odict_set d k v)) <-> In x (odict_keys d) \/ x = k.
Proof.
  destruct (in_dec string_dec k (odict_keys d)) as [Hin | Hnin].
  - rewrite odict_keys_set_old by assumption.
    split; [auto | intros [H | ->]; assumption].
  - rewrite odict_keys_set_new by assumption.
    rewrite in_app_iff. simpl. intuition.
Qed.

Lemma odict_set_NoDup (d : odict V) (k : string) (v : V) :
  List.NoDup (odict_keys d) -> List.NoDup (odict_keys (odict_set d k v)).
Proof.
  intros Hnd.
  destruct (in_dec string_dec k (odict_keys d)) as [Hin | Hnin].
  - now rewrite odict_keys_set_old.
  - rewrite odict_keys_set_new by assumption.
    apply List.NoDup_app; [assumption | | ].
    + constructor; [intros [] | constructor].
    + intros x Hx [<- | []]. contradiction.
Qed.

Lemma odict_fold_keys (key : V -> string) (l : list V) (d : odict V) :
  List.NoDup (odict_keys d) ->
  List.NoDup (odict_keys (fold_left (fun d x => odict_set d (key x) x) l d))
  /\ forall k,
       In k (odict_keys (fold_left (fun d x => odict_set d (key x) x) l d))
       <-> In k (odict_keys d) \/ In k (map key l).
Proof.
  revert d. induction l as [|x l IH]; intros d Hnd; simpl.
  - split; [assumption | intros k; tauto].
  - destruct (IH (odict_set d (key x) x) (odict_set_NoDup d (key x) x Hnd))
      as [H1 H2].
    split; [assumption|].
    intros k. rewrite H2, odict_set_In. intuition.
Qed.

(** The keys of [{key(x): x for x in l}] are the keys of the elements of
    [l], each once. *)
Lemma odict_of_list_keys (key : V -> string) (l : list V) :
  List.NoDup (odict_keys (odict_of_list key l))
  /\ forall k, In k (odict_keys (odict_of_list key l)) <-> In k (map key l).
Proof.
  destruct (odict_fold_keys key l [] (List.NoDup_nil _)) as [H1 H2].
  split; [exact H1|].
  intros k. unfold odict_of_list. rewrite H2. simpl. tauto.
Qed.

End OrderedDict.

(** ** [Py.sort] is the stable sort *)

Section StableSort.
Context {A : Type} (key : A -> nat).

Lemma sort_insert_perm (x : A) (l : list A) :
  Permutation (sort_insert key x l) (x :: l).
Proof.
  induction l as [|y l IH]; simpl; [reflexivity|].
  destruct (key x <=? key y)%nat; [reflexivity|].
  rewrite IH. apply perm_swap.
Qed.

Lemma sort_perm (l : list A) : Permutation (sort key l) l.
Proof.
  induction l as [|x l IH]; simpl; [reflexivity|].
  rewrite sort_insert_perm. now constructor.
Qed.

Lemma sort_insert_sorted (x : A) (l : list A) :
  StronglySorted (key_le key) l ->
  StronglySorted (key_le key) (sort_insert key x l).
Proof.
  induction l as [|y l IH]; simpl; intros Hs.
  - repeat constructor.
  - inversion Hs as [|? ? Hl Hy]; subst.
    destruct (Nat.leb_spec (key x) (key y)) as [Hle | Hgt].
    + constructor; [assumption|]. constructor; [exact Hle|].
      eapply List.Forall_impl; [|exact Hy].
      intros z Hz. unfold key_le in *. lia.
    + constructor; [now apply IH|].
      eapply Permutation_Forall; [symmetry; apply sort_insert_perm|].
      constructor; [unfold key_le; lia | exact Hy].
Qed.

Lemma sort_sorted (l : list A) : StronglySorted (key_le key) (sort key l).
Proof.
  induction l as [|x l IH]; simpl; [constructor|].
  now apply sort_insert_sorted.
Qed.

(** Stability: the elements of any one key come out in the order in which
    they went in. *)
Lemma sort_insert_stable (k : nat) (x : A) (l : list A) :
  List.filter (fun z => key z =? k)%nat (sort_insert key x l)
  = List.filter (fun z => key z =? k)%nat (x :: l).
Proof.
  induction l as [|y l IH]; [reflexivity|].
  cbn [sort_insert].
  destruct (Nat.leb_spec (key x) (key y)) as [Hle | Hgt]; [reflexivity|].
  cbn [List.filter] in *. rewrite IH.
  destruct (Nat.eqb_spec (key x) k) as [Hx | Hx];
    destruct (Nat.eqb_spec (key y) k) as [Hy | Hy]; try reflexivity.
  lia.
Qed.

Lemma sort_stable (k : nat) (l : list A) :
  List.filter (fun z => key z =? k)%nat (sort key l)
  = List.filter (fun z => key z =? k)%nat l.
Proof.
  induction l as [|x l IH]; [reflexivity|].
  cbn [sort]. rewrite sort_insert_stable. cbn [List.filter].
  rewrite IH. reflexivity.
Qed.

Lemma sorted_nth_error (l : list A) (i j : nat) (a b : A) :
  StronglySorted (key_le key) l -> (i < j)%nat ->
  nth_error l i = Some a -> nth_error l j = Some b -> key_le key a b.
Proof.
  intros Hs. revert i j. induction Hs as [|x l Hs IH Hx]; intros i j Hij Ha Hb.
  - destruct i; discriminate.
  - destruct j as [|j]; [lia|]. simpl in Hb.
    destruct i as [|i]; simpl in Ha.
    + injection Ha as <-.
      apply (proj1 (List.Forall_forall _ _) Hx).
      eapply nth_error_In. exact Hb.
    + apply (IH i j); [lia | assumption | assumption].
Qed.

End StableSort.

Section ReconciliationClaims.
Import csv_parser comparison_service.

Lemma planned_results_ids
    (f : string * CableDict -> ComparisonResult -> Prop)
    (d : odict CableDict) (rs : list ComparisonResult) :
  (forall kv c, f kv c -> cable_id c = fst kv) ->
  Forall2 f d rs -> map cable_id rs = odict_keys d.
Proof.
  intros Hf HF. induction HF as [|kv c d rs H HF IH]; [reflexivity|].
  unfold odict_keys in *. simpl. rewrite IH, (Hf kv c H). reflexivity.
Qed.

Lemma compare_cable_id n p b o r :
  _compare_cable n p b o = Ok r -> cable_id r = n.
Proof.
  intros H. destruct (compare_cable_result n p b o) as [r' [Hr' [Hid _]]].
  congruence.
Qed.

Lemma unplanned_results_ids (lookup : string -> option OPMMeasurement.t)
    (d : odict CableDict) :
  map cable_id
      (map (fun '(cable_name, built_cable) =>
              _create_unplanned_cable_result cable_name built_cable
                                             (lookup cable_name)) d)
  = odict_keys d.
Proof.
  unfold odict_keys. rewrite map_map. apply map_ext.
  intros [k v]. reflexivity.
Qed.

Lemma unplanned_keys (pc bc : odict CableDict) :
  odict_keys (unplanned_of pc bc)
  = List.filter (fun k => negb (odict_contains pc k)) (odict_keys bc).
Proof.
  unfold unplanned_of, odict_keys.
  induction bc as [|[k v] bc IH]; [reflexivity|].
  simpl. destruct (odict_contains pc k); simpl; rewrite IH; reflexivity.
Qed.

(** The identifiers of the comparisons: the planned names, then the built
    names that are not planned. *)
Lemma comparison_ids planned built opm :
  exists r,
    compare_networks planned built opm = Ok r
    /\ map cable_id (cable_comparisons r)
       = (odict_keys (planned_cables_of planned)
          ++ List.filter
               (fun k => negb (odict_contains (planned_cables_of planned) k))
               (odict_keys (planned_cables_of built)))%list.
Proof.
  destruct (compare_networks_shape planned built opm)
    as [r [prs [Hr [Hcs [HF _]]]]].
  exists r. split; [exact Hr|].
  rewrite Hcs, map_app.
  rewrite (unplanned_results_ids (fun k => opm_lookup_of opm !! k)).
  rewrite unplanned_keys. f_equal.
  eapply planned_results_ids; [|exact HF].
  intros kv c H. eapply compare_cable_id. exact H.
Qed.

(** C8: every cable name of the planned or of the built snapshot is the
    identifier of exactly one comparison, and no comparison has any other
    identifier. *)
Theorem compare_networks_covers_each_cable_once planned built opm :
  exists r,
    compare_networks planned built opm = Ok r
    /\ (forall n,
          In n (map cable_id (cable_comparisons r))
          <-> In n (cable_names planned) \/ In n (cable_names built))
    /\ List.NoDup (map cable_id (cable_comparisons r)).
Proof.
  destruct (comparison_ids planned built opm) as [r [Hr Hids]].
  exists r. split; [exact Hr|]. rewrite Hids.
  destruct (odict_of_list_keys name (get_or (cables planned) []))
    as [NDp INp].
  destruct (odict_of_list_keys name (get_or (cables built) []))
    as [NDb INb].
  fold (planned_cables_of planned) in NDp, INp.
  fold (planned_cables_of built) in NDb, INb.
  fold (cable_names planned) in INp. fold (cable_names built) in INb.
  split.
  - intros n. rewrite in_app_iff, filter_In, negb_true_iff, INp, INb.
    split.
    + intros [H | [H _]]; auto.
    + intros [H | H]; [auto|].
      destruct (odict_contains (planned_cables_of planned) n) eqn:E.
      * left. apply INp. now apply odict_get_keys.
      * right. auto.
  - apply List.NoDup_app.
    + exact NDp.
    + now apply List.NoDup_filter.
    + intros n Hp Hb. apply filter_In in Hb. destruct Hb as [_ Hb].
      apply negb_true_iff in Hb.
      apply odict_get_keys in Hp. congruence.
Qed.

(** What all the comparisons of a reconciliation have in common. *)
Lemma comparison_results_invariant planned built opm :
  exists r,
    compare_networks planned built opm = Ok r
    /\ Forall (fun c =>
                 planned_loss_db c = None
                 /\ loss_variance_db c = None
                 /\ is_tier (compliance_status c)
                 /\ (compliance_status c = "Compliant" ->
                     measured_loss_db c = None))
              (cable_comparisons r).
Proof.
  destruct (compare_networks_shape planned built opm)
    as [r [prs [Hr [Hcs [HF _]]]]].
  exists r. split; [exact Hr|]. rewrite Hcs.
  apply Forall_app. split.
  - clear Hcs Hr. induction HF as [|kv c d rs H HF IH]; constructor; auto.
    destruct (compare_cable_result
                (fst kv) (snd kv)
                (odict_get (planned_cables_of built) (fst kv))
                (opm_lookup_of opm !! fst kv))
      as [c' [Hc' [_ H']]].
    assert (c' = c) by congruence. subst c'. exact H'.
  - apply List.Forall_forall. intros c Hc. apply in_map_iff in Hc.
    destruct Hc as [[k v] [<- _]]. cbn. unfold is_tier.
    repeat split; auto. discriminate.
Qed.

Lemma compare_networks_deterministic planned built opm r r' :
  compare_networks planned built opm = Ok r ->
  compare_networks planned built opm = Ok r' -> r = r'.
Proof. congruence. Qed.

(** C10: no comparison carries a planned loss or a loss variance, and a
    cable that has a measurement is never Compliant: the tolerance test on
    the measured loss never succeeds. *)
Theorem compare_networks_never_sets_planned_loss planned built opm :
  exists r,
    compare_networks planned built opm = Ok r
    /\ Forall (fun c =>
                 planned_loss_db c = None
                 /\ loss_variance_db c = None
                 /\ (measured_loss_db c <> None ->
                     compliance_status c <> "Compliant"))
              (cable_comparisons r).
Proof.
  destruct (comparison_results_invariant planned built opm) as [r [Hr HF]].
  exists r. split; [exact Hr|].
  eapply List.Forall_impl; [|exact HF].
  intros c [Hp [Hv [_ Hm]]]. repeat split; auto.
Qed.

(** The discrepancies of the comparisons of one tier. *)
Lemma filter_discrepancies_of_tier (tier : string) cs :
  tier = "Major Deviation" \/ tier = "Minor Deviation" ->
  List.filter (fun d => String.eqb (Discrepancy.severity d) tier)
              (map discrepancy_of (List.filter is_deviation cs))
  = map discrepancy_of
        (List.filter (fun c => String.eqb (compliance_status c) tier) cs).
Proof.
  intros Ht. induction cs as [|c cs IH]; [reflexivity|].
  cbn [List.filter]. unfold is_deviation at 1.
  destruct (String.eqb_spec (compliance_status c) "Minor Deviation")
    as [E1|E1];
    destruct (String.eqb_spec (compliance_status c) "Major Deviation")
      as [E2|E2];
    cbn [orb map List.filter Discrepancy.severity discrepancy_of];
    destruct (String.eqb_spec (compliance_status c) tier) as [E3|E3];
    cbn [map]; rewrite IH; try reflexivity;
    destruct Ht; congruence.
Qed.

Lemma severity_order_tier (tier s : string) :
  tier = "Major Deviation" \/ tier = "Minor Deviation" ->
  String.eqb s tier = (severity_order s =? severity_order tier)%nat.
Proof.
  intros [-> | ->]; unfold severity_order;
    destruct (String.eqb_spec s "Major Deviation") as [-> | E1];
    try reflexivity;
    destruct (String.eqb_spec s "Minor Deviation") as [-> | E2];
    reflexivity.
Qed.

(** C9: the discrepancy list of a reconciliation holds exactly the
    comparisons that are not Compliant; no Minor Deviation stands before a
    Major Deviation; and the entries of each tier are in the order of the
    comparisons. *)
Theorem discrepancies_major_first_and_stable planned built opm :
  exists r,
    compare_networks planned built opm = Ok r
    /\ (forall d,
          In d (discrepancies r)
          <-> exists c, In c (cable_comparisons r)
                        /\ compliance_status c <> "Compliant"
                        /\ d = discrepancy_of c)
    /\ (forall i j d d',
          (i < j)%nat ->
          nth_error (discrepancies r) i = Some d ->
          nth_error (discrepancies r) j = Some d' ->
          Discrepancy.severity d = "Minor Deviation" ->
          Discrepancy.severity d' <> "Major Deviation")
    /\ (forall tier,
          tier = "Major Deviation" \/ tier = "Minor Deviation" ->
          List.filter (fun d => String.eqb (Discrepancy.severity d) tier)
                      (discrepancies r)
          = map discrepancy_of
                (List.filter (fun c => String.eqb (compliance_status c) tier)
                             (cable_comparisons r))).
Proof.
  destruct (comparison_results_invariant planned built opm) as [r [Hr HF]].
  destruct (compare_networks_shape planned built opm)
    as [r' [_ [Hr' [_ [_ Hds]]]]].
  assert (r' = r) by congruence. subst r'.
  exists r. split; [exact Hr|]. rewrite Hds.
  unfold _identify_discrepancies.
  set (cs := cable_comparisons r) in *.
  set (key := fun x => severity_order (Discrepancy.severity x)).
  split; [|split].
  - intros d. split.
    + intros Hd. apply (Permutation_in _ (sort_perm key _)) in Hd.
      apply in_map_iff in Hd. destruct Hd as [c [<- Hc]].
      apply filter_In in Hc. destruct Hc as [Hc Hdev].
      exists c. split; [exact Hc|]. split; [|reflexivity].
      unfold is_deviation in Hdev. intros E. rewrite E in Hdev. discriminate.
    + intros [c [Hc [Hne ->]]].
      apply (Permutation_in _ (Permutation_sym (sort_perm key _))).
      apply in_map, filter_In. split; [exact Hc|].
      pose proof (proj1 (List.Forall_forall _ _) HF c Hc) as [_ [_ [Ht _]]].
      unfold is_deviation. destruct Ht as [E | [E | E]]; rewrite E;
        [contradiction | reflexivity | reflexivity].
  - intros i j d d' Hij Hi Hj Hd Hd'.
    pose proof (sorted_nth_error key _ i j d d' (sort_sorted key _) Hij Hi Hj)
      as Hle.
    unfold key_le, key in Hle. rewrite Hd, Hd' in Hle.
    vm_compute in Hle. lia.
  - intros tier Ht.
    rewrite (List.filter_ext _ (fun d => (key d =? severity_order tier)%nat))
      by (intros d; apply severity_order_tier, Ht).
    rewrite sort_stable.
    rewrite (List.filter_ext
               (fun d => (key d =? severity_order tier)%nat)
               (fun d => String.eqb (Discrepancy.severity d) tier))
      by (intros d; symmetry; apply severity_order_tier, Ht).
    apply filter_discrepancies_of_tier, Ht.
Qed.

End ReconciliationClaims.

Section LossTolerance.
Import csv_parser comparison_service.

(** A matched pair within the length tolerance: Compliant without a
    measurement, Minor Deviation with one, whatever was measured. *)
Lemma compare_cable_within_length_tolerance n p b o r :
  _compare_cable n p (Some b) o = Ok r ->
  abs (length_variance_pct r) <= LENGTH_TOLERANCE_PCT ->
  match o with
  | None => compliance_status r = "Compliant"
  | Some m =>
      compliance_status r = "Minor Deviation"
      /\ hd_error (remarks r) = Some "Loss variance detected"
      /\ measured_loss_db r = Some (OPMMeasurement.loss_db m)
      /\ loss_variance_db r = None
  end.
Proof.
  unfold _compare_cable.
  destruct (if Qlt_bool 0 (get_or (fiber_length_km p) 0)
            then let* q := truediv (get_or (fiber_length_km b) 0
                                    - get_or (fiber_length_km p) 0)
                                   (get_or (fiber_length_km p) 0) in
                 Ok (q * 100)
            else Ok 0) as [pct|e]; cbn [bind]; [|discriminate].
  destruct (Qle_bool (abs pct) LENGTH_TOLERANCE_PCT) eqn:E.
  - destruct o as [m|]; intros H _; injection H as <-; cbn.
    + destruct (negb _); cbn; auto.
    + reflexivity.
  - apply Qle_bool_false in E.
    destruct (Qle_bool (abs pct) (LENGTH_TOLERANCE_PCT * 2));
      intros H Hle; injection H as <-; cbn in Hle; lra.
Qed.

(** C2, at the failing input: cable C1, planned and built alike, with a
    measurement.  Whatever loss was measured, and so also a loss equal to
    any loss that could have been planned, the pair is a Minor Deviation
    with the remark of a loss variance, and no variance was computed.  So
    it is for every matched pair within the length tolerance that has a
    measurement; without a measurement the pair is Compliant. *)
Theorem measured_cable_is_never_compliant :
  (forall loss_db,
     exists r,
       _compare_cable "C1" cable_C1 (Some cable_C1)
                      (Some (measurement_C1 loss_db)) = Ok r
       /\ length_variance_pct r == 0
       /\ compliance_status r = "Minor Deviation"
       /\ remarks r = ["Loss variance detected"]
       /\ planned_loss_db r = None
       /\ loss_variance_db r = None)
  /\ (forall n p b o r,
        _compare_cable n p (Some b) o = Ok r ->
        abs (length_variance_pct r) <= LENGTH_TOLERANCE_PCT ->
        match o with
        | None => compliance_status r = "Compliant"
        | Some m =>
            compliance_status r = "Minor Deviation"
            /\ hd_error (remarks r) = Some "Loss variance detected"
            /\ measured_loss_db r = Some (OPMMeasurement.loss_db m)
            /\ loss_variance_db r = None
        end).
Proof.
  split.
  - intros loss_db. eexists. split; [reflexivity|]. cbn. repeat split.
  - exact compare_cable_within_length_tolerance.
Qed.

End LossTolerance.

Section KilometreBranch.
Import kml_parser.

Lemma replace_m_removes_m (s : string) :
  mem_char "m" (replace "m" "" s) = false.
Proof.
  unfold replace. induction s as [|a r IH]; [reflexivity|].
  cbn [replace_from startswith String.length Nat.sub].
  rewrite andb_true_r.
  destruct (Ascii.eqb_spec "m"%char a) as [<- | Hne].
  - exact IH.
  - cbn [mem_char]. rewrite IH, orb_false_r.
    apply Ascii.eqb_neq. congruence.
Qed.

Lemma lstrip_mem (c : ascii) (s : string) :
  mem_char c (lstrip s) = true -> mem_char c s = true.
Proof.
  unfold lstrip. induction s as [|a r IH]; [auto|].
  cbn [lstrip_by]. destruct (isspace a); [|auto].
  intros H. cbn [mem_char]. rewrite (IH H). apply orb_true_r.
Qed.

Lemma rstrip_mem (c : ascii) (s : string) :
  mem_char c (rstrip s) = true -> mem_char c s = true.
Proof.
  unfold rstrip. induction s as [|a r IH]; [auto|].
  cbn [rstrip_by]. destruct (rstrip_by isspace r) as [|b r'] eqn:E.
  - destruct (isspace a); [discriminate|].
    cbn [mem_char]. rewrite orb_false_r. intros ->. reflexivity.
  - cbn [mem_char] in *. destruct (Ascii.eqb a c); [reflexivity|].
    cbn [orb]. exact IH.
Qed.

Lemma contains_km_mem (s : string) :
  contains "km" s = true -> mem_char "m" s = true.
Proof.
  induction s as [|a r IH]; [discriminate|].
  cbn [contains]. intros H. apply orb_true_iff in H.
  cbn [mem_char]. destruct H as [H | H].
  - cbn [startswith] in H.
    destruct r as [|b r']; [now rewrite andb_false_r in H|].
    apply andb_true_iff in H. destruct H as [_ H].
    apply andb_true_iff in H. destruct H as [H _].
    apply Ascii.eqb_eq in H. subst b.
    cbn [mem_char]. rewrite Ascii.eqb_refl. cbn. apply orb_true_r.
  - rewrite (IH H). apply orb_true_r.
Qed.

(** The test for [km] comes after every [m] has been removed: it never
    succeeds. *)
Lemma km_test_never_succeeds (length_str : string) :
  contains "km"
    (strip (replace "m" "" (replace "meter" "" (lower length_str)))) = false.
Proof.
  destruct (contains "km" _) eqn:E; [|reflexivity].
  apply contains_km_mem in E. unfold strip in E.
  apply rstrip_mem, lstrip_mem in E.
  now rewrite replace_m_removes_m in E.
Qed.

(** So no length is ever multiplied by 1000. *)
Lemma parse_length_never_scales (length_str : string) :
  _parse_length length_str
  = match float (strip (replace "m" ""
                          (replace "meter" "" (lower length_str)))) with
    | Ok x => x
    | Raise _ => 0.0
    end.
Proof.
  unfold _parse_length. now rewrite km_test_never_succeeds.
Qed.

End KilometreBranch.

Section FiberLength.
Import kml_parser.

(** C3, at the failing input: the length [1.5km] parses to 0 meters, not
    to 1500, by itself and as the field of a cable; [123m] parses to 123.
    No length is ever multiplied by 1000: the test for [km] fails on every
    string. *)
Theorem parse_length_km_is_zero :
  _parse_length "1.5km" == 0
  /\ ~ _parse_length "1.5km" == 1500
  /\ _parse_length "123m" == 123
  /\ (exists cable,
        _parse_cable (cable_placemark "Kabel A" "1.5km") "Kabel A"
                     "Fiber Length: 1.5km" = Some cable
        /\ Cable.fiber_length cable == 0)
  /\ (forall length_str,
        contains "km"
          (strip (replace "m" "" (replace "meter" "" (lower length_str))))
        = false).
Proof.
  split; [reflexivity|]. split; [intros H; discriminate H|].
  split; [reflexivity|].
  split; [|exact km_test_never_succeeds].
  eexists. split; [vm_compute; reflexivity | reflexivity].
Qed.

End FiberLength.

Section ParserAccumulationFacts.
Import kml_parser.

Lemma entities_app_nil_r e : entities_app e no_entities = e.
Proof.
  destruct e. unfold entities_app. cbn. now rewrite !app_nil_r.
Qed.

Lemma entities_app_nil_l e : entities_app no_entities e = e.
Proof. destruct e. reflexivity. Qed.

Lemma entities_app_assoc a b c :
  entities_app (entities_app a b) c = entities_app a (entities_app b c).
Proof. unfold entities_app. cbn. now rewrite <- !app_assoc. Qed.

(** A cell that is written keeps every cell of another type in place. *)
Lemma lookup_insert_other (h : heap) (r r' : ref) (o o' new : pylist) :
  h !! r = Some o -> h !! r' = Some o' -> r <> r' ->
  <[r := new]> h !! r' = Some o'.
Proof.
  intros _ H' Hne. rewrite <- H'. apply list_lookup_insert_ne. exact Hne.
Qed.

Lemma lookup_insert_same (h : heap) (r : ref) (o new : pylist) :
  h !! r = Some o -> <[r := new]> h !! r = Some new.
Proof.
  intros H. apply list_lookup_insert_eq. eapply lookup_lt_Some. exact H.
Qed.

Ltac heap_cells :=
  repeat match goal with
  | |- _ /\ _ => split
  | H : ?h !! ?r = Some _ |- <[?r := _]> ?h !! ?r = Some _ =>
      apply (lookup_insert_same _ _ _ _ H)
  | H : ?h !! ?r = Some _, H' : ?h !! ?r' = Some _
    |- <[?r := _]> ?h !! ?r' = Some _ =>
      apply (lookup_insert_other _ _ _ _ _ _ H H'); congruence
  end.

Lemma append_pole_holds self h e x :
  holds self h e ->
  holds self (append_pole (self_poles self) x h)
        (entities_app e {| e_poles := [x]; e_odps := []; e_cables := [];
                           e_raw := [] |}).
Proof.
  intros (Hp & Ho & Hc & Hr). unfold append_pole, holds. rewrite Hp.
  cbn [entities_app e_poles e_odps e_cables e_raw]. rewrite !app_nil_r.
  heap_cells.
Qed.

Lemma append_odp_holds self h e x :
  holds self h e ->
  holds self (append_odp (self_odps self) x h)
        (entities_app e {| e_poles := []; e_odps := [x]; e_cables := [];
                           e_raw := [] |}).
Proof.
  intros (Hp & Ho & Hc & Hr). unfold append_odp, holds. rewrite Ho.
  cbn [entities_app e_poles e_odps e_cables e_raw]. rewrite !app_nil_r.
  heap_cells.
Qed.

Lemma append_cable_holds self h e x :
  holds self h e ->
  holds self (append_cable (self_cables self) x h)
        (entities_app e {| e_poles := []; e_odps := []; e_cables := [x];
                           e_raw := [] |}).
Proof.
  intros (Hp & Ho & Hc & Hr). unfold append_cable, holds. rewrite Hc.
  cbn [entities_app e_poles e_odps e_cables e_raw]. rewrite !app_nil_r.
  heap_cells.
Qed.

Lemma append_raw_holds self h e x :
  holds self h e ->
  holds self (append_raw (self_raw_placemarks self) x h)
        (entities_app e {| e_poles := []; e_odps := []; e_cables := [];
                           e_raw := [x] |}).
Proof.
  intros (Hp & Ho & Hc & Hr). unfold append_raw, holds. rewrite Hr.
  cbn [entities_app e_poles e_odps e_cables e_raw]. rewrite !app_nil_r.
  heap_cells.
Qed.

(** One placemark: the parser returns and has appended the entities of the
    placemark. *)
Lemma parse_placemark_appends self placemark h e :
  holds self h e ->
  exists h',
    _parse_placemark self placemark h = (h', Ok tt)
    /\ holds self h' (entities_app e (placemark_entities placemark)).
Proof.
  intros H.
  unfold _parse_placemark, try_except, _parse_placemark_body,
    placemark_entities.
  destruct (child_text (kml "name") "Unknown" placemark) as [name|];
    [destruct (child_text (kml "description") "" placemark)
       as [description|] |].
  2,3: (exists h; split; [reflexivity | now rewrite entities_app_nil_r]).
  unfold mbind, update, ret.
  destruct (_is_pole name description); cbn [negb andb].
  { destruct (_parse_pole placemark name description) as [x|];
      cbn [option_list].
    - eexists. split; [reflexivity|].
      pose proof (append_raw_holds self _ _
                    {| RawPlacemark.name := name;
                       RawPlacemark.description := description;
                       RawPlacemark.type := _determine_type name description |}
                    (append_pole_holds self h e x H)) as H2.
      rewrite entities_app_assoc in H2. exact H2.
    - eexists. split; [reflexivity|]. now apply append_raw_holds. }
  destruct (_is_odp name description); cbn [negb andb].
  { destruct (_parse_odp placemark name description) as [x|];
      cbn [option_list].
    - eexists. split; [reflexivity|].
      pose proof (append_raw_holds self _ _
                    {| RawPlacemark.name := name;
                       RawPlacemark.description := description;
                       RawPlacemark.type := _determine_type name description |}
                    (append_odp_holds self h e x H)) as H2.
      rewrite entities_app_assoc in H2. exact H2.
    - eexists. split; [reflexivity|]. now apply append_raw_holds. }
  destruct (_is_cable name description).
  { destruct (_parse_cable placemark name description) as [x|];
      cbn [option_list].
    - eexists. split; [reflexivity|].
      pose proof (append_raw_holds self _ _
                    {| RawPlacemark.name := name;
                       RawPlacemark.description := description;
                       RawPlacemark.type := _determine_type name description |}
                    (append_cable_holds self h e x H)) as H2.
      rewrite entities_app_assoc in H2. exact H2.
    - eexists. split; [reflexivity|]. now apply append_raw_holds. }
  eexists. split; [reflexivity|]. now apply append_raw_holds.
Qed.

Lemma for_each_placemark_appends self placemarks h e :
  holds self h e ->
  exists h',
    for_each placemarks (_parse_placemark self) h = (h', Ok tt)
    /\ holds self h'
         (entities_app e
            (fold_right (fun p acc => entities_app (placemark_entities p) acc)
                        no_entities placemarks)).
Proof.
  revert h e. induction placemarks as [|p ps IH]; intros h e H.
  - exists h. split; [reflexivity|]. cbn. now rewrite entities_app_nil_r.
  - destruct (parse_placemark_appends self p h e H) as [h1 [E1 H1]].
    destruct (IH h1 _ H1) as [h2 [E2 H2]].
    exists h2. split.
    + cbn [for_each]. unfold mbind at 1. rewrite E1. exact E2.
    + cbn [fold_right]. rewrite <- entities_app_assoc. exact H2.
Qed.

(** [parse_file] on a well-formed document returns the four lists of the
    parser, with the entities of the document appended to what they held. *)
Lemma parse_file_appends self root h e :
  holds self h e ->
  exists h',
    parse_file self (ET.WellFormed root) h = (h', Ok (snapshot_of self))
    /\ holds self h' (entities_app e (document_entities root)).
Proof.
  intros H.
  destruct (for_each_placemark_appends
              self (ET.findall_descendants (kml "Placemark") root) h e H)
    as [h' [E H']].
  exists h'. split; [|exact H'].
  unfold parse_file, try_except, mbind, lift, ET.parse.
  rewrite E. reflexivity.
Qed.

(** A new list object is read at its reference and leaves the others
    alone. *)
Lemma alloc_new (o : pylist) (h : heap) :
  fst (alloc o h) !! snd (alloc o h) = Some o.
Proof. unfold alloc. cbn. now apply list_lookup_middle. Qed.

Lemma alloc_old (o o' : pylist) (h : heap) (r : ref) :
  h !! r = Some o' -> fst (alloc o h) !! r = Some o'.
Proof. intros H. unfold alloc. cbn. now apply lookup_app_l_Some. Qed.

(** A new parser holds nothing. *)
Lemma init_holds h :
  exists h' self, __init__ h = (h', Ok self) /\ holds self h' no_entities.
Proof.
  eexists. eexists. split; [reflexivity|].
  unfold holds, no_entities.
  cbn [self_poles self_odps self_cables self_raw_placemarks
       e_poles e_odps e_cables e_raw].
  repeat split.
  - do 3 apply alloc_old. apply alloc_new.
  - do 2 apply alloc_old. apply alloc_new.
  - apply alloc_old. apply alloc_new.
  - apply alloc_new.
Qed.

Lemma holds_reads self h e :
  holds self h e -> reads h (snapshot_of self) = e.
Proof.
  intros (Hp & Ho & Hc & Hr). destruct e.
  unfold reads, get_poles, get_odps, get_cables, get_raw. cbn in *.
  now rewrite Hp, Ho, Hc, Hr.
Qed.

(** The second of two runs on one parser returns the entities of both
    documents, and so, now, does the first. *)
Lemma parse_twice_accumulates root1 root2 :
  exists h first second,
    parse_twice (ET.WellFormed root1) (ET.WellFormed root2) []
    = (h, Ok (first, second))
    /\ first = second
    /\ reads h second
       = entities_app (document_entities root1) (document_entities root2).
Proof.
  destruct (init_holds []) as [h0 [self [E0 H0]]].
  destruct (parse_file_appends self root1 h0 _ H0) as [h1 [E1 H1]].
  destruct (parse_file_appends self root2 h1 _ H1) as [h2 [E2 H2]].
  rewrite entities_app_nil_l in H1, H2.
  exists h2, (snapshot_of self), (snapshot_of self).
  split.
  { unfold parse_twice, mbind in *. rewrite E0, E1, E2. reflexivity. }
  split; [reflexivity|]. exact (holds_reads self h2 _ H2).
Qed.

(** A fresh parser returns the entities of its document. *)
Lemma parse_fresh_reads root :
  exists h snapshot,
    parse_fresh (ET.WellFormed root) [] = (h, Ok snapshot)
    /\ reads h snapshot = document_entities root.
Proof.
  destruct (init_holds []) as [h0 [self [E0 H0]]].
  destruct (parse_file_appends self root h0 _ H0) as [h1 [E1 H1]].
  rewrite entities_app_nil_l in H1.
  exists h1, (snapshot_of self).
  split.
  { unfold parse_fresh, mbind in *. rewrite E0, E1. reflexivity. }
  exact (holds_reads self h1 _ H1).
Qed.

(** C1, at the failing input: a parser that has parsed the plan returns,
    for what was built, a snapshot with the cable of the plan in it, where a
    fresh parser returns the one cable that was built; the snapshot of the
    first run is the same list object and has both cables too.  In general
    the second of two runs on one parser returns the entities of both
    documents, a fresh parser those of its document. *)
Theorem reused_parser_keeps_earlier_entities :
  (exists h first second,
     parse_twice planned_document built_document [] = (h, Ok (first, second))
     /\ map Cable.name (get_cables h (cables second))
        = ["Kabel C2"; "Kabel C3"]
     /\ map Cable.name (get_cables h (cables first))
        = ["Kabel C2"; "Kabel C3"]
     /\ List.length (get_raw h (raw_placemarks second)) = 2%nat)
  /\ (exists h snapshot,
        parse_fresh built_document [] = (h, Ok snapshot)
        /\ map Cable.name (get_cables h (cables snapshot)) = ["Kabel C3"]
        /\ List.length (get_raw h (raw_placemarks snapshot)) = 1%nat)
  /\ (forall root1 root2,
        exists h first second,
          parse_twice (ET.WellFormed root1) (ET.WellFormed root2) []
          = (h, Ok (first, second))
          /\ first = second
          /\ reads h second
             = entities_app (document_entities root1)
                            (document_entities root2))
  /\ (forall root,
        exists h snapshot,
          parse_fresh (ET.WellFormed root) [] = (h, Ok snapshot)
          /\ reads h snapshot = document_entities root).
Proof.
  split; [|split; [|split]].
  - eexists. eexists. eexists.
    split; [vm_compute; reflexivity|]. repeat split.
  - eexists. eexists.
    split; [vm_compute; reflexivity|]. repeat split.
  - exact parse_twice_accumulates.
  - exact parse_fresh_reads.
Qed.

End ParserAccumulationFacts.

Section CompareEndpoint.
Import csv_parser kml_parser comparison_service comparison_api.

(** The effect on the endpoint: cable C2, planned and never built, is
    compared with itself and found Compliant, where the comparator, given
    the two snapshots, reports it as not built. *)
Lemma compare_endpoint_misses_unbuilt_cable :
  (exists h r,
     compare_planned_vs_built planned_document built_document [] []
     = (h, Ok r)
     /\ map (fun c => (cable_id c, built_status c, compliance_status c))
            (cable_comparisons r)
        = [("Kabel C2", "Unknown", "Compliant");
           ("Kabel C3", "Unknown", "Major Deviation")])
  /\ (exists h1 planned h2 built r,
        mbind (parse_fresh planned_document) cables_dict [] = (h1, Ok planned)
        /\ mbind (parse_fresh built_document) cables_dict [] = (h2, Ok built)
        /\ compare_networks planned built None = Ok r
        /\ map (fun c => (cable_id c, built_status c, compliance_status c))
               (cable_comparisons r)
           = [("Kabel C2", "Not Built", "Major Deviation");
              ("Kabel C3", "Unknown", "Major Deviation")]).
Proof.
  split.
  - eexists. eexists. split; [vm_compute; reflexivity|]. reflexivity.
  - eexists. eexists. eexists. eexists. eexists.
    split; [vm_compute; reflexivity|].
    split; [vm_compute; reflexivity|].
    split; [vm_compute; reflexivity|]. reflexivity.
Qed.

End CompareEndpoint.

(* ================================================================== *)
(** * Further properties *)
(* ================================================================== *)

(** ** The link-budget engine *)

Section RoundingError.

Lemma round_half_even_error (y : Q) :
  - (1 # 2) <= inject_Z (round_half_even y) - y
  /\ inject_Z (round_half_even y) - y <= 1 # 2.
Proof.
  pose proof (Qfloor_le y) as Hlo. pose proof (Qlt_floor y) as Hhi.
  rewrite inject_Z_plus in Hhi. change (inject_Z 1) with 1 in Hhi.
  unfold round_half_even.
  destruct (Qlt_bool (y - inject_Z (Qfloor y)) (1 # 2)) eqn:E1.
  - apply Qlt_bool_true in E1. lra.
  - apply Qlt_bool_false in E1.
    assert (Hup : - (1 # 2) <= inject_Z (Qfloor y + 1) - y
                  /\ inject_Z (Qfloor y + 1) - y <= 1 # 2).
    { rewrite inject_Z_plus. change (inject_Z 1) with 1. lra. }
    destruct (Qlt_bool (1 # 2) (y - inject_Z (Qfloor y))) eqn:E2;
      [exact Hup|].
    apply Qlt_bool_false in E2.
    destruct (Z.even (Qfloor y)); [lra | exact Hup].
Qed.

(** Rounding to two decimals moves a value by half a hundredth at most. *)
Lemma round2_error (x : Q) :
  - (1 # 200) <= round x 2 - x /\ round x 2 - x <= 1 # 200.
Proof.
  unfold round. change (inject_Z (10 ^ Z.of_nat 2)) with 100.
  destruct (round_half_even_error (x * 100)) as [H1 H2].
  set (n := inject_Z (round_half_even (x * 100))) in *.
  assert (E : n / 100 == n * (1 # 100)) by field.
  rewrite E. lra.
Qed.




End RoundingError.

Section LinkBudgetExtras.
Import opm_calculator.

(** The score against both of its moving arguments: less loss and more
    margin never lower it. *)
Lemma quality_score_mono2 (pb tl1 tl2 m1 m2 : Q) :
  tl1 <= tl2 -> m2 <= m1 ->
  exists s1 s2,
    _calculate_quality_score pb tl1 m1 = Ok s1
    /\ _calculate_quality_score pb tl2 m2 = Ok s2
    /\ s2 <= s1.
Proof.
  intros Htl Hm.
  destruct (Qlt_le_dec 0 pb) as [Hpb | Hpb].
  - rewrite !quality_score_positive_budget by assumption.
    eexists. eexists. split; [reflexivity|]. split; [reflexivity|].
    apply max_mono_r, min_mono_r.
    assert (E : forall m, m / 10 * 60 == m * 6) by (intros m; field).
    assert (Hr : tl1 / pb <= tl2 / pb).
    { apply Qmult_le_compat_r; [exact Htl|].
      apply Qlt_le_weak, Qinv_lt_0_compat, Hpb. }
    apply Qplus_le_compat.
    + apply Qmult_le_compat_r; [|discriminate].
      apply max_mono_r. lra.
    + apply min_mono_r, max_mono_r. rewrite !E. lra.
  - rewrite !quality_score_no_budget by assumption.
    eexists. eexists. split; [reflexivity|]. split; [reflexivity|]. lra.
Qed.

(** X1: The score is 100 only for a link without loss and with 10 dB of margin
    or more. *)
Theorem quality_score_perfect_iff (pb tl m : Q) :
  0 < pb -> 0 <= tl ->
  exists s,
    _calculate_quality_score pb tl m = Ok s
    /\ (s == 100 <-> tl == 0 /\ 10 <= m).
Proof.
  intros Hpb Htl.
  rewrite quality_score_positive_budget by assumption.
  eexists. split; [reflexivity|].
  assert (E : m / 10 * 60 == m * 6) by field.
  assert (Hr : 0 <= tl / pb) by (apply Qle_shift_div_l; lra).
  assert (Hz : tl / pb == 0 <-> tl == 0).
  { split; intros H.
    - assert (E2 : tl / pb * pb == tl) by (field; lra).
      rewrite <- E2, H. lra.
    - rewrite H. field. lra. }
  set (r := tl / pb) in *.
  assert (HL : 0 <= max 0 (1 - r) * 40 /\ max 0 (1 - r) * 40 <= 40
               /\ (max 0 (1 - r) * 40 == 40 <-> r == 0)).
  { destruct (max_cases 0 (1 - r)) as [[H1 ->] | [H1 ->]];
      (split; [lra | split; [lra | split; intros H; lra]]). }
  assert (HM : 0 <= min 60 (max 0 (m / 10 * 60))
               /\ min 60 (max 0 (m / 10 * 60)) <= 60
               /\ (min 60 (max 0 (m / 10 * 60)) == 60 <-> 10 <= m)).
  { destruct (max_cases 0 (m / 10 * 60)) as [[H2 ->] | [H2 ->]];
      [destruct (min_cases 60 (m / 10 * 60)) as [[H3 ->] | [H3 ->]]
      |destruct (min_cases 60 0) as [[H3 ->] | [H3 ->]]];
      rewrite ?E in *;
      (split; [lra | split; [lra | split; intros H; lra]]). }
  set (L := max 0 (1 - r) * 40) in *.
  set (M := min 60 (max 0 (m / 10 * 60))) in *.
  destruct HL as (HL0 & HL1 & HL2). destruct HM as (HM0 & HM1 & HM2).
  rewrite <- Hz, <- HL2, <- HM2.
  destruct (min_cases 100 (L + M)) as [[H4 ->] | [H4 ->]];
    [destruct (max_cases 0 (L + M)) as [[H5 ->] | [H5 ->]]
    |destruct (max_cases 0 100) as [[H5 ->] | [H5 ->]]];
    (split; [intros H; split; lra | intros [H H']; lra]).
Qed.

Lemma quality_score_perfect_iff_witness :
  0 < 31 /\ 0 <= 0 /\
  exists s,
    _calculate_quality_score 31 0 12 = Ok s
    /\ (s == 100 <-> 0 == 0 /\ 10 <= 12).
Proof.
  split; [reflexivity|]. split; [discriminate|].
  apply (quality_score_perfect_iff 31 0 12); [reflexivity | discriminate].
Defined.

End LinkBudgetExtras.

Section LinkBudgetResults.
Import opm_calculator.

(** The result of [calculate_power_budget], field by field. *)
Lemma calculate_power_budget_fields o l s :
  exists r q,
    calculate_power_budget o l s = Ok r
    /\ _calculate_quality_score (exact_power_budget o) (exact_total_loss l s)
                                (exact_margin o l s) = Ok q
    /\ power_budget r = round (exact_power_budget o) 2
    /\ total_loss r = round (exact_total_loss l s) 2
    /\ available_margin r = round (exact_margin o l s) 2
    /\ status r = _determine_status (exact_margin o l s)
    /\ quality_score r = round q 2
    /\ splice_loss_db (loss_breakdown (details r))
       = round (inject_Z (splice_count s) * splice_loss l) 2
    /\ fiber_loss_db (loss_breakdown (details r))
       = round (fiber_length_km s * fiber_loss_per_km l) 2.
Proof.
  destruct (quality_score_total (exact_power_budget o) (exact_total_loss l s)
                                (exact_margin o l s)) as [q [Hq _]].
  unfold calculate_power_budget.
  fold (exact_power_budget o). fold (exact_total_loss l s).
  fold (exact_margin o l s).
  rewrite Hq. cbn [bind].
  eexists. exists q. split; [reflexivity|]. split; [reflexivity|].
  cbn. repeat split.
Qed.

Lemma determine_status_cases (m : Q) :
  (3 <= m /\ _determine_status m = "OK")
  \/ (0 <= m /\ m < 3 /\ _determine_status m = "Warning")
  \/ (m < 0 /\ _determine_status m = "Critical").
Proof.
  unfold _determine_status.
  destruct (Qle_bool 3.0 m) eqn:E1.
  - left. apply Qle_bool_iff in E1. split; [lra | reflexivity].
  - apply Qle_bool_false in E1. right.
    destruct (Qle_bool 0 m) eqn:E2.
    + left. apply Qle_bool_iff in E2. repeat split; lra.
    + right. apply Qle_bool_false in E2. split; [lra | reflexivity].
Qed.

(** X2: The reported margin is the exact one to half a hundredth, and the
    status, decided before the rounding, still agrees with it: an OK link
    reports 3 dB or more, a Warning link between 0 and 3 dB, a Critical
    link 0 dB or less. *)
Theorem reported_margin_agrees_with_status o l s :
  exists r,
    calculate_power_budget o l s = Ok r
    /\ - (1 # 200) <= available_margin r - exact_margin o l s
    /\ available_margin r - exact_margin o l s <= 1 # 200
    /\ ((status r = "OK" /\ 3 <= available_margin r)
        \/ (status r = "Warning"
            /\ 0 <= available_margin r /\ available_margin r <= 3)
        \/ (status r = "Critical" /\ available_margin r <= 0)).
Proof.
  destruct (calculate_power_budget_fields o l s)
    as (r & q & Hr & _ & _ & _ & Hm & Hs & _).
  exists r. split; [exact Hr|]. rewrite Hm, Hs.
  destruct (round2_error (exact_margin o l s)) as [E1 E2].
  split; [exact E1|]. split; [exact E2|].
  assert (R3 : round 3 2 == 3) by reflexivity.
  assert (R0 : round 0 2 == 0) by reflexivity.
  destruct (determine_status_cases (exact_margin o l s))
    as [[H ->] | [(H1 & H2 & ->) | [H ->]]].
  - left. split; [reflexivity|].
    rewrite <- R3. apply round_mono, H.
  - right. left. split; [reflexivity|]. split.
    + rewrite <- R0. apply round_mono, H1.
    + rewrite <- R3. apply round_mono. lra.
  - right. right. split; [reflexivity|].
    rewrite <- R0. apply round_mono. lra.
Qed.


End LinkBudgetResults.

Section LinkBudgetOrder.
Import opm_calculator.

Lemma inject_Z_nonneg (z : Z) : (0 <= z)%Z -> 0 <= inject_Z z.
Proof. intros H. change 0 with (inject_Z 0). now rewrite <- Zle_Qle. Qed.

Lemma inject_Z_le (a b : Z) : (a <= b)%Z -> inject_Z a <= inject_Z b.
Proof. intros H. now rewrite <- Zle_Qle. Qed.

Lemma exact_total_loss_nonneg l s :
  loss_in_range l -> segment_in_range s -> 0 <= exact_total_loss l s.
Proof.
  intros (Hf & Hs & Hc & _) (Hl & Hsc & Hcc). unfold exact_total_loss.
  apply inject_Z_nonneg in Hsc, Hcc.
  pose proof (Qmult_le_0_compat _ _ Hl Hf).
  pose proof (Qmult_le_0_compat _ _ Hsc Hs).
  pose proof (Qmult_le_0_compat _ _ Hcc Hc).
  lra.
Qed.

Lemma exact_total_loss_mono l s1 s2 :
  loss_in_range l -> segment_le s1 s2 ->
  exact_total_loss l s1 <= exact_total_loss l s2.
Proof.
  intros (Hf & Hs & Hc & _) (Hl & Hsc & Hcc). unfold exact_total_loss.
  apply inject_Z_le in Hsc, Hcc.
  pose proof (Qmult_le_compat_r _ _ _ Hl Hf).
  pose proof (Qmult_le_compat_r _ _ _ Hsc Hs).
  pose proof (Qmult_le_compat_r _ _ _ Hcc Hc).
  lra.
Qed.

(** X4: More fibre, splices or connectors never help: the reported loss does
    not fall, the reported margin and quality score do not rise. *)
Theorem more_loss_never_helps o l s1 s2 :
  loss_in_range l -> segment_le s1 s2 ->
  exists r1 r2,
    calculate_power_budget o l s1 = Ok r1
    /\ calculate_power_budget o l s2 = Ok r2
    /\ total_loss r1 <= total_loss r2
    /\ available_margin r2 <= available_margin r1
    /\ quality_score r2 <= quality_score r1.
Proof.
  intros Hl Hle.
  pose proof (exact_total_loss_mono l s1 s2 Hl Hle) as Htl.
  destruct (calculate_power_budget_fields o l s1)
    as (r1 & q1 & Hr1 & Hq1 & _ & Ht1 & Hm1 & _ & Hs1 & _).
  destruct (calculate_power_budget_fields o l s2)
    as (r2 & q2 & Hr2 & Hq2 & _ & Ht2 & Hm2 & _ & Hs2 & _).
  exists r1, r2. split; [exact Hr1|]. split; [exact Hr2|].
  rewrite Ht1, Ht2, Hm1, Hm2, Hs1, Hs2.
  assert (Hm : exact_margin o l s2 <= exact_margin o l s1)
    by (unfold exact_margin; lra).
  split; [apply round_mono, Htl|]. split; [apply round_mono, Hm|].
  apply round_mono.
  destruct (quality_score_mono2 (exact_power_budget o) _ _ _ _ Htl Hm)
    as (q1' & q2' & E1 & E2 & Hq).
  congruence.
Qed.

Lemma more_loss_never_helps_witness :
  loss_in_range LossParameters_default
  /\ segment_le scenario_segment
                {| fiber_length_km := 50; splice_count := 5;
                   connector_count := 2; name := "Segment" |}
  /\ exists r1 r2,
       calculate_power_budget scenario_optical LossParameters_default
                              scenario_segment = Ok r1
       /\ calculate_power_budget
            scenario_optical LossParameters_default
            {| fiber_length_km := 50; splice_count := 5;
               connector_count := 2; name := "Segment" |} = Ok r2
       /\ total_loss r1 <= total_loss r2
       /\ available_margin r2 <= available_margin r1
       /\ quality_score r2 <= quality_score r1.
Proof.
  assert (H1 : loss_in_range LossParameters_default)
    by (repeat split; discriminate).
  assert (H2 : segment_le scenario_segment
                          {| fiber_length_km := 50; splice_count := 5;
                             connector_count := 2; name := "Segment" |})
    by (repeat split; cbn; try lia; discriminate).
  split; [exact H1|]. split; [exact H2|].
  apply (more_loss_never_helps scenario_optical LossParameters_default
           scenario_segment _ H1 H2).
Defined.

(** X5: More splices or connectors never lengthen the reach. *)
Theorem max_distance_shrinks_with_fixed_losses
    o l (sc1 sc2 cc1 cc2 : Z) :
  0 < fiber_loss_per_km l -> 0 <= splice_loss l -> 0 <= connector_loss l ->
  (sc1 <= sc2)%Z -> (cc1 <= cc2)%Z ->
  exists d1 d2,
    calculate_max_distance o l sc1 cc1 = Ok d1
    /\ calculate_max_distance o l sc2 cc2 = Ok d2
    /\ d2 <= d1.
Proof.
  intros Hf Hs Hc Hsc Hcc. unfold calculate_max_distance.
  rewrite !truediv_ok by lra. cbn [bind].
  eexists. eexists. split; [reflexivity|]. split; [reflexivity|].
  apply max_mono_r.
  apply Qmult_le_compat_r;
    [|apply Qlt_le_weak, Qinv_lt_0_compat, Hf].
  apply inject_Z_le in Hsc, Hcc.
  pose proof (Qmult_le_compat_r _ _ _ Hsc Hs).
  pose proof (Qmult_le_compat_r _ _ _ Hcc Hc).
  lra.
Qed.

Lemma max_distance_shrinks_with_fixed_losses_witness :
  0 < fiber_loss_per_km LossParameters_default
  /\ 0 <= splice_loss LossParameters_default
  /\ 0 <= connector_loss LossParameters_default
  /\ (0 <= 5)%Z /\ (2 <= 4)%Z
  /\ exists d1 d2,
       calculate_max_distance scenario_optical LossParameters_default 0 2
       = Ok d1
       /\ calculate_max_distance scenario_optical LossParameters_default 5 4
          = Ok d2
       /\ d2 <= d1.
Proof.
  split; [reflexivity|]. split; [discriminate|]. split; [discriminate|].
  split; [lia|]. split; [lia|].
  apply (max_distance_shrinks_with_fixed_losses
           scenario_optical LossParameters_default 0 5 2 4);
    [reflexivity | discriminate | discriminate | lia | lia].
Defined.

(** Below a margin of 3 dB the score cannot pass 58. *)
Lemma weak_margin_score (pb tl m s : Q) :
  0 <= tl -> m < 3 -> _calculate_quality_score pb tl m = Ok s -> s <= 58.
Proof.
  intros Htl Hm Hs.
  destruct (Qlt_le_dec 0 pb) as [Hpb | Hpb].
  - rewrite quality_score_positive_budget in Hs by assumption.
    injection Hs as <-.
    assert (E : m / 10 * 60 == m * 6) by field.
    assert (Hr : 0 <= tl / pb) by (apply Qle_shift_div_l; lra).
    assert (HL : max 0 (1 - tl / pb) * 40 <= 40).
    { destruct (max_cases 0 (1 - tl / pb)) as [[H1 ->] | [H1 ->]]; lra. }
    assert (HM : min 60 (max 0 (m / 10 * 60)) <= 18).
    { eapply Qle_trans; [apply min_mono_r with (b' := 18)|].
      - apply max_upper; [discriminate | lra].
      - destruct (min_cases 60 18) as [[H1 ->] | [H1 ->]]; lra. }
    apply max_upper; [discriminate|].
    eapply Qle_trans; [apply min_mono_r with (b' := 58); lra|].
    destruct (min_cases 100 58) as [[H1 ->] | [H1 ->]]; lra.
  - rewrite quality_score_no_budget in Hs by assumption.
    injection Hs as <-. discriminate.
Qed.

(** X6: A link that is not OK scores 58 at most, so that the advice to optimise
    the route, given below a score of 70, is always part of its
    recommendations; the recommendations of an OK link start with the
    notice that the link is good. *)
Theorem weak_link_gets_route_advice o l s :
  loss_in_range l -> segment_in_range s ->
  exists r,
    calculate_power_budget o l s = Ok r
    /\ (status r <> "OK" ->
        quality_score r <= 58 /\ In route_advice (get_recommendations r))
    /\ (status r = "OK" ->
        hd_error (get_recommendations r) = Some "✅ Link quality is good").
Proof.
  intros Hl Hseg.
  pose proof (exact_total_loss_nonneg l s Hl Hseg) as Htl.
  destruct (calculate_power_budget_fields o l s)
    as (r & q & Hr & Hq & _ & _ & _ & Hs & Hqs & _).
  exists r. split; [exact Hr|]. split.
  - intros Hne.
    assert (Hm : exact_margin o l s < 3).
    { destruct (determine_status_cases (exact_margin o l s))
        as [[_ E] | [(_ & H & _) | [H _]]]; [congruence | lra | lra]. }
    assert (Hq58 : quality_score r <= 58).
    { rewrite Hqs. apply (Qle_trans _ (round 58 2)); [|discriminate].
      apply round_mono. eapply weak_margin_score; eassumption. }
    split; [exact Hq58|].
    unfold get_recommendations. rewrite !in_app_iff. right. right.
    assert (E : Qlt_bool (quality_score r) 70 = true)
      by (apply Qlt_bool_true; lra).
    rewrite E. left. reflexivity.
  - intros Hok. unfold get_recommendations. rewrite Hok. reflexivity.
Qed.

Lemma weak_link_gets_route_advice_witness :
  loss_in_range LossParameters_default
  /\ segment_in_range {| fiber_length_km := 70; splice_count := 5;
                         connector_count := 2; name := "Segment" |}
  /\ exists r,
       calculate_power_budget
         scenario_optical LossParameters_default
         {| fiber_length_km := 70; splice_count := 5;
            connector_count := 2; name := "Segment" |} = Ok r
       /\ (status r <> "OK" ->
           quality_score r <= 58 /\ In route_advice (get_recommendations r))
       /\ (status r = "OK" ->
           hd_error (get_recommendations r)
           = Some "✅ Link quality is good").
Proof.
  assert (H1 : loss_in_range LossParameters_default)
    by (repeat split; discriminate).
  assert (H2 : segment_in_range
                 {| fiber_length_km := 70; splice_count := 5;
                    connector_count := 2; name := "Segment" |})
    by (repeat split; cbn; try lia; discriminate).
  split; [exact H1|]. split; [exact H2|].
  apply (weak_link_gets_route_advice scenario_optical
           LossParameters_default _ H1 H2).
Defined.

End LinkBudgetOrder.

(** ** The endpoints of the link-budget engine *)

Section Sums.
Context {A : Type} (f : A -> Q).

Lemma inject_Z_of_nat_S (n : nat) :
  inject_Z (Z.of_nat (S n)) == inject_Z (Z.of_nat n) + 1.
Proof. rewrite Nat2Z.inj_succ, <- Z.add_1_r, inject_Z_plus. reflexivity. Qed.

(** A sum of values between 0 and 100. *)
Lemma fold_sum_bounds (l : list A) (acc : Q) :
  Forall (fun x => 0 <= f x /\ f x <= 100) l ->
  acc <= fold_left (fun a x => a + f x) l acc
  /\ fold_left (fun a x => a + f x) l acc
     <= acc + 100 * inject_Z (Z.of_nat (List.length l)).
Proof.
  intros H. revert acc. induction H as [|x l [H0 H1] _ IH]; intros acc.
  - cbn [fold_left List.length]. change (inject_Z (Z.of_nat 0)) with 0.
    split; lra.
  - cbn [fold_left List.length]. destruct (IH (acc + f x)) as [IH1 IH2].
    rewrite inject_Z_of_nat_S. split; lra.
Qed.

End Sums.

Section ListFacts.

(** Where every element is in one of three classes that exclude each
    other, the three counts add up to the length. *)
Lemma filter_partition3 {A : Type} (p1 p2 p3 : A -> bool) (l : list A) :
  Forall (fun x => (p1 x = true /\ p2 x = false /\ p3 x = false)
                   \/ (p1 x = false /\ p2 x = true /\ p3 x = false)
                   \/ (p1 x = false /\ p2 x = false /\ p3 x = true)) l ->
  (List.length (List.filter p1 l) + List.length (List.filter p2 l)
   + List.length (List.filter p3 l) = List.length l)%nat.
Proof.
  induction 1 as [|x l Hx _ IH]; [reflexivity|].
  cbn [List.filter].
  destruct Hx as [(-> & -> & ->) | [(-> & -> & ->) | (-> & -> & ->)]];
    cbn [List.length]; lia.
Qed.

End ListFacts.

Section EndpointFacts.
Import opm_calculator.

(** What every result of [calculate_power_budget] satisfies. *)
Lemma calculate_power_budget_result o l s r :
  calculate_power_budget o l s = Ok r ->
  is_link_status (status r)
  /\ 0 <= quality_score r /\ quality_score r <= 100
  /\ segment_name (details r) = name s
  /\ sd_splice_count (segment_details (details r)) = splice_count s
  /\ sd_connector_count (segment_details (details r)) = connector_count s.
Proof.
  intros Hr.
  destruct (quality_score_total (exact_power_budget o) (exact_total_loss l s)
                                (exact_margin o l s)) as (q & Hq & Hq0 & Hq1).
  unfold calculate_power_budget in Hr.
  fold (exact_power_budget o) in Hr. fold (exact_total_loss l s) in Hr.
  fold (exact_margin o l s) in Hr.
  rewrite Hq in Hr. cbn [bind] in Hr. injection Hr as <-.
  cbn [status quality_score details segment_name segment_details
       sd_splice_count sd_connector_count].
  split.
  { unfold is_link_status.
    destruct (determine_status_cases (exact_margin o l s))
      as [[_ ->] | [(_ & _ & ->) | [_ ->]]]; auto. }
  split.
  { apply (Qle_trans _ (round 0 2)); [discriminate|]. now apply round_mono. }
  split.
  { apply (Qle_trans _ (round 100 2)); [|discriminate]. now apply round_mono. }
  repeat split.
Qed.

(** The batch is the single computation, segment by segment and in
    order. *)
Lemma analyze_multiple_segments_each o l segments :
  exists results,
    analyze_multiple_segments o l segments = Ok results
    /\ Forall2 (fun s r => calculate_power_budget o l s = Ok r)
               segments results.
Proof.
  induction segments as [|s segments (results & E & F)].
  - exists []. split; [reflexivity | constructor].
  - destruct (calculate_power_budget_total o l s) as [r Hr].
    exists (r :: results). split.
    + cbn [analyze_multiple_segments]. rewrite Hr. cbn [bind].
      rewrite E. reflexivity.
    + constructor; assumption.
Qed.

End EndpointFacts.

Section AnalysisEndpoints.
Import opm_calculator analysis_api.

Lemma optical_of_known o :
  known_optical o = true ->
  exists w f,
    optical_of o = Ok {| tx_power := req_tx_power o;
                         rx_sensitivity := req_rx_sensitivity o;
                         wavelength := w; fiber_type := f |}.
Proof.
  unfold known_optical, optical_of, WavelengthType_of, FiberType_of.
  intros H. apply andb_true_iff in H. destruct H as [Hw Hf].
  destruct (String.eqb (req_wavelength o) "1310nm");
    [|cbn [orb] in Hw; rewrite Hw];
    (destruct (String.eqb (req_fiber_type o) "single_mode");
     [|cbn [orb] in Hf; rewrite Hf]);
    cbn [bind]; eexists; eexists; reflexivity.
Qed.

Lemma optical_of_unknown o :
  known_optical o = false -> optical_of o = Raise ValueError.
Proof.
  unfold known_optical, optical_of, WavelengthType_of, FiberType_of.
  intros H.
  destruct (String.eqb (req_wavelength o) "1310nm");
    destruct (String.eqb (req_wavelength o) "1550nm");
    destruct (String.eqb (req_fiber_type o) "single_mode");
    destruct (String.eqb (req_fiber_type o) "multi_mode");
    cbn in H; try discriminate H; reflexivity.
Qed.

(** The average of scores between 0 and 100. *)
Lemma mean_quality_bounds (results : list CalculationResult) (a : Q) :
  Forall (fun r => 0 <= quality_score r /\ quality_score r <= 100) results ->
  (if (0 <? Z.of_nat (List.length results))%Z
   then truediv (sum_quality results)
                (inject_Z (Z.of_nat (List.length results)))
   else Ok 0) = Ok a ->
  0 <= a /\ a <= 100.
Proof.
  intros HF Ha.
  destruct (0 <? Z.of_nat (List.length results))%Z eqn:E.
  - apply Z.ltb_lt in E.
    assert (Hn : 0 < inject_Z (Z.of_nat (List.length results))).
    { change 0 with (inject_Z 0). now rewrite <- Zlt_Qlt. }
    rewrite truediv_ok in Ha by lra. injection Ha as <-.
    destruct (fold_sum_bounds quality_score results 0 HF) as [H0 H1].
    fold (sum_quality results) in H0, H1.
    split.
    + apply Qle_shift_div_l; [exact Hn | lra].
    + apply Qle_shift_div_r; [exact Hn | lra].
  - injection Ha as <-. split; discriminate.
Qed.

Lemma analyze_multi_segment_shape optical loss segments :
  known_optical optical = true ->
  exists summary entries,
    analyze_multi_segment optical loss segments = Ok (summary, entries)
    /\ total_segments summary = Z.of_nat (List.length segments)
    /\ (ok_count summary + warning_count summary + critical_count summary
        = total_segments summary)%Z
    /\ 0 <= average_quality_score summary
    /\ average_quality_score summary <= 100
    /\ map (fun e => segment_name (details (fst e))) entries
       = map req_name segments
    /\ Forall (fun e => snd e = get_recommendations (fst e)) entries.
Proof.
  intros Hk. destruct (optical_of_known optical Hk) as (w & f & Ho).
  unfold analyze_multi_segment. rewrite Ho. cbn [bind].
  match goal with
  | |- context [analyze_multiple_segments ?o ?l ?s] =>
      destruct (analyze_multiple_segments_each o l s) as (results & E & HF);
      set (op := o) in *
  end.
  rewrite E. cbn [bind].
  assert (Hall : Forall (fun r =>
                           is_link_status (status r)
                           /\ 0 <= quality_score r
                           /\ quality_score r <= 100) results).
  { clear E. induction HF as [|s r ss rs H _ IH]; constructor; [|exact IH].
    destruct (calculate_power_budget_result _ _ _ _ H) as (H1 & H2 & H3 & _).
    auto. }
  assert (Hlen : List.length results = List.length segments).
  { apply Forall2_length in HF. now rewrite length_map in HF. }
  assert (Hnames : map (fun r => segment_name (details r)) results
                   = map req_name segments).
  { clear E Hall Hlen. revert results HF.
    induction segments as [|s segments IH]; intros results HF;
      inversion HF as [|? r ? rs H HF']; subst; [reflexivity|].
    cbn [map]. rewrite (IH _ HF').
    destruct (calculate_power_budget_result _ _ _ _ H) as (_ & _ & _ & -> & _).
    reflexivity. }
  destruct (if (0 <? Z.of_nat (List.length results))%Z
            then truediv (sum_quality results)
                         (inject_Z (Z.of_nat (List.length results)))
            else Ok 0) as [a|e] eqn:Ea.
  2:{ exfalso. destruct (0 <? Z.of_nat (List.length results))%Z eqn:E0;
        [|discriminate Ea].
      apply Z.ltb_lt in E0. rewrite truediv_ok in Ea; [discriminate Ea|].
      intros H. apply inject_Z_zero in H. lia. }
  cbn [bind]. eexists. eexists. split; [reflexivity|].
  cbn [total_segments ok_count warning_count critical_count
       average_quality_score].
  split; [now rewrite Hlen|].
  split.
  { unfold count_link_status. rewrite <- !Nat2Z.inj_add. f_equal.
    apply filter_partition3.
    eapply List.Forall_impl; [|exact Hall].
    intros r ([-> | [-> | ->]] & _); cbn; auto. }
  assert (Hq : Forall (fun r => 0 <= quality_score r /\ quality_score r <= 100)
                      results).
  { eapply List.Forall_impl; [|exact Hall]. intros r (_ & H); exact H. }
  destruct (mean_quality_bounds results a Hq Ea) as [A0 A1].
  split.
  { apply (Qle_trans _ (round 0 2)); [discriminate|]. now apply round_mono. }
  split.
  { apply (Qle_trans _ (round 100 2)); [|discriminate]. now apply round_mono. }
  split.
  { rewrite map_map. cbn [fst]. exact Hnames. }
  apply List.Forall_forall. intros e He. apply in_map_iff in He.
  destruct He as (r & <- & _). reflexivity.
Qed.

(** X7: The answer of [/opm/multi-segment] to a request with a known wavelength
    and fibre type: one entry per segment, in the order of the request,
    each with its own recommendations; the counts of OK, Warning and
    Critical links add up to the number of segments, and the average score
    is between 0 and 100. *)
Theorem multi_segment_summary_accounts_for_every_segment
    optical loss segments :
  known_optical optical = true ->
  exists summary entries,
    analyze_multi_segment optical loss segments = Ok (summary, entries)
    /\ total_segments summary = Z.of_nat (List.length segments)
    /\ (ok_count summary + warning_count summary + critical_count summary
        = total_segments summary)%Z
    /\ 0 <= average_quality_score summary
    /\ average_quality_score summary <= 100
    /\ map (fun e => segment_name (details (fst e))) entries
       = map req_name segments
    /\ Forall (fun e => snd e = get_recommendations (fst e)) entries.
Proof. exact (analyze_multi_segment_shape optical loss segments). Qed.

Lemma multi_segment_summary_accounts_for_every_segment_witness :
  known_optical {| req_tx_power := 3; req_rx_sensitivity := -28;
                   req_wavelength := "1550nm";
                   req_fiber_type := "single_mode" |} = true
  /\ exists summary entries,
       analyze_multi_segment
         {| req_tx_power := 3; req_rx_sensitivity := -28;
            req_wavelength := "1550nm"; req_fiber_type := "single_mode" |}
         {| req_fiber_loss_per_km := 0.35; req_splice_loss := 0.1;
            req_connector_loss := 0.5; req_safety_margin := 3 |}
         [{| req_name := "A"; req_fiber_length_km := 10;
             req_splice_count := 5; req_connector_count := 2 |};
          {| req_name := "B"; req_fiber_length_km := 80;
             req_splice_count := 5; req_connector_count := 2 |}]
       = Ok (summary, entries)
       /\ total_segments summary = Z.of_nat 2
       /\ (ok_count summary + warning_count summary + critical_count summary
           = total_segments summary)%Z
       /\ 0 <= average_quality_score summary
       /\ average_quality_score summary <= 100
       /\ map (fun e => segment_name (details (fst e))) entries = ["A"; "B"]
       /\ Forall (fun e => snd e = get_recommendations (fst e)) entries.
Proof.
  split; [reflexivity|].
  apply (multi_segment_summary_accounts_for_every_segment
           {| req_tx_power := 3; req_rx_sensitivity := -28;
              req_wavelength := "1550nm"; req_fiber_type := "single_mode" |}
           {| req_fiber_loss_per_km := 0.35; req_splice_loss := 0.1;
              req_connector_loss := 0.5; req_safety_margin := 3 |}
           [{| req_name := "A"; req_fiber_length_km := 10;
               req_splice_count := 5; req_connector_count := 2 |};
            {| req_name := "B"; req_fiber_length_km := 80;
               req_splice_count := 5; req_connector_count := 2 |}]).
  reflexivity.
Defined.

(** X8: The three endpoints answer a validated request with an error exactly
    when its wavelength or fibre type is no value of the enumerations, and,
    for [/opm/max-distance], when the fibre loss is 0 dB/km. *)
Theorem analysis_endpoints_fail_exactly_when
    optical loss segment segments (splice_count connector_count : Z) :
  is_ok (calculate_opm optical loss segment) = known_optical optical
  /\ is_ok (analyze_multi_segment optical loss segments)
     = known_optical optical
  /\ is_ok (analysis_api.calculate_max_distance
              optical loss splice_count connector_count)
     = known_optical optical
       && negb (Qeq_bool (req_fiber_loss_per_km loss) 0).
Proof.
  destruct (known_optical optical) eqn:Hk.
  - destruct (optical_of_known optical Hk) as (w & f & Ho).
    split; [|split].
    + unfold calculate_opm. rewrite Ho. cbn [bind].
      match goal with
      | |- context [calculate_power_budget ?o ?l ?s] =>
          destruct (calculate_power_budget_total o l s) as [r ->]
      end.
      reflexivity.
    + destruct (analyze_multi_segment_shape optical loss segments Hk)
        as (sm & en & -> & _).
      reflexivity.
    + unfold analysis_api.calculate_max_distance. rewrite Ho. cbn [bind].
      unfold opm_calculator.calculate_max_distance, truediv.
      cbn [loss_of fiber_loss_per_km].
      destruct (Qeq_bool (req_fiber_loss_per_km loss) 0); reflexivity.
  - unfold calculate_opm, analyze_multi_segment,
      analysis_api.calculate_max_distance.
    rewrite (optical_of_unknown optical Hk). repeat split.
Qed.

End AnalysisEndpoints.

Section UploadEndpoint.
Import kml_parser opm_calculator upload_api.









End UploadEndpoint.

(** ** The reconciliation engine *)

Section CompareCableExtras.
Import csv_parser comparison_service.




Lemma compare_cable_status_texts n p b p' b' o r r' :
  fiber_length_km p = fiber_length_km p' ->
  fiber_length_km b = fiber_length_km b' ->
  _compare_cable n p (Some b) o = Ok r ->
  _compare_cable n p' (Some b') o = Ok r' ->
  compliance_status r = compliance_status r'
  /\ length_variance_pct r = length_variance_pct r'
  /\ status_match r
     = String.eqb (lower (planned_status r)) (lower (built_status r))
  /\ (status_match r = false ->
      List.last (remarks r) ""
      = "Status mismatch: " ++ planned_status r ++ " → " ++ built_status r)
  /\ (status_match r = true ->
      remarks r = [] \/ List.length (remarks r) = 1%nat).
Proof.
  intros Hp Hb. unfold _compare_cable. rewrite <- Hp, <- Hb.
  destruct (if Qlt_bool 0 (get_or (fiber_length_km p) 0)
            then let* q := truediv (get_or (fiber_length_km b) 0
                                    - get_or (fiber_length_km p) 0)
                                   (get_or (fiber_length_km p) 0) in
                 Ok (q * 100)
            else Ok 0) as [pct|e]; cbn [bind]; [|discriminate].
  destruct (Qle_bool (abs pct) LENGTH_TOLERANCE_PCT);
    [destruct o as [m|]
    |destruct (Qle_bool (abs pct) (LENGTH_TOLERANCE_PCT * 2))];
    intros H H'; injection H as <-; injection H' as <-;
    cbn [compliance_status length_variance_pct status_match planned_status
         built_status remarks];
    (split; [reflexivity|]); (split; [reflexivity|]);
    (split; [reflexivity|]);
    destruct (String.eqb (lower (get_or (construction_status p) "Unknown"))
                         (lower (get_or (construction_status b) "Unknown")));
    cbn [negb app List.last List.length];
    (split; [intros H; try discriminate H; reflexivity
            |intros H; try discriminate H; auto]).
Qed.

(** X11: The status texts decide [status_match] and one remark, nothing else:
    two pairs with the same lengths get the same tier and the same variance
    whatever their statuses; the statuses match when they are equal up to
    the case of their letters, and the mismatch is the last remark. *)
Theorem status_text_never_changes_tier n p b p' b' o :
  fiber_length_km p = fiber_length_km p' ->
  fiber_length_km b = fiber_length_km b' ->
  exists r r',
    _compare_cable n p (Some b) o = Ok r
    /\ _compare_cable n p' (Some b') o = Ok r'
    /\ compliance_status r = compliance_status r'
    /\ length_variance_pct r = length_variance_pct r'
    /\ status_match r
       = String.eqb (lower (planned_status r)) (lower (built_status r))
    /\ (status_match r = false ->
        List.last (remarks r) ""
        = "Status mismatch: " ++ planned_status r ++ " → "
          ++ built_status r)
    /\ (status_match r = true ->
        remarks r = [] \/ List.length (remarks r) = 1%nat).
Proof.
  intros Hp Hb.
  destruct (compare_cable_result n p (Some b) o) as (r & Hr & _).
  destruct (compare_cable_result n p' (Some b') o) as (r' & Hr' & _).
  exists r, r'. split; [exact Hr|]. split; [exact Hr'|].
  exact (compare_cable_status_texts n p b p' b' o r r' Hp Hb Hr Hr').
Qed.

Lemma status_text_never_changes_tier_witness :
  exists r r',
    _compare_cable "C1" cable_C1 (Some cable_C1) None = Ok r
    /\ _compare_cable
         "C1"
         {| name := "C1"; fiber_length_km := Some 10;
            construction_status := Some "Planned";
            specification := None |}
         (Some {| name := "C1"; fiber_length_km := Some 10;
                  construction_status := Some "IN SERVICE";
                  specification := None |})
         None = Ok r'
    /\ compliance_status r = compliance_status r'
    /\ length_variance_pct r = length_variance_pct r'
    /\ status_match r
       = String.eqb (lower (planned_status r)) (lower (built_status r))
    /\ (status_match r = false ->
        List.last (remarks r) ""
        = "Status mismatch: " ++ planned_status r ++ " → "
          ++ built_status r)
    /\ (status_match r = true ->
        remarks r = [] \/ List.length (remarks r) = 1%nat).
Proof.
  exact (status_text_never_changes_tier
           "C1" cable_C1 cable_C1
           {| name := "C1"; fiber_length_km := Some 10;
              construction_status := Some "Planned";
              specification := None |}
           {| name := "C1"; fiber_length_km := Some 10;
              construction_status := Some "IN SERVICE";
              specification := None |}
           None eq_refl eq_refl).
Defined.

End CompareCableExtras.

Section ReconciliationMembers.
Import csv_parser comparison_service.

Lemma odict_get_In {V : Type} (d : odict V) (k : string) (v : V) :
  List.NoDup (odict_keys d) -> In (k, v) d -> odict_get d k = Some v.
Proof.
  unfold odict_keys.
  induction d as [|[k' v'] d IH]; simpl; intros Hnd Hin; [tauto|].
  inversion Hnd as [|? ? Hnin Hnd']; subst.
  destruct Hin as [H | H].
  - injection H as -> ->. rewrite String.eqb_refl. reflexivity.
  - destruct (String.eqb_spec k k') as [-> | Hne]; [|auto].
    exfalso. apply Hnin. apply in_map_iff. exists (k', v). auto.
Qed.

Lemma odict_get_None {V : Type} (d : odict V) (k : string) :
  odict_get d k = None <-> ~ In k (odict_keys d).
Proof.
  rewrite <- odict_get_keys. unfold odict_contains.
  destruct (odict_get d k); split; intros H;
    try discriminate; try reflexivity.
  exfalso. apply H. reflexivity.
Qed.

Lemma Forall2_In_right {A B : Type} (f : A -> B -> Prop)
    (l : list A) (l' : list B) (y : B) :
  Forall2 f l l' -> In y l' -> exists x, In x l /\ f x y.
Proof.
  induction 1 as [|a b l l' H HF IH]; simpl; [tauto|].
  intros [<- | Hy].
  - exists a. auto.
  - destruct (IH Hy) as (x & Hx & Hf). exists x. auto.
Qed.

(** The parts of a reconciliation, and where each comparison comes from:
    from [_compare_cable] for a planned cable, from
    [_create_unplanned_cable_result] for a cable that is only built. *)
Lemma compare_networks_parts planned built opm :
  exists r,
    compare_networks planned built opm = Ok r
    /\ _generate_summary (cable_comparisons r) = Ok (summary r)
    /\ discrepancies r = _identify_discrepancies (cable_comparisons r)
    /\ recommendations r
       = _generate_recommendations (cable_comparisons r) (summary r)
    /\ forall c,
         In c (cable_comparisons r) ->
         (exists p,
            odict_get (planned_cables_of planned) (cable_id c) = Some p
            /\ _compare_cable
                 (cable_id c) p
                 (odict_get (planned_cables_of built) (cable_id c))
                 (opm_lookup_of opm !! cable_id c) = Ok c)
         \/ (exists b,
               odict_get (planned_cables_of planned) (cable_id c) = None
               /\ odict_get (planned_cables_of built) (cable_id c) = Some b
               /\ c = _create_unplanned_cable_result
                        (cable_id c) b (opm_lookup_of opm !! cable_id c)).
Proof.
  unfold compare_networks.
  fold (planned_cables_of planned). fold (planned_cables_of built).
  match goal with
  | |- context [mapM ?f ?l] =>
      destruct (mapM_ok f l) as [prs [Hprs HF]]
  end.
  { intros [k v] _.
    destruct (compare_cable_result k v (odict_get (planned_cables_of built) k)
                                   (opm_lookup_of opm !! k)) as [r [Hr _]].
    exists r. exact Hr. }
  rewrite Hprs. cbn [bind].
  match goal with
  | |- context [_generate_summary ?cs] =>
      destruct (generate_summary_total cs) as [s Hs]; rewrite Hs
  end.
  cbn [bind].
  eexists. split; [reflexivity|].
  cbn [cable_comparisons discrepancies summary recommendations].
  split; [exact Hs|]. split; [reflexivity|]. split; [reflexivity|].
  destruct (odict_of_list_keys name (get_or (cables planned) []))
    as [NDp _].
  destruct (odict_of_list_keys name (get_or (cables built) []))
    as [NDb _].
  fold (planned_cables_of planned) in NDp.
  fold (planned_cables_of built) in NDb.
  intros c Hc. apply in_app_or in Hc. destruct Hc as [Hc | Hc].
  - left. destruct (Forall2_In_right _ _ _ _ HF Hc) as ([k p] & Hin & Hf).
    assert (Hid : cable_id c = k) by (eapply compare_cable_id; exact Hf).
    exists p. rewrite Hid. split; [|exact Hf].
    apply odict_get_In; assumption.
  - right. apply in_map_iff in Hc. destruct Hc as ([k b] & <- & Hin).
    apply filter_In in Hin. destruct Hin as [Hin Hnot].
    apply negb_true_iff in Hnot. exists b. cbn [cable_id].
    change (cable_id (_create_unplanned_cable_result k b
                        (opm_lookup_of opm !! k))) with k.
    split; [|split; [|reflexivity]].
    + unfold odict_contains in Hnot.
      destruct (odict_get (planned_cables_of planned) k);
        [discriminate | reflexivity].
    + apply odict_get_In; assumption.
Qed.

(** The fields of a comparison that depend on whether the planned cable
    has a built counterpart. *)
Lemma compare_cable_fields n p b o r :
  _compare_cable n p b o = Ok r ->
  planned_length_km r = get_or (fiber_length_km p) 0
  /\ planned_status r = get_or (construction_status p) "Unknown"
  /\ match b with
     | None =>
         built_length_km r = 0
         /\ length_variance_pct r == -100
         /\ built_status r = "Not Built"
         /\ status_match r = false
         /\ measured_loss_db r = None
         /\ compliance_status r = "Major Deviation"
         /\ remarks r = ["Cable planned but not built"]
     | Some b' =>
         built_length_km r = get_or (fiber_length_km b') 0
         /\ built_status r = get_or (construction_status b') "Unknown"
         /\ measured_loss_db r = option_map OPMMeasurement.loss_db o
         /\ ~ In "Cable planned but not built" (remarks r)
     end.
Proof.
  unfold _compare_cable. destruct b as [b'|].
  2:{ intros H. injection H as <-. cbn. repeat split; reflexivity. }
  destruct (if Qlt_bool 0 (get_or (fiber_length_km p) 0)
            then let* q := truediv (get_or (fiber_length_km b') 0
                                    - get_or (fiber_length_km p) 0)
                                   (get_or (fiber_length_km p) 0) in
                 Ok (q * 100)
            else Ok 0) as [pct|e]; cbn [bind]; [|discriminate].
  destruct (Qle_bool (abs pct) LENGTH_TOLERANCE_PCT);
    [destruct o | destruct (Qle_bool _ (LENGTH_TOLERANCE_PCT * 2))];
    intros H; injection H as <-;
    cbn [planned_length_km planned_status built_length_km built_status
         measured_loss_db remarks option_map];
    (repeat (split; [reflexivity|]));
    destruct (negb _); cbn; intuition discriminate.
Qed.

End ReconciliationMembers.

Section LastWins.
Import csv_parser comparison_service.

Lemma find_snoc {A : Type} (p : A -> bool) (l : list A) (x : A) :
  List.find p (l ++ [x])
  = match List.find p l with
    | Some y => Some y
    | None => if p x then Some x else None
    end.
Proof.
  induction l as [|y l IH]; simpl; [reflexivity|].
  destruct (p y); [reflexivity | exact IH].
Qed.

Lemma odict_get_set {V : Type} (d : odict V) (k : string) (v : V)
    (x : string) :
  odict_get (odict_set d k v) x
  = if String.eqb x k then Some v else odict_get d x.
Proof.
  induction d as [|[k' v'] d IH]; simpl; [reflexivity|].
  destruct (String.eqb_spec k k') as [-> | Hne]; simpl.
  - destruct (String.eqb x k'); reflexivity.
  - rewrite IH. destruct (String.eqb_spec x k') as [-> | Hx]; [|reflexivity].
    destruct (String.eqb_spec k' k); [congruence | reflexivity].
Qed.

Lemma odict_get_fold {V : Type} (key : V -> string) (l : list V)
    (d : odict V) (k : string) :
  odict_get (fold_left (fun d x => odict_set d (key x) x) l d) k
  = match List.find (fun x => String.eqb (key x) k) (rev l) with
    | Some x => Some x
    | None => odict_get d k
    end.
Proof.
  revert d. induction l as [|x l IH]; intros d; simpl; [reflexivity|].
  rewrite IH, find_snoc, odict_get_set.
  destruct (List.find _ (rev l)); [reflexivity|].
  rewrite (String.eqb_sym k (key x)).
  destruct (String.eqb (key x) k); reflexivity.
Qed.

(** [{c['name']: c for c in l}.get(n)] is the last cable named [n]. *)
Lemma odict_get_last_named (l : list CableDict) (n : string) :
  odict_get (odict_of_list name l) n = last_named n l.
Proof.
  unfold odict_of_list, last_named. rewrite odict_get_fold.
  destruct (List.find _ (rev l)); reflexivity.
Qed.

Lemma opm_fold_lookup (ms : list OPMMeasurement.t)
    (d : gmap string OPMMeasurement.t) (k : string) :
  fold_left (fun d m => <[OPMMeasurement.cable_id m := m]> d) ms d !! k
  = match List.find (fun m => String.eqb (OPMMeasurement.cable_id m) k)
                    (rev ms) with
    | Some m => Some m
    | None => d !! k
    end.
Proof.
  revert d. induction ms as [|m ms IH]; intros d; simpl; [reflexivity|].
  rewrite IH, find_snoc.
  destruct (List.find _ (rev ms)); [reflexivity|].
  destruct (String.eqb_spec (OPMMeasurement.cable_id m) k) as [<- | Hne].
  - apply lookup_insert_eq.
  - apply lookup_insert_ne. exact Hne.
Qed.

(** [opm_lookup.get(n)] is the last measurement of cable [n]. *)
Lemma opm_lookup_last opm (n : string) :
  opm_lookup_of opm !! n = last_measurement n opm.
Proof.
  unfold opm_lookup_of, last_measurement. destruct opm as [ms|].
  - cbn [get_or]. rewrite opm_fold_lookup.
    destruct (List.find _ (rev ms)); [reflexivity | apply lookup_empty].
  - reflexivity.
Qed.

(** X12: Where two cables of a snapshot have the same name, the later one
    replaces the earlier one: each comparison reads the lengths and the
    statuses of the last planned and of the last built cable of its name,
    and has the length 0 and the status Not Planned or Not Built on the
    side that has no cable of that name. *)
Theorem last_cable_of_each_name_is_compared planned built opm :
  exists r,
    compare_networks planned built opm = Ok r
    /\ forall c,
         In c (cable_comparisons r) ->
         match last_named (cable_id c) (get_or (cables planned) []) with
         | Some p =>
             planned_length_km c = get_or (fiber_length_km p) 0
             /\ planned_status c = get_or (construction_status p) "Unknown"
         | None =>
             planned_length_km c = 0 /\ planned_status c = "Not Planned"
         end
         /\ match last_named (cable_id c) (get_or (cables built) []) with
            | Some b =>
                built_length_km c = get_or (fiber_length_km b) 0
                /\ built_status c = get_or (construction_status b) "Unknown"
            | None =>
                built_length_km c = 0 /\ built_status c = "Not Built"
            end.
Proof.
  destruct (compare_networks_parts planned built opm)
    as (r & Hr & _ & _ & _ & Hmem).
  exists r. split; [exact Hr|]. intros c Hc.
  unfold planned_cables_of in Hmem.
  rewrite <- !odict_get_last_named.
  destruct (Hmem c Hc) as [(p & Hp & Hcmp) | (b & Hp & Hb & Hceq)].
  - rewrite Hp.
    destruct (compare_cable_fields _ _ _ _ _ Hcmp) as (H1 & H2 & H3).
    split; [split; assumption|].
    destruct (odict_get (odict_of_list name (get_or (cables built) []))
                        (cable_id c)) as [b|].
    + destruct H3 as (H3 & H4 & _). split; assumption.
    + destruct H3 as (H3 & _ & H4 & _). split; assumption.
  - rewrite Hp, Hb. rewrite Hceq. cbn. repeat split; reflexivity.
Qed.

Lemma comparison_measurement planned built opm :
  exists r,
    compare_networks planned built opm = Ok r
    /\ forall c,
         In c (cable_comparisons r) ->
         measured_loss_db c
         = match last_named (cable_id c) (get_or (cables built) []) with
           | Some _ =>
               option_map OPMMeasurement.loss_db
                          (last_measurement (cable_id c) opm)
           | None => None
           end.
Proof.
  destruct (compare_networks_parts planned built opm)
    as (r & Hr & _ & _ & _ & Hmem).
  exists r. split; [exact Hr|]. intros c Hc.
  unfold planned_cables_of in Hmem.
  rewrite <- odict_get_last_named, <- opm_lookup_last.
  destruct (Hmem c Hc) as [(p & Hp & Hcmp) | (b & Hp & Hb & Hceq)].
  - destruct (compare_cable_fields _ _ _ _ _ Hcmp) as (_ & _ & H3).
    destruct (odict_get (odict_of_list name (get_or (cables built) []))
                        (cable_id c)) as [b|].
    + destruct H3 as (_ & _ & H3 & _). exact H3.
    + destruct H3 as (_ & _ & _ & _ & H3 & _). exact H3.
  - rewrite Hb. rewrite Hceq. cbn.
    destruct (opm_lookup_of opm !! _); reflexivity.
Qed.

(** X13: Which measurement a comparison reports: the loss of the last
    measurement whose cable identifier is the name of the cable, when the
    cable is built, and none when no cable of that name is built, whatever
    was measured. *)
Theorem last_measurement_of_a_built_cable_is_reported planned built opm :
  exists r,
    compare_networks planned built opm = Ok r
    /\ forall c,
         In c (cable_comparisons r) ->
         measured_loss_db c
         = match last_named (cable_id c) (get_or (cables built) []) with
           | Some _ =>
               option_map OPMMeasurement.loss_db
                          (last_measurement (cable_id c) opm)
           | None => None
           end.
Proof. exact (comparison_measurement planned built opm). Qed.

Lemma unmatched_comparison planned built opm :
  exists r,
    compare_networks planned built opm = Ok r
    /\ forall c,
         In c (cable_comparisons r) ->
         (~ In (cable_id c) (cable_names built) ->
          compliance_status c = "Major Deviation"
          /\ length_variance_pct c == -100
          /\ status_match c = false
          /\ remarks c = ["Cable planned but not built"])
         /\ (~ In (cable_id c) (cable_names planned) ->
             compliance_status c = "Major Deviation"
             /\ length_variance_pct c == 100
             /\ status_match c = false
             /\ remarks c = ["Cable built but not in original plan"]).
Proof.
  destruct (compare_networks_parts planned built opm)
    as (r & Hr & _ & _ & _ & Hmem).
  exists r. split; [exact Hr|]. intros c Hc.
  destruct (odict_of_list_keys name (get_or (cables planned) []))
    as [_ INp].
  destruct (odict_of_list_keys name (get_or (cables built) []))
    as [_ INb].
  fold (planned_cables_of planned) in INp.
  fold (planned_cables_of built) in INb.
  fold (cable_names planned) in INp. fold (cable_names built) in INb.
  destruct (Hmem c Hc) as [(p & Hp & Hcmp) | (b & Hp & Hb & Hceq)].
  - split.
    + intros Hnb. rewrite <- INb in Hnb. apply odict_get_None in Hnb.
      rewrite Hnb in Hcmp.
      destruct (compare_cable_fields _ _ _ _ _ Hcmp)
        as (_ & _ & _ & H1 & _ & H2 & _ & H3 & H4).
      auto.
    + intros Hnp. rewrite <- INp in Hnp. apply odict_get_None in Hnp.
      congruence.
  - split.
    + intros Hnb. rewrite <- INb in Hnb. apply odict_get_None in Hnb.
      congruence.
    + intros _. rewrite Hceq. cbn. repeat split; reflexivity.
Qed.

(** X14: A cable of only one snapshot is a Major Deviation: planned and not
    built with a variance of -100 %, built and not planned with +100 %,
    each with its one remark and without a status match. *)
Theorem unmatched_cable_is_major_deviation planned built opm :
  exists r,
    compare_networks planned built opm = Ok r
    /\ forall c,
         In c (cable_comparisons r) ->
         (~ In (cable_id c) (cable_names built) ->
          compliance_status c = "Major Deviation"
          /\ length_variance_pct c == -100
          /\ status_match c = false
          /\ remarks c = ["Cable planned but not built"])
         /\ (~ In (cable_id c) (cable_names planned) ->
             compliance_status c = "Major Deviation"
             /\ length_variance_pct c == 100
             /\ status_match c = false
             /\ remarks c = ["Cable built but not in original plan"]).
Proof. exact (unmatched_comparison planned built opm). Qed.

(** Every cable name of a snapshot is the identifier of a comparison. *)
Lemma comparison_of_name planned built opm r n :
  compare_networks planned built opm = Ok r ->
  In n (cable_names planned) \/ In n (cable_names built) ->
  exists c, In c (cable_comparisons r) /\ cable_id c = n.
Proof.
  intros Hr Hn.
  destruct (comparison_ids planned built opm) as (r' & Hr' & Hids).
  assert (r' = r) by congruence. subst r'.
  destruct (odict_of_list_keys name (get_or (cables planned) []))
    as [_ INp].
  destruct (odict_of_list_keys name (get_or (cables built) []))
    as [_ INb].
  fold (planned_cables_of planned) in INp.
  fold (planned_cables_of built) in INb.
  fold (cable_names planned) in INp. fold (cable_names built) in INb.
  assert (Hin : In n (map cable_id (cable_comparisons r))).
  { rewrite Hids, in_app_iff, filter_In, negb_true_iff, INp, INb.
    destruct Hn as [H | H]; [auto|].
    destruct (odict_contains (planned_cables_of planned) n) eqn:E.
    - left. apply INp. now apply odict_get_keys.
    - right. auto. }
  apply in_map_iff in Hin. destruct Hin as (c & Hc & Hin).
  exists c. auto.
Qed.

End LastWins.

Section SummaryExtras.
Import csv_parser comparison_service.

Lemma tier_counts cs :
  Forall (fun c => is_tier (compliance_status c)) cs ->
  (count_status "Compliant" cs + count_status "Minor Deviation" cs
   + count_status "Major Deviation" cs = Z.of_nat (List.length cs))%Z.
Proof.
  intros H. unfold count_status. rewrite <- !Nat2Z.inj_add. f_equal.
  apply filter_partition3. revert H. apply List.Forall_impl.
  intros c [-> | [-> | ->]];
    [left | right; left | right; right]; repeat split; reflexivity.
Qed.

Lemma count_status_bounds s cs :
  (0 <= count_status s cs <= Z.of_nat (List.length cs))%Z.
Proof.
  unfold count_status. split; [lia|].
  apply Nat2Z.inj_le. apply List.filter_length_le.
Qed.

Lemma count_status_pos s cs :
  (0 <? count_status s cs)%Z = true
  <-> exists c, In c cs /\ compliance_status c = s.
Proof.
  unfold count_status. rewrite Z.ltb_lt. split.
  - intros H.
    destruct (List.filter (fun c => String.eqb (compliance_status c) s) cs)
      as [|c l] eqn:E; [cbn in H; lia|].
    assert (Hc : In c (List.filter
                         (fun c => String.eqb (compliance_status c) s) cs))
      by (rewrite E; left; reflexivity).
    apply filter_In in Hc. destruct Hc as [Hc Hs].
    exists c. split; [exact Hc | now apply String.eqb_eq].
  - intros (c & Hc & Hs).
    assert (Hin : In c (List.filter
                          (fun c => String.eqb (compliance_status c) s) cs)).
    { apply filter_In. split; [exact Hc | now apply String.eqb_eq]. }
    destruct (List.filter _ cs); [destruct Hin | cbn; lia].
Qed.

Lemma deviation_count cs :
  Forall (fun c => is_tier (compliance_status c)) cs ->
  Z.of_nat (List.length (_identify_discrepancies cs))
  = (count_status "Minor Deviation" cs
     + count_status "Major Deviation" cs)%Z.
Proof.
  intros H. unfold _identify_discrepancies, count_status.
  rewrite (Permutation_length (sort_perm _ _)), length_map.
  rewrite <- Nat2Z.inj_add. f_equal.
  induction H as [|c cs Hc _ IH]; [reflexivity|].
  cbn [List.filter]. unfold is_deviation at 1.
  destruct Hc as [-> | [-> | ->]]; cbn; lia.
Qed.

Lemma round_percent (x : Q) :
  0 <= x -> x <= 100 -> 0 <= round x 2 /\ round x 2 <= 100.
Proof.
  intros H0 H1. split.
  - assert (E : round 0 2 == 0) by reflexivity.
    rewrite <- E. apply round_mono. exact H0.
  - assert (E : round 100 2 == 100) by reflexivity.
    rewrite <- E. apply round_mono. exact H1.
Qed.

(** What [_generate_summary] returns for comparisons with tiers. *)
Lemma generate_summary_spec cs s :
  Forall (fun c => is_tier (compliance_status c)) cs ->
  _generate_summary cs = Ok s ->
  match s with
  | None => cs = []
  | Some s =>
      cs <> []
      /\ Summary.total_cables s = Z.of_nat (List.length cs)
      /\ Summary.compliant s = count_status "Compliant" cs
      /\ Summary.minor_deviations s = count_status "Minor Deviation" cs
      /\ Summary.major_deviations s = count_status "Major Deviation" cs
      /\ 0 <= Summary.compliance_rate s
      /\ Summary.compliance_rate s <= 100
  end.
Proof.
  intros HF. unfold _generate_summary.
  destruct (Z.of_nat (List.length cs) =? 0)%Z eqn:E.
  { intros H. injection H as <-. apply Z.eqb_eq in E.
    destruct cs; [reflexivity | cbn in E; lia]. }
  apply Z.eqb_neq in E.
  rewrite truediv_ok by (intros H; apply E, inject_Z_zero, H).
  cbn [bind].
  assert (Hrate :
            0 <= round (inject_Z (count_status "Compliant" cs)
                        / inject_Z (Z.of_nat (List.length cs)) * 100) 2
            /\ round (inject_Z (count_status "Compliant" cs)
                      / inject_Z (Z.of_nat (List.length cs)) * 100) 2
               <= 100).
  { destruct (count_status_bounds "Compliant" cs) as [Hc0 Hc1].
    assert (Ht : 0 < inject_Z (Z.of_nat (List.length cs))).
    { change 0 with (inject_Z 0). rewrite <- Zlt_Qlt. lia. }
    assert (H0 : 0 <= inject_Z (count_status "Compliant" cs)).
    { change 0 with (inject_Z 0). rewrite <- Zle_Qle. exact Hc0. }
    assert (H1 : inject_Z (count_status "Compliant" cs)
                 <= inject_Z (Z.of_nat (List.length cs))).
    { rewrite <- Zle_Qle. exact Hc1. }
    assert (Hq0 : 0 <= inject_Z (count_status "Compliant" cs)
                       / inject_Z (Z.of_nat (List.length cs))).
    { apply Qle_shift_div_l; [exact Ht | lra]. }
    assert (Hq1 : inject_Z (count_status "Compliant" cs)
                  / inject_Z (Z.of_nat (List.length cs)) <= 1).
    { apply Qle_shift_div_r; [exact Ht | lra]. }
    apply round_percent; lra. }
  assert (Hne : cs <> []) by (intros ->; apply E; reflexivity).
  destruct (Qlt_bool 0 (sum_of planned_length_km cs)) eqn:E2.
  - apply Qlt_bool_true in E2. rewrite truediv_ok by lra. cbn [bind].
    intros H. injection H as <-. cbn. tauto.
  - cbn [bind]. intros H. injection H as <-. cbn. tauto.
Qed.

(** X15: The summary accounts for every comparison: it is empty only when
    there is no comparison; otherwise its total is the number of
    comparisons, the three tiers add up to the total, the discrepancy list
    has one entry per Minor or Major Deviation, and the compliance rate is
    between 0 and 100. *)
Theorem summary_accounts_for_every_comparison planned built opm :
  exists r,
    compare_networks planned built opm = Ok r
    /\ match summary r with
       | None => cable_comparisons r = []
       | Some s =>
           cable_comparisons r <> []
           /\ Summary.total_cables s
              = Z.of_nat (List.length (cable_comparisons r))
           /\ (0 <= Summary.compliant s)%Z
           /\ (0 <= Summary.minor_deviations s)%Z
           /\ (0 <= Summary.major_deviations s)%Z
           /\ (Summary.compliant s + Summary.minor_deviations s
               + Summary.major_deviations s = Summary.total_cables s)%Z
           /\ Z.of_nat (List.length (discrepancies r))
              = (Summary.minor_deviations s
                 + Summary.major_deviations s)%Z
           /\ 0 <= Summary.compliance_rate s
           /\ Summary.compliance_rate s <= 100
       end.
Proof.
  destruct (compare_networks_parts planned built opm)
    as (r & Hr & Hsum & Hdisc & _ & _).
  destruct (comparison_results_invariant planned built opm)
    as (r' & Hr' & Hinv).
  assert (r' = r) by congruence. subst r'.
  assert (HF : Forall (fun c => is_tier (compliance_status c))
                      (cable_comparisons r)).
  { revert Hinv. apply List.Forall_impl. intros c H. apply H. }
  exists r. split; [exact Hr|].
  pose proof (generate_summary_spec _ _ HF Hsum) as Hs.
  destruct (summary r) as [s|]; [|exact Hs].
  destruct Hs as (Hne & Ht & Hc & Hmi & Hma & Hr0 & Hr1).
  pose proof (tier_counts _ HF) as Hcount.
  pose proof (deviation_count _ HF) as Hdev.
  pose proof (count_status_bounds "Compliant" (cable_comparisons r)).
  pose proof (count_status_bounds "Minor Deviation" (cable_comparisons r)).
  pose proof (count_status_bounds "Major Deviation" (cable_comparisons r)).
  rewrite Hdisc, Ht, Hc, Hmi, Hma.
  repeat split; try assumption; lia.
Qed.

(** X16: A reconciliation has no summary exactly when neither snapshot names a
    cable; it then has no comparison and no discrepancy, and its one
    recommendation is the review of multiple compliance issues. *)
Theorem reconciliation_of_nothing_asks_for_review planned built opm :
  exists r,
    compare_networks planned built opm = Ok r
    /\ (summary r = None
        <-> cable_names planned = [] /\ cable_names built = [])
    /\ (summary r = None ->
        cable_comparisons r = []
        /\ discrepancies r = []
        /\ recommendations r
           = ["⚠️ Review: Multiple compliance issues detected"]).
Proof.
  destruct (compare_networks_parts planned built opm)
    as (r & Hr & Hsum & Hdisc & Hrec & _).
  destruct (comparison_results_invariant planned built opm)
    as (r' & Hr' & Hinv).
  assert (r' = r) by congruence. subst r'.
  assert (HF : Forall (fun c => is_tier (compliance_status c))
                      (cable_comparisons r)).
  { revert Hinv. apply List.Forall_impl. intros c H. apply H. }
  destruct (comparison_ids planned built opm) as (r' & Hr'' & Hids).
  assert (r' = r) by congruence. subst r'.
  pose proof (generate_summary_spec _ _ HF Hsum) as Hs.
  exists r. split; [exact Hr|].
  assert (Hnil : summary r = None -> cable_comparisons r = []).
  { intros E. rewrite E in Hs. exact Hs. }
  split; [split|].
  - intros E. rewrite (Hnil E) in Hids. cbn [map] in Hids.
    symmetry in Hids. apply app_eq_nil in Hids. destruct Hids as [Hp Hb].
    destruct (odict_of_list_keys name (get_or (cables planned) []))
      as [_ INp].
    destruct (odict_of_list_keys name (get_or (cables built) []))
      as [_ INb].
    fold (planned_cables_of planned) in INp.
    fold (planned_cables_of built) in INb.
    fold (cable_names planned) in INp. fold (cable_names built) in INb.
    assert (Ep : cable_names planned = []).
    { destruct (cable_names planned) as [|n l]; [reflexivity|].
      exfalso. rewrite Hp in INp. apply (INp n). left. reflexivity. }
    split; [exact Ep|].
    destruct (cable_names built) as [|n l]; [reflexivity|].
    exfalso.
    assert (Hn : In n (odict_keys (planned_cables_of built)))
      by (apply INb; left; reflexivity).
    assert (Hf : In n (List.filter
                         (fun k => negb (odict_contains
                                           (planned_cables_of planned) k))
                         (odict_keys (planned_cables_of built)))).
    { apply filter_In. split; [exact Hn|].
      apply negb_true_iff.
      destruct (odict_contains (planned_cables_of planned) n) eqn:E';
        [|reflexivity].
      apply odict_get_keys in E'. rewrite Hp in E'. destruct E'. }
    rewrite Hb in Hf. destruct Hf.
  - intros [Ep Eb]. unfold cable_names in Ep, Eb.
    apply map_eq_nil in Ep. apply map_eq_nil in Eb.
    unfold planned_cables_of in Hids. rewrite Ep, Eb in Hids.
    cbn in Hids. apply map_eq_nil in Hids.
    rewrite Hids in Hsum.
    assert (E0 : _generate_summary [] = Ok None) by reflexivity.
    congruence.
  - intros E. pose proof (Hnil E) as Hcs.
    rewrite Hdisc, Hrec, E, Hcs. repeat split; reflexivity.
Qed.

(** X17: The recommendations open with the critical message exactly when some
    comparison is a Major Deviation; a cable that is in only one of the
    two snapshots is enough for that. *)
Theorem major_deviation_heads_the_recommendations planned built opm :
  exists r,
    compare_networks planned built opm = Ok r
    /\ ((exists c,
           In c (cable_comparisons r)
           /\ compliance_status c = "Major Deviation")
        <-> hd_error (recommendations r)
            = Some "🔴 Critical: Investigate major deviations immediately")
    /\ (forall n,
          (In n (cable_names planned) /\ ~ In n (cable_names built))
          \/ (In n (cable_names built) /\ ~ In n (cable_names planned)) ->
          exists c,
            In c (cable_comparisons r)
            /\ cable_id c = n
            /\ compliance_status c = "Major Deviation")
    /\ recommendations r <> [].
Proof.
  destruct (compare_networks_parts planned built opm)
    as (r & Hr & Hsum & _ & Hrec & _).
  destruct (unmatched_comparison planned built opm) as (r' & Hr'' & Hun).
  assert (r' = r) by congruence. subst r'.
  assert (Hnames :
            forall n,
              (In n (cable_names planned) /\ ~ In n (cable_names built))
              \/ (In n (cable_names built)
                  /\ ~ In n (cable_names planned)) ->
              exists c,
                In c (cable_comparisons r)
                /\ cable_id c = n
                /\ compliance_status c = "Major Deviation").
  { intros n Hn.
    destruct (comparison_of_name planned built opm r n Hr) as (c & Hc & Hid).
    { destruct Hn as [[H _] | [H _]]; auto. }
    exists c. split; [exact Hc|]. split; [exact Hid|].
    destruct (Hun c Hc) as [Hb Hp]. rewrite Hid in Hb, Hp.
    destruct Hn as [[_ H] | [_ H]]; [apply (Hb H) | apply (Hp H)]. }
  destruct (comparison_results_invariant planned built opm)
    as (r' & Hr' & Hinv).
  assert (r' = r) by congruence. subst r'.
  assert (HF : Forall (fun c => is_tier (compliance_status c))
                      (cable_comparisons r)).
  { revert Hinv. apply List.Forall_impl. intros c H. apply H. }
  pose proof (generate_summary_spec _ _ HF Hsum) as Hs.
  exists r. split; [exact Hr|].
  rewrite Hrec. unfold _generate_recommendations.
  destruct (summary r) as [s|].
  - destruct Hs as (_ & _ & _ & _ & Hma & _).
    rewrite <- count_status_pos, <- Hma.
    destruct (0 <? Summary.major_deviations s)%Z.
    + split; [split; reflexivity|]. split; [exact Hnames | discriminate].
    + split; [|split; [exact Hnames|]].
      * split; [discriminate|].
        destruct (0 <? Summary.minor_deviations s)%Z;
          destruct (Qle_bool 95 _); try destruct (Qle_bool 85 _);
          cbn [app hd_error]; intros H; discriminate H.
      * destruct (0 <? Summary.minor_deviations s)%Z; discriminate.
  - rewrite Hs in Hnames |- *. cbn.
    split; [|split; [exact Hnames | discriminate]].
    split; [intros (c & [] & _) | discriminate].
Qed.

End SummaryExtras.

(** ** The [/compare] endpoint *)

Section CompareEndpointExtras.
Import csv_parser kml_parser comparison_service comparison_api.

(** The list comprehension over the cables always returns, with the names
    of the cables in their order. *)
Lemma cables_dict_names (l : list Cable.t) :
  exists l',
    mapM cable_dict l = Ok l' /\ map name l' = map Cable.name l.
Proof.
  destruct (mapM_ok cable_dict l) as (l' & E & HF).
  { intros c _. unfold cable_dict.
    rewrite truediv_ok by discriminate. eexists. reflexivity. }
  exists l'. split; [exact E|]. clear E.
  induction HF as [|c d l l' H HF IH]; [reflexivity|].
  cbn [map]. rewrite IH. f_equal.
  unfold cable_dict in H. rewrite truediv_ok in H by discriminate.
  cbn [bind] in H. injection H as <-. reflexivity.
Qed.

Lemma holds_cables self h e :
  holds self h e -> get_cables h (self_cables self) = e_cables e.
Proof.
  intros H. pose proof (holds_reads self h e H) as E.
  apply (f_equal e_cables) in E. exact E.
Qed.

(** X18: The endpoint parses the plan and then what was built with one parser,
    so that the cables of the plan are among the built cables it compares
    with: no comparison of the endpoint has the remark of a cable that was
    planned but not built, whatever the two documents and the measurements
    are.  Every comparison is about a cable of one of the two documents. *)
Theorem compare_endpoint_never_reports_a_cable_as_not_built
    root1 root2 ms h0 :
  exists h r,
    compare_planned_vs_built (ET.WellFormed root1) (ET.WellFormed root2)
                             ms h0 = (h, Ok r)
    /\ forall c,
         In c (cable_comparisons r) ->
         In (cable_id c)
            (map Cable.name
                 (e_cables (document_entities root1)
                  ++ e_cables (document_entities root2)))
         /\ ~ In "Cable planned but not built" (remarks c).
Proof.
  destruct (init_holds h0) as [h0' [self [E0 H0]]].
  destruct (parse_file_appends self root1 h0' _ H0) as [h1 [E1 H1]].
  destruct (parse_file_appends self root2 h1 _ H1) as [h2 [E2 H2]].
  rewrite entities_app_nil_l in H1, H2.
  pose proof (holds_cables _ _ _ H1) as C1.
  pose proof (holds_cables _ _ _ H2) as C2.
  cbn [e_cables entities_app] in C2.
  destruct (cables_dict_names (e_cables (document_entities root1)))
    as (l1 & M1 & N1).
  destruct (cables_dict_names (e_cables (document_entities root1)
                               ++ e_cables (document_entities root2)))
    as (l2 & M2 & N2).
  set (opm := match ms with [] => None | _ => Some ms end).
  destruct (compare_networks_parts
              {| cables := Some l1 |} {| cables := Some l2 |} opm)
    as (r & Hr & _ & _ & _ & Hmem).
  exists h2, r. split.
  { unfold compare_planned_vs_built, mbind.
    rewrite E0, E1. unfold cables_dict at 1.
    cbn [kml_parser.cables snapshot_of]. rewrite C1, M1. cbn [bind].
    rewrite E2. unfold cables_dict.
    cbn [kml_parser.cables snapshot_of]. rewrite C2, M2. cbn [bind].
    unfold lift. fold opm. rewrite Hr. reflexivity. }
  intros c Hc.
  destruct (odict_of_list_keys name l1) as [_ INp].
  destruct (odict_of_list_keys name l2) as [_ INb].
  unfold planned_cables_of in Hmem. cbn [cables get_or] in Hmem.
  rewrite N1 in INp. rewrite N2 in INb.
  destruct (Hmem c Hc) as [(p & Hp & Hcmp) | (b & Hp & Hb & Hceq)].
  - assert (Hin : In (cable_id c)
                     (map Cable.name (e_cables (document_entities root1)))).
    { apply INp. apply odict_get_keys. unfold odict_contains.
      rewrite Hp. reflexivity. }
    assert (Hin2 : In (cable_id c)
                      (map Cable.name
                           (e_cables (document_entities root1)
                            ++ e_cables (document_entities root2)))).
    { rewrite map_app, in_app_iff. left. exact Hin. }
    split; [exact Hin2|].
    apply INb, odict_get_keys in Hin2. unfold odict_contains in Hin2.
    destruct (compare_cable_fields _ _ _ _ _ Hcmp) as (_ & _ & H3).
    destruct (odict_get (odict_of_list name l2) (cable_id c));
      [|discriminate].
    apply H3.
  - split.
    + apply INb. apply odict_get_keys. unfold odict_contains.
      rewrite Hb. reflexivity.
    + rewrite Hceq. cbn. intros [H | []]. discriminate.
Qed.

End CompareEndpointExtras.

(** ** The KML parser *)

Section PlacemarkKinds.
Import kml_parser.

Lemma lower_ascii_is_not_P (c : ascii) :
  Ascii.eqb "P" (lower_ascii c) = false.
Proof. destruct c as [[] [] [] [] [] [] [] []]; reflexivity. Qed.

Lemma lower_has_no_PU (s : string) : contains "PU-" (lower s) = false.
Proof.
  induction s as [|c r IH]; [reflexivity|].
  cbn [lower contains startswith].
  rewrite lower_ascii_is_not_P, IH. reflexivity.
Qed.

(** X19: The indicator [PU-] is looked for in lowercased text and so is never
    found: a placemark is a pole exactly when its name or its description
    contains, in any case of the letters, one of the three other
    indicators. *)
Theorem pole_indicator_PU_never_matches (name description : string) :
  contains "PU-" (lower name) || contains "PU-" (lower description) = false
  /\ (_is_pole name description = true
      <-> exists ind,
            In ind ["tiang"; "pole"; "designator:pu"]
            /\ (contains ind (lower name) = true
                \/ contains ind (lower description) = true)).
Proof.
  split; [now rewrite !lower_has_no_PU|].
  unfold _is_pole, any_indicator. rewrite existsb_exists. split.
  - intros (ind & Hin & H). exists ind. apply orb_true_iff in H.
    split; [|exact H].
    destruct Hin as [<- | [<- | [<- | Hin]]]; cbn; auto.
    exfalso. rewrite !lower_has_no_PU in H. destruct H; discriminate.
  - intros (ind & Hin & H). exists ind. split.
    + destruct Hin as [<- | [<- | [<- | []]]]; cbn; auto.
    + apply orb_true_iff. exact H.
Qed.

Lemma parse_pole_name placemark name description p :
  _parse_pole placemark name description = Some p -> Pole.name p = name.
Proof.
  unfold _parse_pole.
  destruct (ET.find_descendants_child _ _ _) as [point|]; [|discriminate].
  destruct (_parse_coordinates _); [discriminate|].
  intros H. injection H as <-. reflexivity.
Qed.

Lemma parse_odp_name placemark name description p :
  _parse_odp placemark name description = Some p -> ODP.name p = name.
Proof.
  unfold _parse_odp.
  destruct (ET.find_descendants_child _ _ _) as [point|]; [|discriminate].
  destruct (_parse_coordinates _); [discriminate|].
  intros H. injection H as <-. reflexivity.
Qed.

Lemma parse_cable_name placemark name description p :
  _parse_cable placemark name description = Some p ->
  Cable.name p = name /\ Cable.coordinates p <> [].
Proof.
  unfold _parse_cable.
  destruct (ET.find_descendants_child _ _ _) as [point|]; [|discriminate].
  destruct (_parse_coordinates _) eqn:E; [discriminate|].
  intros H. injection H as <-. split; [reflexivity | discriminate].
Qed.

(** What one placemark adds: at most one entity, of the type of its raw
    record and with its name. *)
Lemma placemark_entities_kinds placemark :
  let e := placemark_entities placemark in
  map Pole.name (e_poles e) `sublist_of` raw_names_of "pole" (e_raw e)
  /\ map ODP.name (e_odps e) `sublist_of` raw_names_of "odp" (e_raw e)
  /\ map Cable.name (e_cables e) `sublist_of` raw_names_of "cable" (e_raw e)
  /\ (List.length (e_poles e) + List.length (e_odps e)
      + List.length (e_cables e) <= List.length (e_raw e))%nat
  /\ (List.length (e_raw e) <= 1)%nat
  /\ Forall (fun c => Cable.coordinates c <> []) (e_cables e).
Proof.
  unfold placemark_entities, raw_names_of.
  destruct (child_text (kml "name") "Unknown" placemark) as [name|];
    [destruct (child_text (kml "description") "" placemark)
       as [description|] |].
  2,3: (cbn; repeat split; try constructor; lia).
  cbn [e_poles e_odps e_cables e_raw List.filter RawPlacemark.type
       RawPlacemark.name].
  unfold _determine_type.
  destruct (_is_pole name description); cbn [negb andb].
  { destruct (_parse_pole placemark name description) as [x|] eqn:E;
      cbn [option_list map List.length].
    - apply parse_pole_name in E. rewrite E.
      cbn. repeat split; try constructor; try lia; constructor.
    - cbn. repeat split; try constructor; try lia; constructor. }
  destruct (_is_odp name description); cbn [negb andb].
  { destruct (_parse_odp placemark name description) as [x|] eqn:E;
      cbn [option_list map List.length].
    - apply parse_odp_name in E. rewrite E.
      cbn. repeat split; try constructor; try lia; constructor.
    - cbn. repeat split; try constructor; try lia; constructor. }
  destruct (_is_cable name description).
  { destruct (_parse_cable placemark name description) as [x|] eqn:E;
      cbn [option_list map List.length].
    - apply parse_cable_name in E. destruct E as [E Hc]. rewrite E.
      cbn. repeat split; try constructor; try lia; try assumption;
        constructor.
    - cbn. repeat split; try constructor; try lia; constructor. }
  cbn. repeat split; try constructor; lia.
Qed.

Lemma raw_names_of_app type a b :
  raw_names_of type (a ++ b)
  = (raw_names_of type a ++ raw_names_of type b)%list.
Proof. unfold raw_names_of. now rewrite List.filter_app, map_app. Qed.

Lemma placemarks_entities_kinds (placemarks : list ET.Element) :
  let e := fold_right
             (fun placemark e => entities_app (placemark_entities placemark) e)
             no_entities placemarks in
  map Pole.name (e_poles e) `sublist_of` raw_names_of "pole" (e_raw e)
  /\ map ODP.name (e_odps e) `sublist_of` raw_names_of "odp" (e_raw e)
  /\ map Cable.name (e_cables e) `sublist_of` raw_names_of "cable" (e_raw e)
  /\ (List.length (e_poles e) + List.length (e_odps e)
      + List.length (e_cables e) <= List.length (e_raw e))%nat
  /\ (List.length (e_raw e) <= List.length placemarks)%nat
  /\ Forall (fun c => Cable.coordinates c <> []) (e_cables e).
Proof.
  induction placemarks as [|p ps IH].
  - cbn. repeat split; try constructor; lia.
  - cbn [fold_right]. cbv zeta in IH |- *.
    destruct IH as (I1 & I2 & I3 & I4 & I5 & I6).
    destruct (placemark_entities_kinds p) as (P1 & P2 & P3 & P4 & P5 & P6).
    cbv zeta in P1, P2, P3, P4, P5, P6.
    cbn [entities_app e_poles e_odps e_cables e_raw].
    rewrite !map_app, !raw_names_of_app, !length_app.
    cbn [List.length].
    repeat split; try (apply sublist_app; assumption); try lia.
    apply Forall_app. split; assumption.
Qed.

(** X20: The entities of a document and its raw records: every pole, ODP and
    cable of a fresh parse has a raw record of its type and name, in the
    same order; there is at most one raw record per placemark, and no
    cable without a coordinate. *)
Theorem parsed_entities_have_raw_records root :
  exists h snapshot,
    parse_fresh (ET.WellFormed root) [] = (h, Ok snapshot)
    /\ map Pole.name (e_poles (reads h snapshot))
       `sublist_of` raw_names_of "pole" (e_raw (reads h snapshot))
    /\ map ODP.name (e_odps (reads h snapshot))
       `sublist_of` raw_names_of "odp" (e_raw (reads h snapshot))
    /\ map Cable.name (e_cables (reads h snapshot))
       `sublist_of` raw_names_of "cable" (e_raw (reads h snapshot))
    /\ (List.length (e_poles (reads h snapshot))
        + List.length (e_odps (reads h snapshot))
        + List.length (e_cables (reads h snapshot))
        <= List.length (e_raw (reads h snapshot)))%nat
    /\ (List.length (e_raw (reads h snapshot))
        <= List.length (ET.findall_descendants (kml "Placemark") root))%nat
    /\ Forall (fun c => Cable.coordinates c <> [])
              (e_cables (reads h snapshot)).
Proof.
  destruct (parse_fresh_reads root) as (h & snapshot & E & Hr).
  exists h, snapshot. split; [exact E|]. rewrite Hr.
  exact (placemarks_entities_kinds
           (ET.findall_descendants (kml "Placemark") root)).
Qed.

End PlacemarkKinds.

Section DescriptionFields.
Import kml_parser.

Lemma append_String (c : ascii) (r u : string) :
  String c r ++ u = String c (r ++ u).
Proof. reflexivity. Qed.

Lemma append_Empty (u : string) : "" ++ u = u.
Proof. reflexivity. Qed.

Lemma plain_facts (c : ascii) :
  plain c = true ->
  lower_ascii c = c /\ isspace c = false /\ Ascii.eqb "m" c = false.
Proof.
  destruct c as [[] [] [] [] [] [] [] []]; vm_compute;
    intros H; try discriminate H; repeat split; reflexivity.
Qed.

Lemma digit_facts (c : ascii) :
  isdigit_ascii c = true ->
  plain c = true /\ isspace_c c = false
  /\ Ascii.eqb c "-" = false /\ Ascii.eqb c "+" = false.
Proof.
  destruct c as [[] [] [] [] [] [] [] []]; vm_compute;
    intros H; try discriminate H; repeat split; reflexivity.
Qed.

Lemma lower_plain_app (s u : string) :
  string_forall plain s = true -> lower (s ++ u) = s ++ lower u.
Proof.
  induction s as [|c r IH];
    rewrite ?append_String, ?append_Empty; cbn [string_forall lower];
    [reflexivity|].
  intros H. apply andb_true_iff in H. destruct H as [Hc Hr].
  destruct (plain_facts c Hc) as (-> & _). now rewrite IH.
Qed.

Lemma replace_plain_app (old' new s u : string) :
  string_forall plain s = true ->
  replace (String "m" old') new (s ++ u)
  = s ++ replace (String "m" old') new u.
Proof.
  unfold replace.
  induction s as [|c r IH];
    rewrite ?append_String, ?append_Empty; cbn [string_forall];
    [reflexivity|].
  intros H. apply andb_true_iff in H. destruct H as [Hc Hr].
  destruct (plain_facts c Hc) as (_ & _ & Hm).
  cbn [replace_from startswith]. rewrite Hm. cbn [andb].
  now rewrite IH.
Qed.

Lemma rstrip_by_all (sp : ascii -> bool) (w : string) :
  string_forall sp w = true -> rstrip_by sp w = "".
Proof.
  induction w as [|c r IH]; cbn [string_forall rstrip_by]; [reflexivity|].
  intros H. apply andb_true_iff in H. destruct H as [Hc Hr].
  now rewrite (IH Hr), Hc.
Qed.

Lemma lstrip_by_all (sp : ascii -> bool) (w x : string) :
  string_forall sp w = true -> lstrip_by sp (w ++ x) = lstrip_by sp x.
Proof.
  induction w as [|c r IH];
    rewrite ?append_String, ?append_Empty; cbn [string_forall lstrip_by];
    [reflexivity|].
  intros H. apply andb_true_iff in H. destruct H as [Hc Hr].
  rewrite Hc. exact (IH Hr).
Qed.

Lemma rstrip_by_none (sp : ascii -> bool) (s w : string) :
  string_forall (fun c => negb (sp c)) s = true ->
  string_forall sp w = true ->
  rstrip_by sp (s ++ w) = s.
Proof.
  intros Hs Hw.
  induction s as [|c r IH]; rewrite ?append_String, ?append_Empty.
  - now apply rstrip_by_all.
  - cbn [string_forall] in Hs. apply andb_true_iff in Hs.
    destruct Hs as [Hc Hr]. apply negb_true_iff in Hc.
    cbn [rstrip_by]. rewrite (IH Hr), Hc. destruct r; reflexivity.
Qed.

Lemma string_forall_impl (p q : ascii -> bool) (s : string) :
  (forall c, p c = true -> q c = true) ->
  string_forall p s = true -> string_forall q s = true.
Proof.
  intros Hpq. induction s as [|c r IH]; [reflexivity|].
  cbn [string_forall]. intros H. apply andb_true_iff in H.
  destruct H as [Hc Hr]. now rewrite (Hpq c Hc), IH.
Qed.

Lemma strip_plain_blank (s w : string) :
  string_forall plain s = true -> blank w = true -> strip (s ++ w) = s.
Proof.
  intros Hs Hw.
  assert (Hn : string_forall (fun c => negb (isspace c)) s = true).
  { revert Hs. apply string_forall_impl. intros c Hc.
    destruct (plain_facts c Hc) as (_ & -> & _). reflexivity. }
  unfold strip, lstrip, rstrip.
  destruct s as [|c r].
  - rewrite append_Empty.
    assert (E : lstrip_by isspace w = "").
    { unfold blank in Hw. clear Hs Hn.
      induction w as [|c r IH]; [reflexivity|].
      cbn [string_forall lstrip_by] in Hw |- *.
      apply andb_true_iff in Hw. destruct Hw as [-> Hr]. exact (IH Hr). }
    rewrite E. reflexivity.
  - pose proof Hn as Hn'. cbn [string_forall] in Hn'.
    apply andb_true_iff in Hn'. destruct Hn' as [Hc _].
    apply negb_true_iff in Hc.
    rewrite append_String. cbn [lstrip_by]. rewrite Hc.
    rewrite <- append_String. now apply rstrip_by_none.
Qed.

Lemma digitpart_rest_digits (l : list ascii) :
  forallb isdigit_ascii l = true -> digitpart_rest l = (l, []).
Proof.
  induction l as [|c r IH]; [reflexivity|].
  cbn [forallb]. intros H. apply andb_true_iff in H. destruct H as [Hc Hr].
  cbn [digitpart_rest]. now rewrite Hc, (IH Hr).
Qed.

Lemma all_digits_forallb (s : string) :
  all_digits s = forallb isdigit_ascii (list_ascii_of_string s).
Proof.
  induction s as [|c r IH]; [reflexivity|].
  cbn [all_digits list_ascii_of_string forallb]. now rewrite IH.
Qed.

Lemma all_digits_plain (s : string) :
  all_digits s = true -> string_forall plain s = true.
Proof.
  induction s as [|c r IH]; [reflexivity|].
  cbn [all_digits string_forall]. intros H. apply andb_true_iff in H.
  destruct H as [Hc Hr]. destruct (digit_facts c Hc) as (-> & _).
  exact (IH Hr).
Qed.

Lemma rstrip_by_id (sp : ascii -> bool) (s : string) :
  string_forall (fun c => negb (sp c)) s = true -> rstrip_by sp s = s.
Proof.
  induction s as [|c r IH]; [reflexivity|].
  cbn [string_forall rstrip_by]. intros H. apply andb_true_iff in H.
  destruct H as [Hc Hr]. apply negb_true_iff in Hc.
  rewrite (IH Hr), Hc. destruct r; reflexivity.
Qed.

(** [float] of a string of digits is the number the digits denote. *)
Lemma float_digits (s : string) :
  isdigit s = true ->
  exists x,
    float s = Ok x
    /\ x == inject_Z (digits_value 0 (list_ascii_of_string s)).
Proof.
  destruct s as [|c r]; [discriminate|].
  unfold isdigit. intros H.
  assert (Hsp : string_forall (fun c => negb (isspace_c c)) (String c r)
                = true).
  { clear -H. induction (String c r) as [|a s IH]; [reflexivity|].
    cbn [all_digits string_forall] in H |- *.
    apply andb_true_iff in H. destruct H as [Ha Hs].
    destruct (digit_facts a Ha) as (_ & -> & _). exact (IH Hs). }
  pose proof H as Hall. rewrite all_digits_forallb in Hall.
  cbn [all_digits] in H. apply andb_true_iff in H. destruct H as [Hc Hr].
  destruct (digit_facts c Hc) as (_ & Hspc & Hminus & Hplus).
  unfold float. cbn [lstrip_by]. rewrite Hspc.
  rewrite (rstrip_by_id isspace_c (String c r) Hsp).
  cbn [list_ascii_of_string sign]. rewrite Hminus, Hplus.
  cbn [list_ascii_of_string forallb] in Hall.
  apply andb_true_iff in Hall. destruct Hall as [_ Hall].
  unfold number, digitpart. rewrite Hc, (digitpart_rest_digits _ Hall).
  cbn [exponent]. eexists. split; [reflexivity|].
  rewrite app_nil_r. cbn [List.length Qpower].
  change (inject_Z (10 ^ Z.of_nat 0)) with 1.
  unfold Qdiv. change (/ 1) with 1. rewrite !Qmult_1_r. reflexivity.
Qed.

(** X21: A length given in metres: the unit, written [m] or [meter] in any
    case and with any white space, is dropped, and the number before it is
    read by [float]; a whole number of metres is read as that number. *)
Theorem parse_length_reads_metres (s unit : string) :
  string_forall plain s = true ->
  blank (replace "m" "" (replace "meter" "" (lower unit))) = true ->
  _parse_length (s ++ unit)
  = match float s with Ok x => x | Raise _ => 0.0 end
  /\ (isdigit s = true ->
      _parse_length (s ++ unit)
      == inject_Z (digits_value 0 (list_ascii_of_string s))).
Proof.
  intros Hs Hu.
  assert (E : _parse_length (s ++ unit)
              = match float s with Ok x => x | Raise _ => 0.0 end).
  { rewrite parse_length_never_scales.
    rewrite (lower_plain_app s unit Hs).
    rewrite (replace_plain_app "eter" "" s _ Hs).
    rewrite (replace_plain_app "" "" s _ Hs).
    rewrite (strip_plain_blank s _ Hs Hu). reflexivity. }
  split; [exact E|].
  intros Hd. rewrite E.
  destruct (float_digits s Hd) as (x & -> & Hx). exact Hx.
Qed.

Lemma parse_length_reads_metres_witness :
  string_forall plain "1200" = true
  /\ blank (replace "m" "" (replace "meter" "" (lower " Meter"))) = true
  /\ _parse_length "1200 Meter" == 1200.
Proof.
  split; [reflexivity|]. split; [reflexivity|].
  exact (proj2 (parse_length_reads_metres "1200" " Meter" eq_refl eq_refl)
               eq_refl).
Defined.

Lemma match_ignorecase_app (p k x : string) :
  lower k = lower p -> match_ignorecase p (k ++ x) = Some x.
Proof.
  revert k. induction p as [|a p IH]; intros [|b k] H;
    try discriminate H; [reflexivity|].
  cbn [lower] in H. injection H as Hab Hk.
  rewrite append_String. cbn [match_ignorecase].
  rewrite Hab, Ascii.eqb_refl. exact (IH k Hk).
Qed.

Lemma spaces_then_line_gap (gap : string) (c : ascii) (r : string) :
  blank gap = true -> isspace c = false ->
  spaces_then_line (gap ++ String c r) = Some (line (String c r)).
Proof.
  unfold blank. intros Hg Hc.
  induction gap as [|g gap IH]; rewrite ?append_String, ?append_Empty.
  - cbn [spaces_then_line]. now rewrite Hc.
  - cbn [string_forall] in Hg. apply andb_true_iff in Hg.
    destruct Hg as [Hg Hgap]. cbn [spaces_then_line].
    now rewrite Hg, (IH Hgap).
Qed.

Lemma line_app (v tail : string) :
  mem_char newline v = false ->
  tail = "" \/ (exists rest, tail = String newline rest) ->
  line (v ++ tail) = v.
Proof.
  intros Hv Ht.
  induction v as [|c r IH]; rewrite ?append_String, ?append_Empty.
  - destruct Ht as [-> | (rest & ->)]; [reflexivity|].
    cbn [line]. now rewrite Ascii.eqb_refl.
  - cbn [mem_char] in Hv. apply orb_false_iff in Hv.
    destruct Hv as [Hc Hr]. cbn [line]. now rewrite Hc, (IH Hr).
Qed.

(** X22: A field at the start of a description, written as its name, a colon
    and a value, for a field name of letters and spaces as the parser uses
    them: the name is matched without regard to the case of its letters,
    white space may surround the colon, and the value is the text up to the
    end of its line, stripped.  The white space after the colon may hold
    line feeds, so that a field without a value on its own line gets the
    next line as its value. *)
Theorem extract_field_reads_value
    (field key pre gap : string) (c : ascii) (value tail : string) :
  string_forall name_char field = true ->
  lower key = lower field ->
  blank pre = true ->
  blank gap = true ->
  isspace c = false ->
  mem_char newline value = false ->
  tail = "" \/ (exists rest, tail = String newline rest) ->
  _extract_field (key ++ pre ++ ":" ++ gap ++ String c value ++ tail) field
  = Some (strip (String c value)).
Proof.
  intros _ Hk Hpre Hgap Hc Hv Ht.
  assert (Hnl : Ascii.eqb c newline = false).
  { destruct (Ascii.eqb_spec c newline) as [-> | _]; [|reflexivity].
    discriminate Hc. }
  assert (Hm : field_match_here
                 field
                 (key ++ pre ++ ":" ++ gap ++ String c value ++ tail)
               = Some (String c value)).
  { unfold field_match_here. rewrite (match_ignorecase_app _ _ _ Hk).
    unfold lstrip, blank in *.
    rewrite (lstrip_by_all isspace pre _ Hpre).
    rewrite append_String, append_Empty. cbn [lstrip_by].
    change (isspace ":") with false. cbn iota.
    change (Ascii.eqb ":" ":") with true. cbn iota.
    rewrite (append_String c value tail).
    rewrite (spaces_then_line_gap gap c (value ++ tail) Hgap Hc).
    f_equal. rewrite <- append_String. apply line_app; [|exact Ht].
    cbn [mem_char]. now rewrite Hnl, Hv. }
  unfold _extract_field.
  assert (Hs : field_search
                 field
                 (key ++ pre ++ ":" ++ gap ++ String c value ++ tail)
               = Some (String c value)).
  { destruct (key ++ pre ++ ":" ++ gap ++ String c value ++ tail);
      cbn [field_search]; now rewrite Hm. }
  now rewrite Hs.
Qed.

Lemma extract_field_reads_value_witness :
  string_forall name_char "Fiber Length" = true
  /\ lower "FIBER LENGTH" = lower "Fiber Length"
  /\ blank " " = true
  /\ blank (String newline " ") = true
  /\ isspace "1" = false
  /\ mem_char newline "200 m " = false
  /\ _extract_field
       ("FIBER LENGTH" ++ " " ++ ":" ++ String newline " "
        ++ String "1" "200 m " ++ String newline "Usage: Telco")
       "Fiber Length"
     = Some "1200 m".
Proof.
  repeat (split; [reflexivity|]).
  exact (extract_field_reads_value
           "Fiber Length" "FIBER LENGTH" " " (String newline " ") "1"
           "200 m " (String newline "Usage: Telco")
           eq_refl eq_refl eq_refl eq_refl eq_refl eq_refl
           (or_intror (ex_intro _ "Usage: Telco" eq_refl))).
Defined.

Lemma split_from_lstrip (s : string) :
  split_from (lstrip s) [] = split_from s [].
Proof.
  unfold lstrip. induction s as [|c r IH]; [reflexivity|].
  cbn [lstrip_by]. destruct (isspace c) eqn:E; [|reflexivity].
  rewrite IH. cbn [split_from]. now rewrite E.
Qed.

Lemma split_from_rstrip (s : string) (cur : list ascii) :
  split_from (rstrip s) cur = split_from s cur.
Proof.
  unfold rstrip. revert cur. induction s as [|c r IH]; intros cur;
    [reflexivity|].
  cbn [rstrip_by]. destruct (rstrip_by isspace r) as [|b r'] eqn:E.
  - destruct (isspace c) eqn:Ec.
    + cbn [split_from]. rewrite Ec, <- (IH []). reflexivity.
    + cbn [split_from]. rewrite Ec, <- (IH (c :: cur)). reflexivity.
  - rewrite <- E in *. cbn [split_from].
    destruct (isspace c); now rewrite IH.
Qed.

Lemma split_strip (s : string) : split (strip s) = split s.
Proof.
  unfold split, strip. now rewrite split_from_rstrip, split_from_lstrip.
Qed.

Lemma split_from_app (a b : string) (sp : ascii) (cur : list ascii) :
  isspace sp = true ->
  split_from (a ++ String sp b) cur
  = (split_from a cur ++ split_from b [])%list.
Proof.
  intros Hsp. revert cur.
  induction a as [|c r IH]; intros cur;
    rewrite ?append_String, ?append_Empty.
  - cbn [split_from]. rewrite Hsp. destruct cur; reflexivity.
  - cbn [split_from]. destruct (isspace c).
    + rewrite IH. destruct cur; reflexivity.
    + apply IH.
Qed.

Lemma parse_coordinates_items (s : string) :
  _parse_coordinates (Some s)
  = flat_map (fun part =>
                match coordinate_of_part part with
                | Ok c => c
                | Raise _ => []
                end)
             (split s).
Proof.
  unfold _parse_coordinates. destruct s; [reflexivity|].
  now rewrite split_strip.
Qed.

(** X23: The items of a coordinate text are separated by white space of any
    kind and amount and are read one by one: the coordinates of a text are
    those of its part before a white space character followed by those of
    its part after it.  An item that is no coordinate is left out and does
    not disturb the others. *)
Theorem parse_coordinates_reads_items_one_by_one
    (a b : string) (sp : ascii) :
  isspace sp = true ->
  _parse_coordinates (Some (a ++ String sp b))
  = (_parse_coordinates (Some a) ++ _parse_coordinates (Some b))%list.
Proof.
  intros Hsp. rewrite !parse_coordinates_items. unfold split.
  rewrite (split_from_app a b sp [] Hsp). apply flat_map_app.
Qed.

Lemma parse_coordinates_reads_items_one_by_one_witness :
  isspace newline = true
  /\ _parse_coordinates
       (Some ("106.8,-6.2,0 north" ++ String newline "106.9,-6.3"))
     = (_parse_coordinates (Some "106.8,-6.2,0 north")
        ++ _parse_coordinates (Some "106.9,-6.3"))%list.
Proof.
  split; [reflexivity|].
  exact (parse_coordinates_reads_items_one_by_one
           "106.8,-6.2,0 north" "106.9,-6.3" newline eq_refl).
Defined.

End DescriptionFields.

(** ** The measurement files *)

Section MeasurementRows.
Import csv_parser comparison_service.

Lemma rstrip_rstrip (s : string) : rstrip (rstrip s) = rstrip s.
Proof.
  unfold rstrip. induction s as [|c r IH]; [reflexivity|].
  cbn [rstrip_by]. destruct (rstrip_by isspace r) as [|b r'] eqn:E.
  - destruct (isspace c) eqn:Ec; [reflexivity|].
    cbn [rstrip_by]. now rewrite Ec.
  - rewrite <- E in *. cbn [rstrip_by]. rewrite IH, E. reflexivity.
Qed.

Lemma lstrip_rstrip_lstrip (s : string) :
  lstrip (rstrip (lstrip s)) = rstrip (lstrip s).
Proof.
  unfold lstrip, rstrip. induction s as [|c r IH]; [reflexivity|].
  cbn [lstrip_by]. destruct (isspace c) eqn:Ec; [exact IH|].
  cbn [rstrip_by]. destruct (rstrip_by isspace r); rewrite ?Ec;
    cbn [lstrip_by]; now rewrite Ec.
Qed.

(** Stripping twice is stripping once. *)
Lemma strip_strip (s : string) : strip (strip s) = strip s.
Proof.
  unfold strip. now rewrite lstrip_rstrip_lstrip, rstrip_rstrip.
Qed.

Lemma get_value_stripped (r : row) (keys : list string) (default : string) :
  strip default = default ->
  strip (_get_value r keys default) = _get_value r keys default.
Proof.
  intros Hd. induction keys as [|k keys IH]; [exact Hd|].
  cbn [_get_value].
  destruct (r !! k) as [[[|c v]|]|]; try exact IH. apply strip_strip.
Qed.

Lemma get_value_default (r : row) (keys : list string) (default : string) :
  Forall (empty_cell r) keys -> _get_value r keys default = default.
Proof.
  induction 1 as [|k keys Hk _ IH]; [reflexivity|].
  cbn [_get_value].
  destruct Hk as [-> | [-> | ->]]; exact IH.
Qed.

Lemma opm_of_row_cable_id (r : row) (m : OPMMeasurement.t) :
  opm_of_row r = Ok m ->
  strip (OPMMeasurement.cable_id m) = OPMMeasurement.cable_id m
  /\ strip (OPMMeasurement.status m) = OPMMeasurement.status m.
Proof.
  unfold opm_of_row.
  destruct (float _); cbn [bind]; [|discriminate].
  destruct (float _); cbn [bind]; [|discriminate].
  destruct (float _); cbn [bind]; [|discriminate].
  destruct (float _); cbn [bind]; [|discriminate].
  destruct (int_literal _); cbn [bind]; [|discriminate].
  intros H. injection H as <-.
  cbn [OPMMeasurement.cable_id OPMMeasurement.status].
  split.
  - exact (get_value_stripped
             r ["Cable ID"; "CableID"; "Cable_ID"; "cable_id"] "" eq_refl).
  - exact (get_value_stripped
             r ["Status"; "Test Status"; "status"] "Unknown" eq_refl).
Qed.

Lemma parse_opm_csv_In (rows : list row) (m : OPMMeasurement.t) :
  In m (parse_opm_csv rows) -> exists r, In r rows /\ opm_of_row r = Ok m.
Proof.
  induction rows as [|r rows IH]; [intros []|].
  cbn [parse_opm_csv]. destruct (opm_of_row r) as [m'|e] eqn:E.
  - intros [<- | H].
    + exists r. split; [left; reflexivity | exact E].
    + destruct (IH H) as (r' & Hr' & E'). exists r'. split; [now right|].
      exact E'.
  - intros H. destruct (IH H) as (r' & Hr' & E'). exists r'.
    split; [now right | exact E'].
Qed.

(** X24: The cable identifiers of the measurements are stripped of white space
    and the cable names of the snapshots are not: a cable whose name
    begins or ends with white space is never joined with a measurement,
    whatever the measurement file holds. *)
Theorem measurement_joins_on_stripped_name rows planned built :
  Forall (fun m => strip (OPMMeasurement.cable_id m)
                   = OPMMeasurement.cable_id m)
         (parse_opm_csv rows)
  /\ exists r,
       compare_networks planned built (Some (parse_opm_csv rows)) = Ok r
       /\ forall c,
            In c (cable_comparisons r) ->
            strip (cable_id c) <> cable_id c ->
            measured_loss_db c = None.
Proof.
  assert (HF : Forall (fun m => strip (OPMMeasurement.cable_id m)
                                = OPMMeasurement.cable_id m)
                      (parse_opm_csv rows)).
  { apply List.Forall_forall. intros m Hm.
    destruct (parse_opm_csv_In rows m Hm) as (r & _ & E).
    exact (proj1 (opm_of_row_cable_id r m E)). }
  split; [exact HF|].
  destruct (comparison_measurement planned built (Some (parse_opm_csv rows)))
    as (r & Hr & Hm).
  exists r. split; [exact Hr|]. intros c Hc Hne. rewrite (Hm c Hc).
  destruct (last_named _ _); [|reflexivity].
  unfold last_measurement. cbn [get_or].
  destruct (List.find _ _) as [m|] eqn:E; [|reflexivity].
  exfalso. apply find_some in E. destruct E as [Hin Heq].
  apply in_rev in Hin. apply String.eqb_eq in Heq.
  apply Hne. rewrite <- Heq.
  rewrite List.Forall_forall in HF. exact (HF m Hin).
Qed.

Lemma blank_strips_to_nothing (v : string) : blank v = true -> strip v = "".
Proof.
  intros H. rewrite <- (append_Empty v).
  exact (strip_plain_blank "" v eq_refl H).
Qed.

(** X25: A row whose numeric cells are all missing or empty is kept, with the
    defaults: powers, loss and length 0 and wavelength 1550. *)
Theorem opm_row_without_numbers_gets_defaults (r : row) :
  Forall (empty_cell r) opm_number_keys ->
  exists m,
    opm_of_row r = Ok m
    /\ OPMMeasurement.tx_power_dbm m == 0
    /\ OPMMeasurement.rx_power_dbm m == 0
    /\ OPMMeasurement.loss_db m == 0
    /\ OPMMeasurement.length_km m == 0
    /\ OPMMeasurement.wavelength_nm m = 1550%Z
    /\ forall rows, parse_opm_csv (r :: rows) = m :: parse_opm_csv rows.
Proof.
  intros H. rewrite List.Forall_forall in H.
  assert (Hd : forall keys d,
             (forall k, In k keys -> In k opm_number_keys) ->
             _get_value r keys d = d).
  { intros keys d Hk. apply get_value_default.
    apply List.Forall_forall. intros k Hin. apply H, Hk, Hin. }
  unfold opm_of_row.
  rewrite !Hd by (intros k Hk; cbn in Hk |- *; tauto).
  change (float "0") with (Ok (0 * Qpower 10 0)).
  change (int_literal "1550") with (Ok 1550%Z).
  cbn [bind]. eexists. split; [reflexivity|].
  cbn [OPMMeasurement.tx_power_dbm OPMMeasurement.rx_power_dbm
       OPMMeasurement.loss_db OPMMeasurement.length_km
       OPMMeasurement.wavelength_nm].
  repeat (split; [reflexivity|]).
  intros rows. cbn [parse_opm_csv]. unfold opm_of_row.
  rewrite !Hd by (intros k Hk; cbn in Hk |- *; tauto).
  reflexivity.
Qed.

Lemma opm_row_without_numbers_gets_defaults_witness :
  Forall (empty_cell {["Cable ID" := Some "C1"]}) opm_number_keys
  /\ exists m,
       opm_of_row {["Cable ID" := Some "C1"]} = Ok m
       /\ OPMMeasurement.tx_power_dbm m == 0
       /\ OPMMeasurement.rx_power_dbm m == 0
       /\ OPMMeasurement.loss_db m == 0
       /\ OPMMeasurement.length_km m == 0
       /\ OPMMeasurement.wavelength_nm m = 1550%Z
       /\ forall rows,
            parse_opm_csv ({["Cable ID" := Some "C1"]} :: rows)
            = m :: parse_opm_csv rows.
Proof.
  assert (H : Forall (empty_cell {["Cable ID" := Some "C1"]})
                     opm_number_keys).
  { repeat constructor. }
  split; [exact H|].
  exact (opm_row_without_numbers_gets_defaults _ H).
Defined.

(** X26: A numeric cell that holds white space only is not empty and gets no
    default: it is stripped to nothing, which is no number, and the row is
    dropped. *)
Theorem opm_row_with_blank_number_is_dropped
    (r : row) (rows : list row) (key v : string) :
  In key opm_number_columns ->
  r !! key = Some (Some v) ->
  v <> "" ->
  blank v = true ->
  parse_opm_csv (r :: rows) = parse_opm_csv rows.
Proof.
  intros Hkey Hr Hv Hb.
  assert (Hg : forall keys d, _get_value r (key :: keys) d = "").
  { intros keys d. cbn [_get_value]. rewrite Hr.
    destruct v as [|a v']; [contradiction|].
    now apply blank_strips_to_nothing. }
  assert (E : exists e, opm_of_row r = Raise e).
  { unfold opm_of_row.
    destruct Hkey as [<- | [<- | [<- | [<- | [<- | []]]]]];
      rewrite Hg;
      repeat match goal with
             | |- context [bind (float ?s) _] =>
                 lazymatch s with
                 | EmptyString => fail
                 | _ => destruct (float s); cbn [bind];
                        [|eexists; reflexivity]
                 end
             end;
      eexists; reflexivity. }
  destruct E as (e & E). cbn [parse_opm_csv]. now rewrite E.
Qed.

Lemma opm_row_with_blank_number_is_dropped_witness :
  In "Loss (dB)" opm_number_columns
  /\ ({["Cable ID" := Some "C1"; "Loss (dB)" := Some " "]} : row)
     !! "Loss (dB)" = Some (Some " ")
  /\ " " <> ""
  /\ blank " " = true
  /\ parse_opm_csv
       [{["Cable ID" := Some "C1"; "Loss (dB)" := Some " "]}] = [].
Proof.
  assert (H1 : In "Loss (dB)" opm_number_columns) by (cbn; tauto).
  assert (H2 : ({["Cable ID" := Some "C1"; "Loss (dB)" := Some " "]} : row)
               !! "Loss (dB)" = Some (Some " ")) by reflexivity.
  assert (H3 : " " <> "") by discriminate.
  split; [exact H1|]. split; [exact H2|]. split; [exact H3|].
  split; [reflexivity|].
  exact (opm_row_with_blank_number_is_dropped
           _ [] "Loss (dB)" " " H1 H2 H3 eq_refl).
Defined.

Lemma filter_disjoint3 {A : Type} (p1 p2 p3 : A -> bool) (l : list A) :
  (forall x, p1 x = true -> p2 x = false /\ p3 x = false) ->
  (forall x, p2 x = true -> p3 x = false) ->
  (List.length (List.filter p1 l) + List.length (List.filter p2 l)
   + List.length (List.filter p3 l) <= List.length l)%nat.
Proof.
  intros H1 H2. induction l as [|x l IH]; [reflexivity|].
  cbn [List.filter].
  destruct (p1 x) eqn:E1.
  - destruct (H1 x E1) as [-> ->]. cbn [List.length]. lia.
  - destruct (p2 x) eqn:E2.
    + rewrite (H2 x E2). cbn [List.length]. lia.
    + destruct (p3 x); cbn [List.length]; lia.
Qed.

(** X27: The summary of the measurements: none for no measurement; otherwise
    the total is the number of measurements, the statuses pass, fail and
    warning, read without regard to the case of their letters, are counted
    apart and together do not exceed the total, and the pass rate is
    between 0 and 100. *)
Theorem opm_summary_counts (measurements : list OPMMeasurement.t) :
  exists s,
    get_summary measurements = Ok s
    /\ match s with
       | None => measurements = []
       | Some s =>
           OPMSummary.total_measurements s
           = Z.of_nat (List.length measurements)
           /\ (0 < OPMSummary.total_measurements s)%Z
           /\ (0 <= OPMSummary.passed s)%Z
           /\ (0 <= OPMSummary.failed s)%Z
           /\ (0 <= OPMSummary.warning s)%Z
           /\ (OPMSummary.passed s + OPMSummary.failed s
               + OPMSummary.warning s <= OPMSummary.total_measurements s)%Z
           /\ 0 <= OPMSummary.pass_rate s
           /\ OPMSummary.pass_rate s <= 100
       end.
Proof.
  destruct measurements as [|m ms]; [exists None; split; reflexivity|].
  set (l := m :: ms).
  assert (Hpos : (0 < Z.of_nat (List.length l))%Z) by (cbn; lia).
  assert (Ht : 0 < inject_Z (Z.of_nat (List.length l))).
  { change 0 with (inject_Z 0). rewrite <- Zlt_Qlt. exact Hpos. }
  unfold get_summary. fold l.
  rewrite !truediv_ok by lra.
  apply Z.ltb_lt in Hpos. rewrite Hpos. apply Z.ltb_lt in Hpos.
  cbn [bind].
  eexists. split; [reflexivity|].
  cbn [OPMSummary.total_measurements OPMSummary.passed OPMSummary.failed
       OPMSummary.warning OPMSummary.pass_rate].
  assert (Hsum : (count_opm_status "pass" l + count_opm_status "fail" l
                  + count_opm_status "warning" l
                  <= Z.of_nat (List.length l))%Z).
  { unfold count_opm_status. rewrite <- !Nat2Z.inj_add.
    apply Nat2Z.inj_le. apply filter_disjoint3.
    - intros x H. apply String.eqb_eq in H. rewrite H. split; reflexivity.
    - intros x H. apply String.eqb_eq in H. rewrite H. reflexivity. }
  assert (Hp : (0 <= count_opm_status "pass" l)%Z)
    by (unfold count_opm_status; lia).
  assert (Hf : (0 <= count_opm_status "fail" l)%Z)
    by (unfold count_opm_status; lia).
  assert (Hw : (0 <= count_opm_status "warning" l)%Z)
    by (unfold count_opm_status; lia).
  repeat (split; [assumption || reflexivity|]).
  assert (H0 : 0 <= inject_Z (count_opm_status "pass" l)).
  { change 0 with (inject_Z 0). rewrite <- Zle_Qle. exact Hp. }
  assert (H1 : inject_Z (count_opm_status "pass" l)
               <= inject_Z (Z.of_nat (List.length l))).
  { rewrite <- Zle_Qle. lia. }
  assert (Hq0 : 0 <= inject_Z (count_opm_status "pass" l)
                     / inject_Z (Z.of_nat (List.length l))).
  { apply Qle_shift_div_l; [exact Ht | lra]. }
  assert (Hq1 : inject_Z (count_opm_status "pass" l)
                / inject_Z (Z.of_nat (List.length l)) <= 1).
  { apply Qle_shift_div_r; [exact Ht | lra]. }
  apply round_percent; lra.
Qed.

End MeasurementRows.
